(** * The undo/redo history of the sprite editor

    A shallow embedding of [undo_history.cpp]: the two chunk streams, the
    group scanning helpers, the recording entry points, the replay loop
    [runUndo], the budget enforcement of [updateUndo], and the raw layer
    codec.

    Conventions of the embedding.
    - C [int] values are unbounded [Z]; signed overflow is undefined in the
      source and is not modelled.  Narrowing stores ([uint16_t], [uint8_t]
      fields) are written out with [u16] and [u8].
    - A live object is named by its [ObjectId]: the objects container is a
      bijection between handles and ids, so a handle is represented by the
      id it is registered under.
    - [base_malloc0] always succeeds.
    - [UndoStream] is declared in [undo_stream.h], outside this unit; its
      operations are modelled from their description: a sequence of
      chunks, head first, where a push appends.
    - An inverter either completes, throws [UndoException] (the state
      reached at the throw is kept), or leaves the contract of the engine
      (a failed [ASSERT], a dereferenced null handle). *)

From stdpp Require Import prelude gmap strings.
From Stdlib Require Import ZArith Lia.

Open Scope Z_scope.

(** ** Chunk kinds *)

(** The [UNDO_TYPE_*] enumeration, in the order of the source. *)
Inductive UndoType : Type :=
  | UNDO_TYPE_OPEN
  | UNDO_TYPE_CLOSE
  | UNDO_TYPE_DATA
  | UNDO_TYPE_IMAGE
  | UNDO_TYPE_FLIP
  | UNDO_TYPE_DIRTY
  | UNDO_TYPE_ADD_IMAGE
  | UNDO_TYPE_REMOVE_IMAGE
  | UNDO_TYPE_REPLACE_IMAGE
  | UNDO_TYPE_ADD_CEL
  | UNDO_TYPE_REMOVE_CEL
  | UNDO_TYPE_SET_LAYER_NAME
  | UNDO_TYPE_ADD_LAYER
  | UNDO_TYPE_REMOVE_LAYER
  | UNDO_TYPE_MOVE_LAYER
  | UNDO_TYPE_SET_LAYER
  | UNDO_TYPE_ADD_PALETTE
  | UNDO_TYPE_REMOVE_PALETTE
  | UNDO_TYPE_SET_PALETTE_COLORS
  | UNDO_TYPE_REMAP_PALETTE
  | UNDO_TYPE_SET_MASK
  | UNDO_TYPE_SET_IMGTYPE
  | UNDO_TYPE_SET_SIZE
  | UNDO_TYPE_SET_FRAME
  | UNDO_TYPE_SET_FRAMES
  | UNDO_TYPE_SET_FRLEN.

#[global] Instance UndoType_eq_dec : EqDecision UndoType.
Proof. solve_decision. Defined.

(** The direction of a replay: [DO_UNDO] or [DO_REDO]. *)
Inductive UndoState : Type := DO_UNDO | DO_REDO.

#[global] Instance UndoState_eq_dec : EqDecision UndoState.
Proof. solve_decision. Defined.

(** The [name] column of the [undo_actions] table ([DECL_UNDO_ACTION]
    stringifies its argument). *)
Definition undo_action_name (t : UndoType) : string :=
  match t with
  | UNDO_TYPE_OPEN => "open"
  | UNDO_TYPE_CLOSE => "close"
  | UNDO_TYPE_DATA => "data"
  | UNDO_TYPE_IMAGE => "image"
  | UNDO_TYPE_FLIP => "flip"
  | UNDO_TYPE_DIRTY => "dirty"
  | UNDO_TYPE_ADD_IMAGE => "add_image"
  | UNDO_TYPE_REMOVE_IMAGE => "remove_image"
  | UNDO_TYPE_REPLACE_IMAGE => "replace_image"
  | UNDO_TYPE_ADD_CEL => "add_cel"
  | UNDO_TYPE_REMOVE_CEL => "remove_cel"
  | UNDO_TYPE_SET_LAYER_NAME => "set_layer_name"
  | UNDO_TYPE_ADD_LAYER => "add_layer"
  | UNDO_TYPE_REMOVE_LAYER => "remove_layer"
  | UNDO_TYPE_MOVE_LAYER => "move_layer"
  | UNDO_TYPE_SET_LAYER => "set_layer"
  | UNDO_TYPE_ADD_PALETTE => "add_palette"
  | UNDO_TYPE_REMOVE_PALETTE => "remove_palette"
  | UNDO_TYPE_SET_PALETTE_COLORS => "set_palette_colors"
  | UNDO_TYPE_REMAP_PALETTE => "remap_palette"
  | UNDO_TYPE_SET_MASK => "set_mask"
  | UNDO_TYPE_SET_IMGTYPE => "set_imgtype"
  | UNDO_TYPE_SET_SIZE => "set_size"
  | UNDO_TYPE_SET_FRAME => "set_frame"
  | UNDO_TYPE_SET_FRAMES => "set_frames"
  | UNDO_TYPE_SET_FRLEN => "set_frlen"
  end.

(** ** Integers and bytes *)

Definition ObjectId : Type := Z.

Definition u8 (v : Z) : Z := v mod 256.
Definition u16 (v : Z) : Z := v mod 65536.
Definition u32 (v : Z) : Z := v mod 4294967296.

(** The [write_raw_*] macros: the value is copied into the buffer low byte
    first and the cursor advances by the width. *)
Definition write_raw_uint8 (src : Z) : list Z := [u8 src].
Definition write_raw_uint16 (src : Z) : list Z :=
  [Z.land (u16 src) 255; Z.land (Z.shiftr (u16 src) 8) 255].
Definition write_raw_int16 (src : Z) : list Z := write_raw_uint16 src.
Definition write_raw_uint32 (src : Z) : list Z :=
  [Z.land (u32 src) 255; Z.land (Z.shiftr (u32 src) 8) 255;
   Z.land (Z.shiftr (u32 src) 16) 255; Z.land (Z.shiftr (u32 src) 24) 255].
(** [write_raw_data(src, size)]: [size] bytes are copied from [src]. *)
Definition write_raw_data (src : list Z) (size : Z) : list Z :=
  take (Z.to_nat size) src.

(** The [read_raw_*] macros: the [memcpy] takes the bytes at the cursor,
    low byte first as [write_raw_*] stores them, and the cursor advances
    by the width.  The result is the value and the bytes behind it;
    [None] when the buffer ends before the value does. *)
Definition read_raw_uint8 (raw_data : list Z) : option (Z * list Z) :=
  match raw_data with
  | b0 :: rest => Some (b0, rest)
  | _ => None
  end.

Definition read_raw_uint16 (raw_data : list Z) : option (Z * list Z) :=
  match raw_data with
  | b0 :: b1 :: rest => Some (b0 + 256 * b1, rest)
  | _ => None
  end.

(** [dst = (int16_t)word]. *)
Definition read_raw_int16 (raw_data : list Z) : option (Z * list Z) :=
  '(word, rest) ← read_raw_uint16 raw_data;
  Some (if word <? 32768 then word else word - 65536, rest).

Definition read_raw_uint32 (raw_data : list Z) : option (Z * list Z) :=
  match raw_data with
  | b0 :: b1 :: b2 :: b3 :: rest =>
      Some (b0 + 256 * b1 + 65536 * b2 + 16777216 * b3, rest)
  | _ => None
  end.

(** [read_raw_data(dst, size)]: [size] bytes are copied to [dst]. *)
Definition read_raw_data (size : Z) (raw_data : list Z) : option (list Z * list Z) :=
  if decide (Z.to_nat size <= length raw_data)%nat
  then Some (take (Z.to_nat size) raw_data, drop (Z.to_nat size) raw_data)
  else None.

(** ** Live objects *)

(** Modelled from the spec: the raster types are not part of this unit.
    [imgtype] is the enumeration RGB (4 bytes per pixel), GRAY (2 bytes),
    INDEXED (1 byte). *)
Inductive ImgType : Type := IMAGE_RGB | IMAGE_GRAYSCALE | IMAGE_INDEXED.

#[global] Instance ImgType_eq_dec : EqDecision ImgType.
Proof. solve_decision. Defined.

(** Modelled from the spec: an [Image] has an [imgtype], a width, a height,
    a mask colour and [h] scan lines of [line_size(w)] bytes each. *)
Record Image : Type := mkImage {
  image_imgtype : ImgType;
  image_w : Z;
  image_h : Z;
  image_mask_color : Z;
  image_line : list (list Z)
}.

(** Modelled from the spec: [image_line_size(image, width)], the number of
    bytes of [width] pixels of the image's type. *)
Definition image_line_size (image : Image) (width : Z) : Z :=
  match image_imgtype image with
  | IMAGE_RGB => 4 * width
  | IMAGE_GRAYSCALE => 2 * width
  | IMAGE_INDEXED => width
  end.

(** An image whose line table matches its declared geometry. *)
Definition image_wf (image : Image) : Prop :=
  0 <= image_w image /\ 0 <= image_h image /\
  length (image_line image) = Z.to_nat (image_h image) /\
  Forall (fun l => length l = Z.to_nat (image_line_size image (image_w image)))
         (image_line image).

(** Modelled from the spec: the part of a [Sprite] that the plain setter
    chunks touch (size, imgtype, current frame, total frames). *)
Record Sprite : Type := mkSprite {
  sprite_imgtype : ImgType;
  sprite_width : Z;
  sprite_height : Z;
  sprite_frame : Z;
  sprite_frames : Z
}.

(** A registered object.  Stocks, layers, cels, palettes, masks and
    documents belong to collaborators and are kept in their own
    representation. *)
Inductive Object : Type :=
  | ObjImage (image : Image)
  | ObjSprite (sprite : Sprite)
  | ObjForeign (repr : list Z).

(** Modelled from the spec: [ObjectsContainer::getObjectT<T>(id)] yields
    the typed object registered under [id], or nil. *)
Definition getObjectT_Image (objects : gmap Z Object) (id : ObjectId) : option Image :=
  match objects !! id with
  | Some (ObjImage image) => Some image
  | _ => None
  end.

Definition getObjectT_Sprite (objects : gmap Z Object) (id : ObjectId) : option Sprite :=
  match objects !! id with
  | Some (ObjSprite sprite) => Some sprite
  | _ => None
  end.

(** ** Chunks and streams *)

(** The payload that follows the [UndoChunk] header, one constructor per
    chunk struct of the kinds written out here; the kinds served by
    collaborators keep their fixed fields and their flexible tail as
    numbers and bytes. *)
Inductive ChunkBody : Type :=
  | BodyNone
  | BodyImage (image_id : ObjectId) (imgtype : ImgType) (x y w h : Z) (data : list Z)
  | BodyRemapPalette (sprite_id : ObjectId) (frame_from frame_to : Z) (mapping : list Z)
  | BodySetImgType (sprite_id : ObjectId) (imgtype : ImgType)
  | BodySetSize (sprite_id : ObjectId) (width height : Z)
  | BodySetFrame (sprite_id : ObjectId) (frame : Z)
  | BodySetFrames (sprite_id : ObjectId) (frames : Z)
  | BodyForeign (fields : list Z) (data : list Z).

(** [struct UndoChunk] with the rest of its allocation. *)
Record UndoChunk : Type := mkChunk {
  chunk_type : UndoType;
  chunk_size : Z;
  chunk_label : string;
  chunk_body : ChunkBody
}.

(** Modelled from the spec: [UndoStream] (declared in [undo_stream.h]) is
    an ordered sequence of chunks, head first, with the running
    [memSize], the sum of the chunk sizes, updated on every push and pop. *)
Record UndoStream : Type := mkStream {
  chunks : list UndoChunk;
  memSize : Z
}.

Definition empty_stream : UndoStream := mkStream [] 0.

(** Modelled from the spec: [push(chunk)] appends and adds [chunk.size]
    to [memSize]. *)
Definition pushChunk (chunk : UndoChunk) (s : UndoStream) : UndoStream :=
  mkStream (chunks s ++ [chunk]) (memSize s + chunk_size chunk).

(** Modelled from the spec: [popHead]/[popTail] remove and return a chunk
    and subtract its size; nil on an empty stream.  The source calls it
    [popChunk(tail)]. *)
Definition popChunk (tail : bool) (s : UndoStream) : option (UndoChunk * UndoStream) :=
  if tail then
    match reverse (chunks s) with
    | [] => None
    | chunk :: before => Some (chunk, mkStream (reverse before) (memSize s - chunk_size chunk))
    end
  else
    match chunks s with
    | [] => None
    | chunk :: rest => Some (chunk, mkStream rest (memSize s - chunk_size chunk))
    end.

(** Modelled from the spec: [clear()] frees all chunks and resets
    [memSize] to 0. *)
Definition clear (s : UndoStream) : UndoStream := empty_stream.

(** Modelled from the spec: [isEmpty] and [memSize]. *)
Definition empty (s : UndoStream) : bool :=
  match chunks s with [] => true | _ => false end.

Definition getMemSize (s : UndoStream) : Z := memSize s.

(** ** Group scanning *)

(** The test that every scanning loop of the source repeats:
    [if (type == OPEN) level++; else if (type == CLOSE) level--;]. *)
Definition level_step (level : Z) (chunk : UndoChunk) : Z :=
  if decide (chunk_type chunk = UNDO_TYPE_OPEN) then level + 1
  else if decide (chunk_type chunk = UNDO_TYPE_CLOSE) then level - 1
  else level.

(** The inner [do { chunk = *it; ++it; ... } while (level && it != end)]
    shared by [count_undo_groups] and [out_of_group].  It is entered with
    the iterator on [chunk] and [it] behind it; it returns the level it
    stopped with and the iterator position. *)
Fixpoint group_scan (level : Z) (chunk : UndoChunk) (it : list UndoChunk)
  : Z * list UndoChunk :=
  let level' := level_step level chunk in
  match it with
  | [] => (level', [])
  | next :: it' =>
      if level' =? 0 then (level', it) else group_scan level' next it'
  end.

(** The outer [while (it != end)] of [count_undo_groups].  Every turn
    consumes at least one chunk, so [length] of the stream is enough fuel. *)
Fixpoint count_undo_groups_loop (fuel : nat) (it : list UndoChunk) (groups : Z) : Z :=
  match fuel, it with
  | _, [] => groups
  | O, _ :: _ => groups
  | S fuel', chunk :: rest =>
      let '(level, it') := group_scan 0 chunk rest in
      count_undo_groups_loop fuel' it' (if level =? 0 then groups + 1 else groups)
  end.

Definition count_undo_groups (undo_stream : UndoStream) : Z :=
  count_undo_groups_loop (length (chunks undo_stream)) (chunks undo_stream) 0.

(** The outer loop of [out_of_group]: [level] is reset at the top of every
    turn and the value left by the last turn is returned. *)
Fixpoint out_of_group_loop (fuel : nat) (it : list UndoChunk) (level : Z) : Z :=
  match fuel, it with
  | _, [] => level
  | O, _ :: _ => level
  | S fuel', chunk :: rest =>
      let '(level', it') := group_scan 0 chunk rest in
      out_of_group_loop fuel' it' level'
  end.

Definition out_of_group (undo_stream : UndoStream) : bool :=
  out_of_group_loop (length (chunks undo_stream)) (chunks undo_stream) 0 =? 0.

(** The words of the specification for the same notions. *)

(** Running depth over the entire contents: number of OPEN chunks minus
    number of CLOSE chunks. *)
Definition depth (cs : list UndoChunk) : Z :=
  Z.of_nat (length (filter (fun c => chunk_type c = UNDO_TYPE_OPEN) cs))
  - Z.of_nat (length (filter (fun c => chunk_type c = UNDO_TYPE_CLOSE) cs)).

(** The number of times the running depth is back at 0 after a chunk,
    walking head to tail. *)
Definition depth_returns (cs : list UndoChunk) : Z :=
  Z.of_nat (length (filter (fun k => depth (take k cs) = 0)
                           (seq 1 (length cs)))).

(** A well-formed stream: the running depth is never negative and is zero
    at the end (every OPEN is matched by a CLOSE). *)
Definition well_formed (cs : list UndoChunk) : Prop :=
  (forall k : nat, 0 <= depth (take k cs)) /\ depth cs = 0.

(** Top-level entries: [entries cs n] holds when [cs] is a sequence of [n]
    entries, each a single chunk that is no delimiter or a group
    OPEN ... CLOSE around a sequence of entries. *)
Inductive entries : list UndoChunk -> nat -> Prop :=
  | entries_nil : entries [] 0
  | entries_single c cs n :
      chunk_type c <> UNDO_TYPE_OPEN -> chunk_type c <> UNDO_TYPE_CLOSE ->
      entries cs n -> entries (c :: cs) (S n)
  | entries_group o inner k cl cs n :
      chunk_type o = UNDO_TYPE_OPEN -> chunk_type cl = UNDO_TYPE_CLOSE ->
      entries inner k -> entries cs n ->
      entries (o :: inner ++ cl :: cs) (S n).

(** ** The history *)

(** How a call into the engine ends. *)
Inductive Outcome (S : Type) : Type :=
  | Ok (s : S)
  | Raised (msg : string) (s : S)
  | Violation.

Arguments Ok {S} s.
Arguments Raised {S} msg s.
Arguments Violation {S}.

Definition and_then {S : Type} (o : Outcome S) (k : S -> Outcome S) : Outcome S :=
  match o with
  | Ok s => k s
  | Raised msg s => Raised msg s
  | Violation => Violation
  end.

Notation "o >>= k" := (and_then o k) (at level 50, left associativity).

(** [class UndoHistory]: the objects container with the live objects
    behind it, the two streams, the two counters, the enabled flag and the
    label ([None] is the null pointer). *)
Record UndoHistory : Type := mkHistory {
  m_objects : gmap Z Object;
  m_undoStream : UndoStream;
  m_redoStream : UndoStream;
  m_diffCount : Z;
  m_diffSaved : Z;
  m_enabled : bool;
  m_label : option string
}.

(** An [UndoStream*] of the history points at one of its two streams. *)
Inductive StreamRef : Type := TheUndoStream | TheRedoStream.

Definition get_stream (r : StreamRef) (u : UndoHistory) : UndoStream :=
  match r with
  | TheUndoStream => m_undoStream u
  | TheRedoStream => m_redoStream u
  end.

Definition set_stream (r : StreamRef) (s : UndoStream) (u : UndoHistory) : UndoHistory :=
  match r with
  | TheUndoStream =>
      mkHistory (m_objects u) s (m_redoStream u)
                (m_diffCount u) (m_diffSaved u) (m_enabled u) (m_label u)
  | TheRedoStream =>
      mkHistory (m_objects u) (m_undoStream u) s
                (m_diffCount u) (m_diffSaved u) (m_enabled u) (m_label u)
  end.

Definition set_objects (objects : gmap Z Object) (u : UndoHistory) : UndoHistory :=
  mkHistory objects (m_undoStream u) (m_redoStream u)
            (m_diffCount u) (m_diffSaved u) (m_enabled u) (m_label u).

Definition set_diffCount (n : Z) (u : UndoHistory) : UndoHistory :=
  mkHistory (m_objects u) (m_undoStream u) (m_redoStream u)
            n (m_diffSaved u) (m_enabled u) (m_label u).

(** The constructor: both counters 0, enabled, no label, empty streams. *)
Definition new_UndoHistory (objects : gmap Z Object) : UndoHistory :=
  mkHistory objects empty_stream empty_stream 0 0 true None.

Definition isEnabled (u : UndoHistory) : bool := m_enabled u.

Definition setEnabled (state : bool) (u : UndoHistory) : UndoHistory :=
  mkHistory (m_objects u) (m_undoStream u) (m_redoStream u)
            (m_diffCount u) (m_diffSaved u) state (m_label u).

Definition canUndo (u : UndoHistory) : bool := negb (empty (m_undoStream u)).

Definition canRedo (u : UndoHistory) : bool := negb (empty (m_redoStream u)).

Definition clearRedo (u : UndoHistory) : UndoHistory :=
  if negb (empty (m_redoStream u))
  then set_stream TheRedoStream (clear (m_redoStream u)) u
  else u.

Definition getLabel (u : UndoHistory) : option string := m_label u.

Definition setLabel (label : option string) (u : UndoHistory) : UndoHistory :=
  mkHistory (m_objects u) (m_undoStream u) (m_redoStream u)
            (m_diffCount u) (m_diffSaved u) (m_enabled u) label.



(** [undo_chunk_new(stream, type, size)]: the chunk gets the label of the
    history, or the name of its action when there is none, and is pushed
    on the stream.  The body is what the caller stores in the allocation
    right after. *)
Definition undo_chunk_new (stream : StreamRef) (type : UndoType) (size : Z)
    (body : ChunkBody) (u : UndoHistory) : UndoHistory :=
  let label := match getLabel u with
               | Some l => l
               | None => undo_action_name type
               end in
  set_stream stream (pushChunk (mkChunk type size label body) (get_stream stream u)) u.

(** ** Collaborators *)

(** What the inverter of a kind served by collaborators does, as far as
    the engine is concerned.  Every such inverter in the source resolves
    its ids and then either runs the encoder of the symmetric kind once
    and changes the live graph, or returns without doing anything because
    a guarded lookup gave nil, or throws before encoding, or dereferences
    a handle it did not check. *)
Inductive InvertEffect : Type :=
  | Emits (tail_size : Z) (body : ChunkBody) (objects' : gmap Z Object)
  | Skips
  | Throws (msg : string)
  | Leaves.

(** The kinds served by collaborators and what their inverters do in
    the source before and around the one call of the symmetric encoder:
    - DATA, ADD_CEL, REMOVE_CEL, ADD_LAYER, REMOVE_LAYER, MOVE_LAYER,
      SET_LAYER, ADD_PALETTE, REMOVE_PALETTE: no guard, the handles are
      used as they come ([Emits] or [Leaves]);
    - FLIP, DIRTY, ADD_IMAGE, REMOVE_IMAGE, REPLACE_IMAGE, SET_LAYER_NAME,
      SET_MASK, SET_FRLEN: the body is under [if (object)], so a handle
      that is gone gives [Skips];
    - SET_PALETTE_COLORS: no palette for the frame gives [Throws]. *)

(** The parts of the program that live outside this unit:
    the ABI ([sizeof] of each chunk struct), the configuration value
    ["Options/UndoSizeLimit"], [Sprite::remapImages], and the encoders and
    inverters of the kinds whose payload is a stock, cel, layer, palette,
    mask, dirty region or raw field. *)
Class Collaborators : Type := {
  sizeof_chunk : UndoType -> Z;
  config_UndoSizeLimit : Z;
  remapImages : ObjectId -> Z -> Z -> list Z -> gmap Z Object -> gmap Z Object;
  foreign_new : UndoType -> list Z -> gmap Z Object -> option (Z * ChunkBody);
  foreign_invert : UndoChunk -> gmap Z Object -> InvertEffect
}.

(** The kind of the chunk an inverter emits, read off the [chunk_*_new]
    call in each [chunk_*_invert]. *)
Definition inverse_type (t : UndoType) : UndoType :=
  match t with
  | UNDO_TYPE_OPEN => UNDO_TYPE_CLOSE
  | UNDO_TYPE_CLOSE => UNDO_TYPE_OPEN
  | UNDO_TYPE_ADD_IMAGE => UNDO_TYPE_REMOVE_IMAGE
  | UNDO_TYPE_REMOVE_IMAGE => UNDO_TYPE_ADD_IMAGE
  | UNDO_TYPE_ADD_CEL => UNDO_TYPE_REMOVE_CEL
  | UNDO_TYPE_REMOVE_CEL => UNDO_TYPE_ADD_CEL
  | UNDO_TYPE_ADD_LAYER => UNDO_TYPE_REMOVE_LAYER
  | UNDO_TYPE_REMOVE_LAYER => UNDO_TYPE_ADD_LAYER
  | UNDO_TYPE_ADD_PALETTE => UNDO_TYPE_REMOVE_PALETTE
  | UNDO_TYPE_REMOVE_PALETTE => UNDO_TYPE_ADD_PALETTE
  | t => t
  end.

(** ** Pixel rectangles *)

(** Modelled from the spec: [image_address(image, x, y)] points into scan
    line [y] at the first byte of pixel [x]; these two helpers are the
    [memcpy] of [size] bytes from and to that address. *)
Definition read_line (image : Image) (x y size : Z) : list Z :=
  take (Z.to_nat size)
       (drop (Z.to_nat (image_line_size image x))
             (image_line image !!! Z.to_nat y)).

Definition write_line (image : Image) (x y : Z) (bytes : list Z) : Image :=
  let row := image_line image !!! Z.to_nat y in
  let off := Z.to_nat (image_line_size image x) in
  mkImage (image_imgtype image) (image_w image) (image_h image)
          (image_mask_color image)
          (<[Z.to_nat y := take off row ++ bytes ++ drop (off + length bytes) row]>
             (image_line image)).

(** The copy loop of [chunk_image_new]:
    [for (v=0; v<h; ++v) { memcpy(ptr, image_address(image, x, y+v), size); ptr += size; }]. *)
Definition copy_rect (image : Image) (x y w h : Z) : list Z :=
  let size := image_line_size image w in
  concat (map (fun v => read_line image x (y + v) size) (seqZ 0 h)).

(** The restore loop of [chunk_image_invert]:
    [for (v=0; v<h; ++v) { memcpy(image_address(image, x, y+v), ptr, size); ptr += size; }]. *)
Fixpoint restore_lines (image : Image) (x y size : Z) (ptr : list Z) (vs : list Z) : Image :=
  match vs with
  | [] => image
  | v :: vs' =>
      restore_lines (write_line image x (y + v) (take (Z.to_nat size) ptr))
                    x y size (drop (Z.to_nat size) ptr) vs'
  end.

Definition restore_rect (image : Image) (x y w h : Z) (data : list Z) : Image :=
  restore_lines image x y (image_line_size image w) data (seqZ 0 h).

(** ** The inverse of a palette mapping *)

(** The loop of [chunk_remap_palette_invert]:
    [std::vector<int> inverse_mapping(256);]
    [for (c=0; c<256; ++c) inverse_mapping[chunk->mapping[c]] = c;]. *)
Definition inverse_mapping (mapping : list Z) : list Z :=
  foldl (fun inv c => <[Z.to_nat (mapping !!! c) := Z.of_nat c]> inv)
        (replicate 256 0) (seq 0 256).

(** A mapping that is a permutation of [0,256). *)
Definition is_permutation (mapping : list Z) : Prop :=
  mapping ≡ₚ seqZ 0 256.

(** Plain setters of the sprite. *)
Definition setImgType (imgtype : ImgType) (s : Sprite) : Sprite :=
  mkSprite imgtype (sprite_width s) (sprite_height s) (sprite_frame s) (sprite_frames s).
Definition setSize (width height : Z) (s : Sprite) : Sprite :=
  mkSprite (sprite_imgtype s) width height (sprite_frame s) (sprite_frames s).
Definition setCurrentFrame (frame : Z) (s : Sprite) : Sprite :=
  mkSprite (sprite_imgtype s) (sprite_width s) (sprite_height s) frame (sprite_frames s).
Definition setTotalFrames (frames : Z) (s : Sprite) : Sprite :=
  mkSprite (sprite_imgtype s) (sprite_width s) (sprite_height s) (sprite_frame s) frames.

Section Engine.

Context {collab : Collaborators}.

(** ** Encoders and inverters *)

Definition chunk_open_new (stream : StreamRef) (u : UndoHistory) : Outcome UndoHistory :=
  Ok (undo_chunk_new stream UNDO_TYPE_OPEN (sizeof_chunk UNDO_TYPE_OPEN) BodyNone u).

Definition chunk_close_new (stream : StreamRef) (u : UndoHistory) : Outcome UndoHistory :=
  Ok (undo_chunk_new stream UNDO_TYPE_CLOSE (sizeof_chunk UNDO_TYPE_CLOSE) BodyNone u).

Definition chunk_open_invert (stream : StreamRef) (chunk : UndoChunk) (u : UndoHistory)
  : Outcome UndoHistory := chunk_close_new stream u.

Definition chunk_close_invert (stream : StreamRef) (chunk : UndoChunk) (u : UndoHistory)
  : Outcome UndoHistory := chunk_open_new stream u.

(** [chunk_image_new]: the two [ASSERT]s, then the chunk with the pixels
    of the rectangle as they are now. *)
Definition chunk_image_new (stream : StreamRef) (image : ObjectId) (x y w h : Z)
    (u : UndoHistory) : Outcome UndoHistory :=
  match getObjectT_Image (m_objects u) image with
  | None => Violation
  | Some img =>
      if (1 <=? w) && (1 <=? h) && (0 <=? x) && (0 <=? y)
         && (x + w <=? image_w img) && (y + h <=? image_h img)
      then
        let size := image_line_size img w in
        Ok (undo_chunk_new stream UNDO_TYPE_IMAGE
              (sizeof_chunk UNDO_TYPE_IMAGE + size * h)
              (BodyImage image (image_imgtype img) (u16 x) (u16 y) (u16 w) (u16 h)
                         (copy_rect img x y w h))
              u)
      else Violation
  end.

(** [chunk_image_invert]: the type test, the backup of the current image
    portion, the restore of the old image portion. *)
Definition chunk_image_invert (stream : StreamRef) (chunk : UndoChunk) (u : UndoHistory)
  : Outcome UndoHistory :=
  match chunk_body chunk with
  | BodyImage id imgtype x y w h data =>
      match getObjectT_Image (m_objects u) id with
      | None => Violation
      | Some image =>
          if decide (image_imgtype image <> imgtype)
          then Raised "Image type does not match" u
          else
            chunk_image_new stream id x y w h u >>= fun u1 =>
            Ok (set_objects
                  (<[id := ObjImage (restore_rect image x y w h data)]> (m_objects u1))
                  u1)
      end
  | _ => Violation
  end.

(** [chunk_remap_palette_new]: the chunk is allocated, then the table is
    required to have 256 entries and is stored byte by byte. *)
Definition chunk_remap_palette_new (stream : StreamRef) (sprite : ObjectId)
    (frame_from frame_to : Z) (mapping : list Z) (u : UndoHistory) : Outcome UndoHistory :=
  if decide (length mapping = 256%nat)
  then Ok (undo_chunk_new stream UNDO_TYPE_REMAP_PALETTE
             (sizeof_chunk UNDO_TYPE_REMAP_PALETTE)
             (BodyRemapPalette sprite (u32 frame_from) (u32 frame_to) (map u8 mapping))
             u)
  else Violation.

Definition chunk_remap_palette_invert (stream : StreamRef) (chunk : UndoChunk)
    (u : UndoHistory) : Outcome UndoHistory :=
  match chunk_body chunk with
  | BodyRemapPalette id frame_from frame_to mapping =>
      match getObjectT_Sprite (m_objects u) id with
      | None => Violation
      | Some _ =>
          let inverse := inverse_mapping mapping in
          chunk_remap_palette_new stream id frame_from frame_to inverse u >>= fun u1 =>
          Ok (set_objects (remapImages id frame_from frame_to inverse (m_objects u1)) u1)
      end
  | _ => Violation
  end.

Definition chunk_set_imgtype_new (stream : StreamRef) (sprite : ObjectId) (u : UndoHistory)
  : Outcome UndoHistory :=
  match getObjectT_Sprite (m_objects u) sprite with
  | None => Violation
  | Some s =>
      Ok (undo_chunk_new stream UNDO_TYPE_SET_IMGTYPE (sizeof_chunk UNDO_TYPE_SET_IMGTYPE)
            (BodySetImgType sprite (sprite_imgtype s)) u)
  end.

Definition chunk_set_imgtype_invert (stream : StreamRef) (chunk : UndoChunk)
    (u : UndoHistory) : Outcome UndoHistory :=
  match chunk_body chunk with
  | BodySetImgType id imgtype =>
      match getObjectT_Sprite (m_objects u) id with
      | None => Ok u
      | Some s =>
          chunk_set_imgtype_new stream id u >>= fun u1 =>
          Ok (set_objects (<[id := ObjSprite (setImgType imgtype s)]> (m_objects u1)) u1)
      end
  | _ => Violation
  end.

Definition chunk_set_size_new (stream : StreamRef) (sprite : ObjectId) (u : UndoHistory)
  : Outcome UndoHistory :=
  match getObjectT_Sprite (m_objects u) sprite with
  | None => Violation
  | Some s =>
      Ok (undo_chunk_new stream UNDO_TYPE_SET_SIZE (sizeof_chunk UNDO_TYPE_SET_SIZE)
            (BodySetSize sprite (u32 (sprite_width s)) (u32 (sprite_height s))) u)
  end.

Definition chunk_set_size_invert (stream : StreamRef) (chunk : UndoChunk)
    (u : UndoHistory) : Outcome UndoHistory :=
  match chunk_body chunk with
  | BodySetSize id width height =>
      match getObjectT_Sprite (m_objects u) id with
      | None => Ok u
      | Some s =>
          chunk_set_size_new stream id u >>= fun u1 =>
          Ok (set_objects (<[id := ObjSprite (setSize width height s)]> (m_objects u1)) u1)
      end
  | _ => Violation
  end.

Definition chunk_set_frame_new (stream : StreamRef) (sprite : ObjectId) (u : UndoHistory)
  : Outcome UndoHistory :=
  match getObjectT_Sprite (m_objects u) sprite with
  | None => Violation
  | Some s =>
      Ok (undo_chunk_new stream UNDO_TYPE_SET_FRAME (sizeof_chunk UNDO_TYPE_SET_FRAME)
            (BodySetFrame sprite (u32 (sprite_frame s))) u)
  end.

Definition chunk_set_frame_invert (stream : StreamRef) (chunk : UndoChunk)
    (u : UndoHistory) : Outcome UndoHistory :=
  match chunk_body chunk with
  | BodySetFrame id frame =>
      match getObjectT_Sprite (m_objects u) id with
      | None => Ok u
      | Some s =>
          chunk_set_frame_new stream id u >>= fun u1 =>
          Ok (set_objects (<[id := ObjSprite (setCurrentFrame frame s)]> (m_objects u1)) u1)
      end
  | _ => Violation
  end.

Definition chunk_set_frames_new (stream : StreamRef) (sprite : ObjectId) (u : UndoHistory)
  : Outcome UndoHistory :=
  match getObjectT_Sprite (m_objects u) sprite with
  | None => Violation
  | Some s =>
      Ok (undo_chunk_new stream UNDO_TYPE_SET_FRAMES (sizeof_chunk UNDO_TYPE_SET_FRAMES)
            (BodySetFrames sprite (u32 (sprite_frames s))) u)
  end.

Definition chunk_set_frames_invert (stream : StreamRef) (chunk : UndoChunk)
    (u : UndoHistory) : Outcome UndoHistory :=
  match chunk_body chunk with
  | BodySetFrames id frames =>
      match getObjectT_Sprite (m_objects u) id with
      | None => Ok u
      | Some s =>
          chunk_set_frames_new stream id u >>= fun u1 =>
          Ok (set_objects (<[id := ObjSprite (setTotalFrames frames s)]> (m_objects u1)) u1)
      end
  | _ => Violation
  end.

(** The encoder of a kind served by collaborators: [undo_chunk_new] with
    the struct size plus the size of the tail, then the fields. *)
Definition chunk_foreign_new (stream : StreamRef) (type : UndoType) (args : list Z)
    (u : UndoHistory) : Outcome UndoHistory :=
  match foreign_new type args (m_objects u) with
  | None => Violation
  | Some (tail_size, body) =>
      Ok (undo_chunk_new stream type (sizeof_chunk type + tail_size) body u)
  end.

(** The inverter of a kind served by collaborators. *)
Definition chunk_foreign_invert (stream : StreamRef) (chunk : UndoChunk)
    (u : UndoHistory) : Outcome UndoHistory :=
  match foreign_invert chunk (m_objects u) with
  | Emits tail_size body objects' =>
      let type := inverse_type (chunk_type chunk) in
      Ok (set_objects objects'
            (undo_chunk_new stream type (sizeof_chunk type + tail_size) body u))
  | Skips => Ok u
  | Throws msg => Raised msg u
  | Leaves => Violation
  end.

(** The [invert] column of the [undo_actions] table, indexed by
    [chunk->type]. *)
Definition undo_actions_invert (type : UndoType)
  : StreamRef -> UndoChunk -> UndoHistory -> Outcome UndoHistory :=
  match type with
  | UNDO_TYPE_OPEN => chunk_open_invert
  | UNDO_TYPE_CLOSE => chunk_close_invert
  | UNDO_TYPE_IMAGE => chunk_image_invert
  | UNDO_TYPE_REMAP_PALETTE => chunk_remap_palette_invert
  | UNDO_TYPE_SET_IMGTYPE => chunk_set_imgtype_invert
  | UNDO_TYPE_SET_SIZE => chunk_set_size_invert
  | UNDO_TYPE_SET_FRAME => chunk_set_frame_invert
  | UNDO_TYPE_SET_FRAMES => chunk_set_frames_invert
  | _ => chunk_foreign_invert
  end.

(** ** Replay *)

(** The streams of [runUndo]: it reads [undo_stream] and the inverters
    write [redo_stream]. *)
Definition source_of (state : UndoState) : StreamRef :=
  if decide (state = DO_UNDO) then TheUndoStream else TheRedoStream.

Definition target_of (state : UndoState) : StreamRef :=
  if decide (state = DO_REDO) then TheUndoStream else TheRedoStream.

(** One turn of the [do ... while (level)] of [runUndo], after the pop:
    label, inverter, level, counter.  The result is the history and the
    level the [while] tests. *)
Definition runUndo_turn (state : UndoState) (level : Z) (chunk : UndoChunk)
    (u : UndoHistory) : Outcome (Z * UndoHistory) :=
  match undo_actions_invert (chunk_type chunk) (target_of state) chunk
          (setLabel (Some (chunk_label chunk)) u) with
  | Ok u1 =>
      let level' := level_step level chunk in
      let u2 := set_diffCount (match state with
                               | DO_UNDO => m_diffCount u1 - 1
                               | DO_REDO => m_diffCount u1 + 1
                               end) u1 in
      Ok (level', u2)
  | Raised msg u1 => Raised msg (level, u1)
  | Violation => Violation
  end.

(** The loop of [runUndo].  Every turn pops one chunk of the source
    stream, so the length of that stream plus one is enough fuel; the
    loop leaves through the [break] at the latest on the turn that finds
    the stream empty. *)
Fixpoint runUndo_loop (fuel : nat) (state : UndoState) (level : Z) (u : UndoHistory)
  : Outcome UndoHistory :=
  match fuel with
  | O => Ok u
  | S fuel' =>
      match popChunk false (get_stream (source_of state) u) with
      | None => Ok u
      | Some (chunk, rest) =>
          match runUndo_turn state level chunk (set_stream (source_of state) rest u) with
          | Ok (level', u') =>
              if level' =? 0 then Ok u' else runUndo_loop fuel' state level' u'
          | Raised msg (_, u') => Raised msg u'
          | Violation => Violation
          end
      end
  end.

Definition runUndo (state : UndoState) (u : UndoHistory) : Outcome UndoHistory :=
  runUndo_loop (S (length (chunks (get_stream (source_of state) u)))) state 0 u.

Definition doUndo (u : UndoHistory) : Outcome UndoHistory := runUndo DO_UNDO u.

Definition doRedo (u : UndoHistory) : Outcome UndoHistory := runUndo DO_REDO u.

(** ** Budget *)

(** The loop of [discardTail]: pop from the tail until the level is back
    at 0 or the stream is empty. *)
Fixpoint discardTail_loop (fuel : nat) (level : Z) (s : UndoStream) : UndoStream :=
  match fuel with
  | O => s
  | S fuel' =>
      match popChunk true s with
      | None => s
      | Some (chunk, s') =>
          let level' := level_step level chunk in
          if level' =? 0 then s' else discardTail_loop fuel' level' s'
      end
  end.

Definition discardTail (u : UndoHistory) : UndoHistory :=
  set_stream TheUndoStream
    (discardTail_loop (length (chunks (m_undoStream u))) 0 (m_undoStream u)) u.

(** [get_config_int("Options", "UndoSizeLimit", 8)*1024*1024]. *)
Definition undo_size_limit : Z := config_UndoSizeLimit * 1024 * 1024.

(** [while (groups > 1 && m_undoStream->getMemSize() > undo_size_limit)
       { discardTail(); groups--; }]: [groups] falls by one per turn, so
    [groups] turns are enough. *)
Fixpoint updateUndo_loop (fuel : nat) (groups : Z) (u : UndoHistory) : UndoHistory :=
  match fuel with
  | O => u
  | S fuel' =>
      if (1 <? groups) && (undo_size_limit <? getMemSize (m_undoStream u))
      then updateUndo_loop fuel' (groups - 1) (discardTail u)
      else u
  end.

Definition updateUndo (u : UndoHistory) : UndoHistory :=
  let u1 := set_diffCount (m_diffCount u + 1) u in
  let u2 := clearRedo u1 in
  if out_of_group (m_undoStream u2)
  then
    let groups := count_undo_groups (m_undoStream u2) in
    updateUndo_loop (Z.to_nat groups) groups u2
  else u2.

(** ** Recording entry points *)

(** Each [UndoHistory::undo_*] runs its encoder on [m_undoStream] and
    then [updateUndo].  Handles of collaborator objects are passed on as
    the ids they are registered under. *)

Definition undo_open (u : UndoHistory) : Outcome UndoHistory :=
  chunk_open_new TheUndoStream u >>= fun u1 => Ok (updateUndo u1).

Definition undo_close (u : UndoHistory) : Outcome UndoHistory :=
  chunk_close_new TheUndoStream u >>= fun u1 => Ok (updateUndo u1).

Definition undo_data (object fieldOffset fieldSize : Z) (u : UndoHistory)
  : Outcome UndoHistory :=
  chunk_foreign_new TheUndoStream UNDO_TYPE_DATA [object; fieldOffset; fieldSize] u
  >>= fun u1 => Ok (updateUndo u1).

Definition undo_image (image : ObjectId) (x y w h : Z) (u : UndoHistory)
  : Outcome UndoHistory :=
  chunk_image_new TheUndoStream image x y w h u >>= fun u1 => Ok (updateUndo u1).

Definition undo_flip (image : ObjectId) (x1 y1 x2 y2 : Z) (horz : bool) (u : UndoHistory)
  : Outcome UndoHistory :=
  chunk_foreign_new TheUndoStream UNDO_TYPE_FLIP
    [image; x1; y1; x2; y2; if horz then 1 else 0] u
  >>= fun u1 => Ok (updateUndo u1).

Definition undo_dirty (image : ObjectId) (dirty : list Z) (u : UndoHistory)
  : Outcome UndoHistory :=
  chunk_foreign_new TheUndoStream UNDO_TYPE_DIRTY (image :: dirty) u
  >>= fun u1 => Ok (updateUndo u1).

Definition undo_add_image (stock image_index : Z) (u : UndoHistory) : Outcome UndoHistory :=
  chunk_foreign_new TheUndoStream UNDO_TYPE_ADD_IMAGE [stock; image_index] u
  >>= fun u1 => Ok (updateUndo u1).

Definition undo_remove_image (stock image_index : Z) (u : UndoHistory)
  : Outcome UndoHistory :=
  chunk_foreign_new TheUndoStream UNDO_TYPE_REMOVE_IMAGE [stock; image_index] u
  >>= fun u1 => Ok (updateUndo u1).

Definition undo_replace_image (stock image_index : Z) (u : UndoHistory)
  : Outcome UndoHistory :=
  chunk_foreign_new TheUndoStream UNDO_TYPE_REPLACE_IMAGE [stock; image_index] u
  >>= fun u1 => Ok (updateUndo u1).

Definition undo_add_cel (layer cel : ObjectId) (u : UndoHistory) : Outcome UndoHistory :=
  chunk_foreign_new TheUndoStream UNDO_TYPE_ADD_CEL [layer; cel] u
  >>= fun u1 => Ok (updateUndo u1).

Definition undo_remove_cel (layer cel : ObjectId) (u : UndoHistory) : Outcome UndoHistory :=
  chunk_foreign_new TheUndoStream UNDO_TYPE_REMOVE_CEL [layer; cel] u
  >>= fun u1 => Ok (updateUndo u1).

Definition undo_set_layer_name (layer : ObjectId) (u : UndoHistory) : Outcome UndoHistory :=
  chunk_foreign_new TheUndoStream UNDO_TYPE_SET_LAYER_NAME [layer] u
  >>= fun u1 => Ok (updateUndo u1).

Definition undo_add_layer (folder layer : ObjectId) (u : UndoHistory) : Outcome UndoHistory :=
  chunk_foreign_new TheUndoStream UNDO_TYPE_ADD_LAYER [folder; layer] u
  >>= fun u1 => Ok (updateUndo u1).

Definition undo_remove_layer (layer : ObjectId) (u : UndoHistory) : Outcome UndoHistory :=
  chunk_foreign_new TheUndoStream UNDO_TYPE_REMOVE_LAYER [layer] u
  >>= fun u1 => Ok (updateUndo u1).

Definition undo_move_layer (layer : ObjectId) (u : UndoHistory) : Outcome UndoHistory :=
  chunk_foreign_new TheUndoStream UNDO_TYPE_MOVE_LAYER [layer] u
  >>= fun u1 => Ok (updateUndo u1).

Definition undo_set_layer (sprite : ObjectId) (u : UndoHistory) : Outcome UndoHistory :=
  chunk_foreign_new TheUndoStream UNDO_TYPE_SET_LAYER [sprite] u
  >>= fun u1 => Ok (updateUndo u1).

Definition undo_add_palette (sprite palette : ObjectId) (u : UndoHistory)
  : Outcome UndoHistory :=
  chunk_foreign_new TheUndoStream UNDO_TYPE_ADD_PALETTE [sprite; palette] u
  >>= fun u1 => Ok (updateUndo u1).

Definition undo_remove_palette (sprite palette : ObjectId) (u : UndoHistory)
  : Outcome UndoHistory :=
  chunk_foreign_new TheUndoStream UNDO_TYPE_REMOVE_PALETTE [sprite; palette] u
  >>= fun u1 => Ok (updateUndo u1).

Definition undo_set_palette_colors (sprite palette from to : Z) (u : UndoHistory)
  : Outcome UndoHistory :=
  chunk_foreign_new TheUndoStream UNDO_TYPE_SET_PALETTE_COLORS [sprite; palette; from; to] u
  >>= fun u1 => Ok (updateUndo u1).

Definition undo_remap_palette (sprite : ObjectId) (frame_from frame_to : Z)
    (mapping : list Z) (u : UndoHistory) : Outcome UndoHistory :=
  chunk_remap_palette_new TheUndoStream sprite frame_from frame_to mapping u
  >>= fun u1 => Ok (updateUndo u1).

Definition undo_set_mask (document : ObjectId) (u : UndoHistory) : Outcome UndoHistory :=
  chunk_foreign_new TheUndoStream UNDO_TYPE_SET_MASK [document] u
  >>= fun u1 => Ok (updateUndo u1).

Definition undo_set_imgtype (sprite : ObjectId) (u : UndoHistory) : Outcome UndoHistory :=
  chunk_set_imgtype_new TheUndoStream sprite u >>= fun u1 => Ok (updateUndo u1).

Definition undo_set_size (sprite : ObjectId) (u : UndoHistory) : Outcome UndoHistory :=
  chunk_set_size_new TheUndoStream sprite u >>= fun u1 => Ok (updateUndo u1).

Definition undo_set_frame (sprite : ObjectId) (u : UndoHistory) : Outcome UndoHistory :=
  chunk_set_frame_new TheUndoStream sprite u >>= fun u1 => Ok (updateUndo u1).

Definition undo_set_frames (sprite : ObjectId) (u : UndoHistory) : Outcome UndoHistory :=
  chunk_set_frames_new TheUndoStream sprite u >>= fun u1 => Ok (updateUndo u1).

Definition undo_set_frlen (sprite frame : Z) (u : UndoHistory) : Outcome UndoHistory :=
  chunk_foreign_new TheUndoStream UNDO_TYPE_SET_FRLEN [sprite; frame] u
  >>= fun u1 => Ok (updateUndo u1).

(** A call of one of the recording entry points, with its arguments. *)
Inductive Recording : Type :=
  | rec_open
  | rec_close
  | rec_data (object fieldOffset fieldSize : Z)
  | rec_image (image : ObjectId) (x y w h : Z)
  | rec_flip (image : ObjectId) (x1 y1 x2 y2 : Z) (horz : bool)
  | rec_dirty (image : ObjectId) (dirty : list Z)
  | rec_add_image (stock image_index : Z)
  | rec_remove_image (stock image_index : Z)
  | rec_replace_image (stock image_index : Z)
  | rec_add_cel (layer cel : ObjectId)
  | rec_remove_cel (layer cel : ObjectId)
  | rec_set_layer_name (layer : ObjectId)
  | rec_add_layer (folder layer : ObjectId)
  | rec_remove_layer (layer : ObjectId)
  | rec_move_layer (layer : ObjectId)
  | rec_set_layer (sprite : ObjectId)
  | rec_add_palette (sprite palette : ObjectId)
  | rec_remove_palette (sprite palette : ObjectId)
  | rec_set_palette_colors (sprite palette from to : Z)
  | rec_remap_palette (sprite : ObjectId) (frame_from frame_to : Z) (mapping : list Z)
  | rec_set_mask (document : ObjectId)
  | rec_set_imgtype (sprite : ObjectId)
  | rec_set_size (sprite : ObjectId)
  | rec_set_frame (sprite : ObjectId)
  | rec_set_frames (sprite : ObjectId)
  | rec_set_frlen (sprite frame : Z).

Definition record (r : Recording) : UndoHistory -> Outcome UndoHistory :=
  match r with
  | rec_open => undo_open
  | rec_close => undo_close
  | rec_data object fieldOffset fieldSize => undo_data object fieldOffset fieldSize
  | rec_image image x y w h => undo_image image x y w h
  | rec_flip image x1 y1 x2 y2 horz => undo_flip image x1 y1 x2 y2 horz
  | rec_dirty image dirty => undo_dirty image dirty
  | rec_add_image stock image_index => undo_add_image stock image_index
  | rec_remove_image stock image_index => undo_remove_image stock image_index
  | rec_replace_image stock image_index => undo_replace_image stock image_index
  | rec_add_cel layer cel => undo_add_cel layer cel
  | rec_remove_cel layer cel => undo_remove_cel layer cel
  | rec_set_layer_name layer => undo_set_layer_name layer
  | rec_add_layer folder layer => undo_add_layer folder layer
  | rec_remove_layer layer => undo_remove_layer layer
  | rec_move_layer layer => undo_move_layer layer
  | rec_set_layer sprite => undo_set_layer sprite
  | rec_add_palette sprite palette => undo_add_palette sprite palette
  | rec_remove_palette sprite palette => undo_remove_palette sprite palette
  | rec_set_palette_colors sprite palette from to =>
      undo_set_palette_colors sprite palette from to
  | rec_remap_palette sprite frame_from frame_to mapping =>
      undo_remap_palette sprite frame_from frame_to mapping
  | rec_set_mask document => undo_set_mask document
  | rec_set_imgtype sprite => undo_set_imgtype sprite
  | rec_set_size sprite => undo_set_size sprite
  | rec_set_frame sprite => undo_set_frame sprite
  | rec_set_frames sprite => undo_set_frames sprite
  | rec_set_frlen sprite frame => undo_set_frlen sprite frame
  end.



End Engine.

(** ** Raw layer data *)

(** Modelled from the spec: a [Cel] has a frame, a stock index, a
    position and an opacity; [cel_id] is the id it is registered under. *)
Record Cel : Type := mkCel {
  cel_id : ObjectId;
  cel_frame : Z;
  cel_image : Z;
  cel_x : Z;
  cel_y : Z;
  cel_opacity : Z
}.

(** Modelled from the spec: what [layer->getSprite()] gives the codec, the
    id of the sprite and its stock, an indexed collection of images (a
    slot holds the id of the image and the image, or nothing). *)
Record LayerSprite : Type := mkLayerSprite {
  ls_id : ObjectId;
  ls_stock : list (option (ObjectId * Image))
}.

(** Modelled from the spec: [Stock::getImage(index)]. *)
Definition getImage (sprite : LayerSprite) (index : Z) : option (ObjectId * Image) :=
  if index <? 0 then None
  else match ls_stock sprite !! Z.to_nat index with
       | Some slot => slot
       | None => None
       end.

(** Modelled from the spec: a [Layer] is an image layer with its cels or
    a folder with its children; both have an id, a name, flags and the
    sprite they belong to. *)
#[warnings="-register-all"]
Inductive Layer : Type :=
  | LayerImage (id : ObjectId) (name : list Z) (flags : Z) (sprite : LayerSprite)
               (cels : list Cel)
  | LayerFolder (id : ObjectId) (name : list Z) (flags : Z) (sprite : LayerSprite)
                (layers : list Layer).

Definition layer_id (layer : Layer) : ObjectId :=
  match layer with LayerImage id _ _ _ _ | LayerFolder id _ _ _ _ => id end.
Definition getName (layer : Layer) : list Z :=
  match layer with LayerImage _ name _ _ _ | LayerFolder _ name _ _ _ => name end.
Definition flags_addr (layer : Layer) : Z :=
  match layer with LayerImage _ _ flags _ _ | LayerFolder _ _ flags _ _ => flags end.
Definition getSprite (layer : Layer) : LayerSprite :=
  match layer with LayerImage _ _ _ sprite _ | LayerFolder _ _ _ sprite _ => sprite end.

(** The number of image layers in a layer tree. *)
Fixpoint image_layers (layer : Layer) : Z :=
  match layer with
  | LayerImage _ _ _ _ _ => 1
  | LayerFolder _ _ _ _ layers =>
      (fix sum (ls : list Layer) : Z :=
         match ls with
         | [] => 0
         | l :: ls' => image_layers l + sum ls'
         end) layers
  end.

Section RawData.

(** The numeric values of [GFXOBJ_LAYER_IMAGE], [GFXOBJ_LAYER_FOLDER] and
    of the [imgtype] enumeration are declared outside this unit. *)
Variable GFXOBJ_LAYER_IMAGE GFXOBJ_LAYER_FOLDER : Z.
Variable imgtype_code : ImgType -> Z.

Definition write_raw_image (image_id : ObjectId) (image : Image) : list Z :=
  write_raw_uint32 image_id
  ++ write_raw_uint8 (imgtype_code (image_imgtype image))
  ++ write_raw_uint16 (image_w image)
  ++ write_raw_uint16 (image_h image)
  ++ write_raw_uint32 (image_mask_color image)
  ++ (let size := image_line_size image (image_w image) in
      concat (map (fun c => write_raw_data (image_line image !!! Z.to_nat c) size)
                  (seqZ 0 (image_h image)))).

Definition get_raw_image_size (image : Image) : Z :=
  4 + 1 + 2 + 2 + 4 + image_line_size image (image_w image) * image_h image.

Definition write_raw_cel (cel : Cel) : list Z :=
  write_raw_uint32 (cel_id cel)
  ++ write_raw_uint16 (cel_frame cel)
  ++ write_raw_uint16 (cel_image cel)
  ++ write_raw_int16 (cel_x cel)
  ++ write_raw_int16 (cel_y cel)
  ++ write_raw_uint16 (cel_opacity cel).

Definition get_raw_cel_size (cel : Cel) : Z := 4 + 2 * 5.

(** The cel loop of [write_raw_layer]; [None] when a cel names a stock
    slot without an image (the [ASSERT(image != NULL)]). *)
Fixpoint write_raw_cels (sprite : LayerSprite) (cels : list Cel) : option (list Z) :=
  match cels with
  | [] => Some []
  | cel :: cels' =>
      match getImage sprite (cel_image cel), write_raw_cels sprite cels' with
      | Some (image_id, image), Some rest =>
          Some (write_raw_cel cel ++ write_raw_uint8 1
                ++ write_raw_image image_id image ++ rest)
      | _, _ => None
      end
  end.

(** [write_raw_layer]: the bytes it stores from [raw_data] on. *)
Fixpoint write_raw_layer (layer : Layer) : option (list Z) :=
  let name := getName layer in
  let head :=
    write_raw_uint32 (layer_id layer)
    ++ write_raw_uint16 (Z.of_nat (length name))
    ++ (if decide (name = []) then [] else write_raw_data name (Z.of_nat (length name)))
    ++ write_raw_uint8 (flags_addr layer) in
  match layer with
  | LayerImage _ _ _ sprite cels =>
      match write_raw_cels sprite cels with
      | Some body =>
          Some (head ++ write_raw_uint16 GFXOBJ_LAYER_IMAGE
                ++ write_raw_uint32 (ls_id sprite)
                ++ write_raw_uint16 (Z.of_nat (length cels)) ++ body)
      | None => None
      end
  | LayerFolder _ _ _ sprite layers =>
      match (fix children (ls : list Layer) : option (list Z) :=
               match ls with
               | [] => Some []
               | l :: ls' =>
                   match write_raw_layer l, children ls' with
                   | Some a, Some b => Some (a ++ b)
                   | _, _ => None
                   end
               end) layers with
      | Some body =>
          Some (head ++ write_raw_uint16 GFXOBJ_LAYER_FOLDER
                ++ write_raw_uint32 (ls_id sprite)
                ++ write_raw_uint16 (Z.of_nat (length layers)) ++ body)
      | None => None
      end
  end.

(** The cel loop of [get_raw_layer_size]. *)
Fixpoint get_raw_cels_size (sprite : LayerSprite) (cels : list Cel) : option Z :=
  match cels with
  | [] => Some 0
  | cel :: cels' =>
      match getImage sprite (cel_image cel), get_raw_cels_size sprite cels' with
      | Some (_, image), Some rest =>
          Some (get_raw_cel_size cel + 1 + get_raw_image_size image + rest)
      | _, _ => None
      end
  end.

(** [get_raw_layer_size]; [None] where [get_raw_image_size] is handed a
    null image. *)
Fixpoint get_raw_layer_size (layer : Layer) : option Z :=
  let size := 4 + 2 + Z.of_nat (length (getName layer)) + 1 + 2 + 4 in
  match layer with
  | LayerImage _ _ _ sprite cels =>
      match get_raw_cels_size sprite cels with
      | Some body => Some (size + 1 + 2 + body)
      | None => None
      end
  | LayerFolder _ _ _ _ layers =>
      match (fix children (ls : list Layer) : option Z :=
               match ls with
               | [] => Some 0
               | l :: ls' =>
                   match get_raw_layer_size l, children ls' with
                   | Some a, Some b => Some (a + b)
                   | _, _ => None
                   end
               end) layers with
      | Some body => Some (size + 2 + body)
      | None => None
      end
  end.

(** The size [chunk_remove_layer_new] asks [undo_chunk_new] for, and the
    number of bytes it then uses: the struct and what [write_raw_layer]
    stores behind it. *)
Definition remove_layer_chunk_size (sizeof_UndoChunkRemoveLayer : Z) (layer : Layer)
  : option Z :=
  match get_raw_layer_size layer with
  | Some n => Some (sizeof_UndoChunkRemoveLayer + n)
  | None => None
  end.

Definition remove_layer_chunk_bytes (sizeof_UndoChunkRemoveLayer : Z) (layer : Layer)
  : option Z :=
  match write_raw_layer layer with
  | Some bytes => Some (sizeof_UndoChunkRemoveLayer + Z.of_nat (length bytes))
  | None => None
  end.

End RawData.

(** ** Raw data read back *)

(** Modelled from the spec: a [Palette] has a frame and [size] entries,
    each a [uint32_t] colour. *)
Record Palette : Type := mkPalette {
  palette_frame : Z;
  palette_entries : list Z
}.

(** Modelled from the spec: a [Dirty] is a bounding box and rows; a row
    has a [y] and columns; a column has [x], [w] and the bytes of [w]
    pixels. *)
Record DirtyCol : Type := mkDirtyCol {
  col_x : Z;
  col_w : Z;
  col_data : list Z
}.

Record DirtyRow : Type := mkDirtyRow {
  row_y : Z;
  row_cols : list DirtyCol
}.

Record Dirty : Type := mkDirty {
  dirty_imgtype : ImgType;
  dirty_x1 : Z;
  dirty_y1 : Z;
  dirty_x2 : Z;
  dirty_y2 : Z;
  dirty_rows : list DirtyRow
}.

(** Modelled from the spec: [Dirty::getLineSize(width)], the number of
    bytes of [width] pixels of the type of the dirty. *)
Definition getLineSize (imgtype : ImgType) (width : Z) : Z :=
  match imgtype with
  | IMAGE_RGB => 4 * width
  | IMAGE_GRAYSCALE => 2 * width
  | IMAGE_INDEXED => width
  end.

(** Modelled from the spec: a [Mask] is a rectangle and, unless it is
    empty, a bitmap of [h] lines of packed bits. *)
Record Mask : Type := mkMask {
  mask_x : Z;
  mask_y : Z;
  mask_w : Z;
  mask_h : Z;
  mask_bitmap : option (list (list Z))
}.

Section RawRead.

(** The numeric values of the [imgtype] enumeration, and the type that
    [image_new] and [Dirty] make of a number, are declared outside this
    unit. *)
Variable imgtype_code : ImgType -> Z.
Variable imgtype_of_code : Z -> ImgType.

(** [read_raw_cel]: the cel it builds, with the id it registers it
    under. *)
Definition read_raw_cel (raw_data : list Z) : option Cel :=
  '(cel_id, raw_data) ← read_raw_uint32 raw_data;
  '(frame, raw_data) ← read_raw_uint16 raw_data;
  '(image, raw_data) ← read_raw_uint16 raw_data;
  '(x, raw_data) ← read_raw_int16 raw_data;
  '(y, raw_data) ← read_raw_int16 raw_data;
  '(opacity, raw_data) ← read_raw_uint16 raw_data;
  Some (mkCel cel_id frame image x y opacity).

(** [for (c=0; c<image->h; c++) read_raw_data(image->line[c], size);]
    every scan line of the new image is overwritten whole. *)
Fixpoint read_raw_lines (h : nat) (size : Z) (raw_data : list Z)
  : option (list (list Z)) :=
  match h with
  | O => Some []
  | S h' =>
      '(line, raw_data) ← read_raw_data size raw_data;
      lines ← read_raw_lines h' size raw_data;
      Some (line :: lines)
  end.

(** [read_raw_image]: [Some None] is the [NULL] it returns for the id 0;
    otherwise the image with the id it registers it under. *)
Definition read_raw_image (raw_data : list Z) : option (option (ObjectId * Image)) :=
  '(image_id, raw_data) ← read_raw_uint32 raw_data;
  if decide (image_id = 0) then Some None
  else
    '(imgtype, raw_data) ← read_raw_uint8 raw_data;
    '(width, raw_data) ← read_raw_uint16 raw_data;
    '(height, raw_data) ← read_raw_uint16 raw_data;
    '(mask_color, raw_data) ← read_raw_uint32 raw_data;
    let image := mkImage (imgtype_of_code imgtype) width height 0 [] in
    let size := image_line_size image (image_w image) in
    lines ← read_raw_lines (Z.to_nat (image_h image)) size raw_data;
    Some (Some (image_id,
                mkImage (imgtype_of_code imgtype) width height mask_color lines)).

(** [write_raw_palette] and [get_raw_palette_size]. *)
Definition write_raw_palette (palette : Palette) : list Z :=
  write_raw_uint16 (palette_frame palette)
  ++ write_raw_uint16 (Z.of_nat (length (palette_entries palette)))
  ++ concat (map write_raw_uint32 (palette_entries palette)).

Definition get_raw_palette_size (palette : Palette) : Z :=
  2 * 2 + 4 * Z.of_nat (length (palette_entries palette)).

(** [for (int c=0; c<ncolors; c++) { read_raw_uint32(color); palette->setEntry(c, color); }]. *)
Fixpoint read_raw_entries (ncolors : nat) (raw_data : list Z) : option (list Z) :=
  match ncolors with
  | O => Some []
  | S n =>
      '(color, raw_data) ← read_raw_uint32 raw_data;
      entries ← read_raw_entries n raw_data;
      Some (color :: entries)
  end.

Definition read_raw_palette (raw_data : list Z) : option Palette :=
  '(frame, raw_data) ← read_raw_uint16 raw_data;
  '(ncolors, raw_data) ← read_raw_uint16 raw_data;
  entries ← read_raw_entries (Z.to_nat ncolors) raw_data;
  Some (mkPalette frame entries).

(** [write_raw_dirty] and [get_raw_dirty_size]. *)
Definition write_raw_col (imgtype : ImgType) (col : DirtyCol) : list Z :=
  write_raw_uint16 (col_x col)
  ++ write_raw_uint16 (col_w col)
  ++ write_raw_data (col_data col) (getLineSize imgtype (col_w col)).

Definition write_raw_row (imgtype : ImgType) (row : DirtyRow) : list Z :=
  write_raw_uint16 (row_y row)
  ++ write_raw_uint16 (Z.of_nat (length (row_cols row)))
  ++ concat (map (write_raw_col imgtype) (row_cols row)).

Definition write_raw_dirty (dirty : Dirty) : list Z :=
  write_raw_uint8 (imgtype_code (dirty_imgtype dirty))
  ++ write_raw_uint16 (dirty_x1 dirty)
  ++ write_raw_uint16 (dirty_y1 dirty)
  ++ write_raw_uint16 (dirty_x2 dirty)
  ++ write_raw_uint16 (dirty_y2 dirty)
  ++ write_raw_uint16 (Z.of_nat (length (dirty_rows dirty)))
  ++ concat (map (write_raw_row (dirty_imgtype dirty)) (dirty_rows dirty)).

Definition get_raw_dirty_size (dirty : Dirty) : Z :=
  foldl (fun size row =>
           foldl (fun size col => size + 4 + getLineSize (dirty_imgtype dirty) (col_w col))
                 (size + 4) (row_cols row))
        (1 + 2 * 4 + 2) (dirty_rows dirty).

(** The column loop and the row loop of [read_raw_dirty]; the
    [ASSERT(size > 0)] gives [None]. *)
Fixpoint read_raw_cols (imgtype : ImgType) (noCols : nat) (raw_data : list Z)
  : option (list DirtyCol * list Z) :=
  match noCols with
  | O => Some ([], raw_data)
  | S n =>
      '(x, raw_data) ← read_raw_uint16 raw_data;
      '(w, raw_data) ← read_raw_uint16 raw_data;
      let size := getLineSize imgtype w in
      if 0 <? size then
        '(data, raw_data) ← read_raw_data size raw_data;
        '(cols, raw_data) ← read_raw_cols imgtype n raw_data;
        Some (mkDirtyCol x w data :: cols, raw_data)
      else None
  end.

Fixpoint read_raw_rows (imgtype : ImgType) (noRows : nat) (raw_data : list Z)
  : option (list DirtyRow * list Z) :=
  match noRows with
  | O => Some ([], raw_data)
  | S n =>
      '(y, raw_data) ← read_raw_uint16 raw_data;
      '(noCols, raw_data) ← read_raw_uint16 raw_data;
      '(cols, raw_data) ← read_raw_cols imgtype (Z.to_nat noCols) raw_data;
      '(rows, raw_data) ← read_raw_rows imgtype n raw_data;
      Some (mkDirtyRow y cols :: rows, raw_data)
  end.

Definition read_raw_dirty (raw_data : list Z) : option Dirty :=
  '(imgtype, raw_data) ← read_raw_uint8 raw_data;
  '(x1, raw_data) ← read_raw_uint16 raw_data;
  '(y1, raw_data) ← read_raw_uint16 raw_data;
  '(x2, raw_data) ← read_raw_uint16 raw_data;
  '(y2, raw_data) ← read_raw_uint16 raw_data;
  '(noRows, raw_data) ← read_raw_uint16 raw_data;
  '(rows, raw_data) ← (if 0 <? noRows
                       then read_raw_rows (imgtype_of_code imgtype) (Z.to_nat noRows) raw_data
                       else Some ([], raw_data));
  Some (mkDirty (imgtype_of_code imgtype) x1 y1 x2 y2 rows).

(** [write_raw_mask] and [get_raw_mask_size]; [(mask->w+7)/8] is the
    division of C, which rounds towards zero. *)
Definition write_raw_mask (mask : Mask) : list Z :=
  let size := Z.quot (mask_w mask + 7) 8 in
  write_raw_uint16 (mask_x mask)
  ++ write_raw_uint16 (mask_y mask)
  ++ write_raw_uint16 (match mask_bitmap mask with Some _ => mask_w mask | None => 0 end)
  ++ write_raw_uint16 (match mask_bitmap mask with Some _ => mask_h mask | None => 0 end)
  ++ match mask_bitmap mask with
     | Some line =>
         concat (map (fun c => write_raw_data (line !!! Z.to_nat c) size)
                     (seqZ 0 (mask_h mask)))
     | None => []
     end.

Definition get_raw_mask_size (mask : Mask) : Z :=
  let size := Z.quot (mask_w mask + 7) 8 in
  2 * 4 + match mask_bitmap mask with Some _ => mask_h mask * size | None => 0 end.

End RawRead.

(** ** Notions used in the statements *)

Section Replay.

Context {collab : Collaborators}.

(** The body of the loop of [runUndo] run [n] times in a row, whatever
    the level: pop the head of the source stream, set the label, run the
    inverter, move the counter. *)
Fixpoint replay (state : UndoState) (n : nat) (u : UndoHistory) : Outcome UndoHistory :=
  match n with
  | O => Ok u
  | S n' =>
      match popChunk false (get_stream (source_of state) u) with
      | None => Ok u
      | Some (chunk, rest) =>
          match runUndo_turn state 0 chunk (set_stream (source_of state) rest u) with
          | Ok (_, u') => replay state n' u'
          | Raised msg (_, u') => Raised msg u'
          | Violation => Violation
          end
      end
  end.

End Replay.

(** The first top-level entry of a stream: a non-empty run of chunks that
    brings the depth back to 0 at its end and not before.  It is a single
    chunk that is no delimiter, or an OPEN with everything up to the
    CLOSE that matches it. *)
Definition first_entry (g : list UndoChunk) : Prop :=
  g <> [] /\ depth g = 0 /\
  (forall k : nat, (0 < k < length g)%nat -> depth (take k g) <> 0).

(** What a replay adds to [diffCount] per chunk. *)
Definition diff_step (state : UndoState) : Z :=
  match state with DO_UNDO => -1 | DO_REDO => 1 end.

(** A chunk that is no group delimiter. *)
Definition plain (c : UndoChunk) : Prop :=
  chunk_type c <> UNDO_TYPE_OPEN /\ chunk_type c <> UNDO_TYPE_CLOSE.

(** Everything but the undo stream. *)
Definition same_frame (u u' : UndoHistory) : Prop :=
  m_objects u' = m_objects u /\ m_redoStream u' = m_redoStream u /\
  m_diffCount u' = m_diffCount u /\ m_diffSaved u' = m_diffSaved u /\
  m_enabled u' = m_enabled u /\ m_label u' = m_label u.

(** The stream an [UndoStream*] does not point at. *)
Definition other_stream (r : StreamRef) : StreamRef :=
  match r with TheUndoStream => TheRedoStream | TheRedoStream => TheUndoStream end.

(** [u'] is [u] with the chunks [new] pushed on [stream]; the objects may
    differ, the other stream, the counters and the label do not. *)
Definition pushes (stream : StreamRef) (u u' : UndoHistory) (new : list UndoChunk) : Prop :=
  chunks (get_stream stream u') = chunks (get_stream stream u) ++ new /\
  get_stream (other_stream stream) u' = get_stream (other_stream stream) u /\
  m_diffCount u' = m_diffCount u /\ m_diffSaved u' = m_diffSaved u /\
  m_label u' = m_label u.

(** The label [undo_chunk_new] gives a chunk of kind [type]. *)
Definition default_label (type : UndoType) (u : UndoHistory) : string :=
  match m_label u with
  | Some l => l
  | None => undo_action_name type
  end.

(** The shape of the result of every encoder of this unit: one chunk of
    its kind pushed, the objects as they were. *)
Definition encoder_result (type : UndoType) (stream : StreamRef) (u : UndoHistory)
    (o : Outcome UndoHistory) : Prop :=
  match o with
  | Ok u1 =>
      exists c, chunk_type c = type /\ chunk_label c = default_label type u /\
                pushes stream u u1 [c] /\ m_objects u1 = m_objects u
  | Raised _ _ => False
  | Violation => True
  end.

(** The shape of the result of every inverter: when it completes, at
    most one chunk, of the inverse kind, pushed on its stream, and exactly
    one for a delimiter; when it throws, the history untouched. *)
Definition inverter_result (type : UndoType) (stream : StreamRef) (u : UndoHistory)
    (o : Outcome UndoHistory) : Prop :=
  match o with
  | Ok u1 =>
      exists new,
        pushes stream u u1 new /\ (length new <= 1)%nat /\
        Forall (fun c' => chunk_type c' = inverse_type type /\
                          chunk_label c' = default_label (inverse_type type) u) new /\
        (type = UNDO_TYPE_OPEN \/ type = UNDO_TYPE_CLOSE -> length new = 1%nat)
  | Raised _ u1 => u1 = u
  | Violation => True
  end.

(** What the inverter of [c] may leave on the target stream during a
    replay: nothing or one chunk of the inverse kind under the label of
    [c]; exactly one for a delimiter. *)
Definition inverse_of (c : UndoChunk) (new : list UndoChunk) : Prop :=
  (length new <= 1)%nat /\
  Forall (fun c' => chunk_type c' = inverse_type (chunk_type c) /\
                    chunk_label c' = chunk_label c) new /\
  (chunk_type c = UNDO_TYPE_OPEN \/ chunk_type c = UNDO_TYPE_CLOSE ->
   length new = 1%nat).

(** The rectangle the [ASSERT]s of [chunk_image_new] accept. *)
Definition rect_inside (image : Image) (x y w h : Z) : Prop :=
  1 <= w /\ 1 <= h /\ 0 <= x /\ 0 <= y /\
  x + w <= image_w image /\ y + h <= image_h image.

(** Every image of the stocks a layer tree refers to is well formed. *)
Definition stock_wf (sprite : LayerSprite) : Prop :=
  Forall (fun slot => match slot with
                      | Some (_, image) => image_wf image
                      | None => True
                      end) (ls_stock sprite).

Fixpoint layer_stock_wf (layer : Layer) : Prop :=
  match layer with
  | LayerImage _ _ _ sprite _ => stock_wf sprite
  | LayerFolder _ _ _ _ layers =>
      (fix all (ls : list Layer) : Prop :=
         match ls with
         | [] => True
         | l :: ls' => layer_stock_wf l /\ all ls'
         end) layers
  end.

(** ** The plain setter chunks *)

(** The sprite a SET_IMGTYPE, SET_SIZE, SET_FRAME or SET_FRAMES chunk
    names, when the chunk is one of these with the body of its kind. *)
Definition setter_id (c : UndoChunk) : option ObjectId :=
  match chunk_type c, chunk_body c with
  | UNDO_TYPE_SET_IMGTYPE, BodySetImgType id _ => Some id
  | UNDO_TYPE_SET_SIZE, BodySetSize id _ _ => Some id
  | UNDO_TYPE_SET_FRAME, BodySetFrame id _ => Some id
  | UNDO_TYPE_SET_FRAMES, BodySetFrames id _ => Some id
  | _, _ => None
  end.

(** The setter call its inverter makes on the sprite. *)
Definition setter_apply (body : ChunkBody) (s : Sprite) : Sprite :=
  match body with
  | BodySetImgType _ imgtype => setImgType imgtype s
  | BodySetSize _ width height => setSize width height s
  | BodySetFrame _ frame => setCurrentFrame frame s
  | BodySetFrames _ frames => setTotalFrames frames s
  | _ => s
  end.

(** The body its encoder stores for the sprite as it is. *)
Definition setter_backup (body : ChunkBody) (s : Sprite) : ChunkBody :=
  match body with
  | BodySetImgType id _ => BodySetImgType id (sprite_imgtype s)
  | BodySetSize id _ _ => BodySetSize id (u32 (sprite_width s)) (u32 (sprite_height s))
  | BodySetFrame id _ => BodySetFrame id (u32 (sprite_frame s))
  | BodySetFrames id _ => BodySetFrames id (u32 (sprite_frames s))
  | _ => body
  end.

(** The fields of the sprite are values of a [uint32_t]. *)
Definition sprite_fits (s : Sprite) : Prop :=
  0 <= sprite_width s < 4294967296 /\ 0 <= sprite_height s < 4294967296 /\
  0 <= sprite_frame s < 4294967296 /\ 0 <= sprite_frames s < 4294967296.

(** The fields of a cel are values of the types [write_raw_cel] stores
    them in. *)
Definition cel_fits (cel : Cel) : Prop :=
  0 <= cel_id cel < 4294967296 /\
  0 <= cel_frame cel < 65536 /\ 0 <= cel_image cel < 65536 /\
  -32768 <= cel_x cel < 32768 /\ -32768 <= cel_y cel < 32768 /\
  0 <= cel_opacity cel < 65536.

(** The header fields of an image are values of the types
    [write_raw_image] stores them in. *)
Definition image_fits (image : Image) : Prop :=
  image_w image < 65536 /\ image_h image < 65536 /\
  0 <= image_mask_color image < 4294967296.

(** The fields of a palette are values of the types
    [write_raw_palette] stores them in. *)
Definition palette_fits (palette : Palette) : Prop :=
  0 <= palette_frame palette < 65536 /\
  Z.of_nat (length (palette_entries palette)) < 65536 /\
  Forall (fun color => 0 <= color < 4294967296) (palette_entries palette).

(** The fields of a dirty are values of the types [write_raw_dirty]
    stores them in, and every column holds the bytes of its [w] pixels,
    at least one. *)
Definition col_fits (imgtype : ImgType) (col : DirtyCol) : Prop :=
  0 <= col_x col < 65536 /\ 0 <= col_w col < 65536 /\
  0 < getLineSize imgtype (col_w col) /\
  length (col_data col) = Z.to_nat (getLineSize imgtype (col_w col)).

Definition row_fits (imgtype : ImgType) (row : DirtyRow) : Prop :=
  0 <= row_y row < 65536 /\ Z.of_nat (length (row_cols row)) < 65536 /\
  Forall (col_fits imgtype) (row_cols row).

Definition dirty_fits (dirty : Dirty) : Prop :=
  0 <= dirty_x1 dirty < 65536 /\ 0 <= dirty_y1 dirty < 65536 /\
  0 <= dirty_x2 dirty < 65536 /\ 0 <= dirty_y2 dirty < 65536 /\
  Z.of_nat (length (dirty_rows dirty)) < 65536 /\
  Forall (row_fits (dirty_imgtype dirty)) (dirty_rows dirty).

(** A mask whose bitmap, when it has one, matches its rectangle. *)
Definition mask_wf (mask : Mask) : Prop :=
  0 <= mask_w mask /\
  match mask_bitmap mask with
  | Some line =>
      0 <= mask_h mask /\ length line = Z.to_nat (mask_h mask) /\
      Forall (fun l => (Z.to_nat (Z.quot (mask_w mask + 7) 8) <= length l)%nat) line
  | None => True
  end.

(** ** Auxiliary notions for the proofs *)

(** What one chunk adds to the level. *)
Definition delta (c : UndoChunk) : Z := level_step 0 c.

(** The running count that the scanning loops compute in one pass. *)
Fixpoint returns_from (level : Z) (cs : list UndoChunk) : Z :=
  match cs with
  | [] => 0
  | c :: cs' =>
      (if level + delta c =? 0 then 1 else 0) + returns_from (level + delta c) cs'
  end.

(** ** Sample data *)

(** An image layer without cels and without a name, and a folder named
    "L" that holds two image layers with one cel each. *)
Definition sample_layer_sprite : LayerSprite :=
  mkLayerSprite 7 [Some (9, mkImage IMAGE_INDEXED 4 2 0 [[1; 2; 3; 4]; [5; 6; 7; 8]])].
Definition sample_image_layer : Layer := LayerImage 21 [] 0 sample_layer_sprite [].
Definition sample_folder_layer : Layer :=
  LayerFolder 20 [76] 0 sample_layer_sprite
    [LayerImage 22 [97] 0 sample_layer_sprite [mkCel 30 0 0 0 0 255];
     LayerImage 23 [98] 0 sample_layer_sprite [mkCel 31 1 0 2 2 255]].


(** Collaborators that serve no kind: 16-byte structs, the default limit
    of 8 MiB, a [remapImages] that leaves the objects alone. *)
Definition sample_collaborators : Collaborators := {|
  sizeof_chunk := fun _ => 16;
  config_UndoSizeLimit := 8;
  remapImages := fun _ _ _ _ objects => objects;
  foreign_new := fun _ _ _ => None;
  foreign_invert := fun _ _ => Leaves
|}.

Definition sample_open : UndoChunk := mkChunk UNDO_TYPE_OPEN 16 "paint" BodyNone.
Definition sample_close : UndoChunk := mkChunk UNDO_TYPE_CLOSE 16 "paint" BodyNone.
Definition sample_set_size : UndoChunk :=
  mkChunk UNDO_TYPE_SET_SIZE 16 "paint" (BodySetSize 7 100 100).
Definition sample_set_frame : UndoChunk :=
  mkChunk UNDO_TYPE_SET_FRAME 16 "frame" (BodySetFrame 7 3).

(** A sprite registered under id 7 and a 4x2 indexed image under id 9. *)
Definition sample_sprite : Sprite := mkSprite IMAGE_INDEXED 200 150 0 1.
Definition sample_image : Image :=
  mkImage IMAGE_INDEXED 4 2 0 [[1; 2; 3; 4]; [5; 6; 7; 8]].
Definition sample_objects : gmap Z Object :=
  <[7 := ObjSprite sample_sprite]> (<[9 := ObjImage sample_image]> ∅).

(** A stream with a single chunk and then a group. *)
Definition sample_stream : UndoStream :=
  mkStream [sample_set_frame; sample_open; sample_set_size; sample_close] 64.

(** A history whose undo stream starts with a group of three chunks. *)
Definition sample_history : UndoHistory :=
  mkHistory sample_objects
    (mkStream [sample_open; sample_set_size; sample_close; sample_set_frame] 64)
    empty_stream 4 0 true None.


(** An IMAGE chunk for image 9 taken when it was an RGB image, and one
    taken from the indexed image it is now. *)
Definition sample_rgb_chunk : UndoChunk :=
  mkChunk UNDO_TYPE_IMAGE 24 "paint"
    (BodyImage 9 IMAGE_RGB 0 0 1 1 [255; 0; 0; 255]).
Definition sample_image_chunk : UndoChunk :=
  mkChunk UNDO_TYPE_IMAGE 20 "paint"
    (BodyImage 9 IMAGE_INDEXED 1 0 2 2 [9; 9; 9; 9]).

Definition sample_mismatch_history : UndoHistory :=
  mkHistory sample_objects
    (mkStream [sample_open; sample_rgb_chunk; sample_close] 56)
    empty_stream 3 0 true None.


(** Three single chunks of 9 000 000 bytes each, over the limit of
    8 MiB, with one more about to be counted. *)
Definition sample_big_chunk : UndoChunk :=
  mkChunk UNDO_TYPE_SET_FRAME 9000000 "frame" (BodySetFrame 7 3).
Definition sample_big_history : UndoHistory :=
  mkHistory sample_objects
    (mkStream [sample_big_chunk; sample_big_chunk; sample_big_chunk] 27000000)
    empty_stream 2 0 true None.

(** A history with something to redo. *)
Definition sample_redo_history : UndoHistory :=
  mkHistory sample_objects empty_stream (mkStream [sample_close] 16) 0 0 true None.

(** The mapping that exchanges the entries 0 and 1, and a chunk with it. *)
Definition sample_mapping : list Z := 1 :: 0 :: seqZ 2 254.
Definition sample_remap_chunk : UndoChunk :=
  mkChunk UNDO_TYPE_REMAP_PALETTE 16 "remap" (BodyRemapPalette 7 0 1 sample_mapping).

(** A history whose undo stream holds an OPEN that is never closed. *)
Definition sample_unclosed_history : UndoHistory :=
  mkHistory sample_objects (mkStream [sample_open; sample_set_size] 32)
    empty_stream 2 0 true None.

(** A history whose undo stream holds a CLOSE that was never opened. *)
Definition sample_unopened_history : UndoHistory :=
  mkHistory sample_objects (mkStream [sample_set_size; sample_close] 32)
    empty_stream 2 0 true None.

(** Two setter chunks on the undo stream, with the sprite they name
    registered and with no object registered. *)
Definition sample_setter_history : UndoHistory :=
  mkHistory sample_objects (mkStream [sample_set_size; sample_set_frame] 32)
    empty_stream 2 0 true None.
Definition sample_gone_history : UndoHistory :=
  mkHistory ∅ (mkStream [sample_set_size; sample_set_frame] 32)
    empty_stream 2 0 true None.

(** The numbers of the image types, a cel, a palette of two colours, a
    dirty with one column of two pixels and a mask of 9 by 2 bits. *)
Definition sample_imgtype_code (t : ImgType) : Z :=
  match t with IMAGE_RGB => 0 | IMAGE_GRAYSCALE => 1 | IMAGE_INDEXED => 2 end.
Definition sample_imgtype_of_code (code : Z) : ImgType :=
  if code =? 0 then IMAGE_RGB else if code =? 1 then IMAGE_GRAYSCALE else IMAGE_INDEXED.
Definition sample_cel : Cel := mkCel 30 1 0 (-3) 2 255.
Definition sample_palette : Palette := mkPalette 0 [4278190080; 4294967295].
Definition sample_dirty : Dirty :=
  mkDirty IMAGE_INDEXED 0 0 3 1 [mkDirtyRow 0 [mkDirtyCol 1 2 [9; 9]]].
Definition sample_mask : Mask := mkMask 0 0 9 2 (Some [[255; 1]; [255; 1]]).

(** * Properties *)

(** ** Depth and the scanning loops *)

Lemma level_step_delta level c : level_step level c = level + delta c.
Proof.
  unfold delta, level_step.
  destruct (decide (chunk_type c = UNDO_TYPE_OPEN));
    destruct (decide (chunk_type c = UNDO_TYPE_CLOSE)); lia.
Qed.

Lemma depth_nil : depth [] = 0.
Proof. reflexivity. Qed.

Lemma depth_cons c cs : depth (c :: cs) = delta c + depth cs.
Proof.
  unfold depth, delta, level_step. rewrite !filter_cons.
  destruct (decide (chunk_type c = UNDO_TYPE_OPEN)) as [Ho|Ho];
    destruct (decide (chunk_type c = UNDO_TYPE_CLOSE)) as [Hc|Hc];
    try (rewrite Ho in Hc; discriminate); cbn [length]; lia.
Qed.

Lemma depth_app a b : depth (a ++ b) = depth a + depth b.
Proof.
  induction a as [|c a IH]; [rewrite depth_nil; simpl; lia|].
  rewrite <- app_comm_cons, !depth_cons, IH. lia.
Qed.

Lemma depth_reverse cs : depth (reverse cs) = depth cs.
Proof.
  induction cs as [|c cs IH]; [reflexivity|].
  rewrite reverse_cons, depth_app, IH, !depth_cons, depth_nil. lia.
Qed.

Lemma delta_open c : chunk_type c = UNDO_TYPE_OPEN -> delta c = 1.
Proof.
  intros H. unfold delta, level_step. rewrite H. reflexivity.
Qed.

Lemma delta_close c : chunk_type c = UNDO_TYPE_CLOSE -> delta c = -1.
Proof.
  intros H. unfold delta, level_step. rewrite H. reflexivity.
Qed.

Lemma delta_plain c :
  chunk_type c <> UNDO_TYPE_OPEN -> chunk_type c <> UNDO_TYPE_CLOSE -> delta c = 0.
Proof.
  intros Ho Hc. unfold delta, level_step.
  destruct (decide (chunk_type c = UNDO_TYPE_OPEN)); [contradiction|].
  destruct (decide (chunk_type c = UNDO_TYPE_CLOSE)); [contradiction|]. reflexivity.
Qed.

Lemma delta_cases c :
  (chunk_type c = UNDO_TYPE_OPEN /\ delta c = 1) \/
  (chunk_type c = UNDO_TYPE_CLOSE /\ delta c = -1) \/
  (chunk_type c <> UNDO_TYPE_OPEN /\ chunk_type c <> UNDO_TYPE_CLOSE /\ delta c = 0).
Proof.
  destruct (decide (chunk_type c = UNDO_TYPE_OPEN)) as [Ho|Ho];
    [left; split; [assumption | apply delta_open; assumption]|].
  destruct (decide (chunk_type c = UNDO_TYPE_CLOSE)) as [Hc|Hc];
    [right; left; split; [assumption | apply delta_close; assumption]|].
  right; right. repeat split; try assumption. apply delta_plain; assumption.
Qed.

Lemma returns_from_app level a b :
  returns_from level (a ++ b)
  = returns_from level a + returns_from (level + depth a) b.
Proof.
  revert level. induction a as [|c a IH]; intros level.
  - rewrite depth_nil, Z.add_0_r. cbn [app returns_from]. lia.
  - rewrite <- app_comm_cons. cbn [returns_from]. rewrite IH, depth_cons.
    replace (level + delta c + depth a) with (level + (delta c + depth a)) by lia.
    lia.
Qed.

Lemma returns_from_nonneg level cs : 0 <= returns_from level cs.
Proof.
  revert level. induction cs as [|c cs IH]; intros level; cbn [returns_from]; [lia|].
  specialize (IH (level + delta c)).
  destruct (level + delta c =? 0); lia.
Qed.

(** What one run of the inner loop does: it consumes a non-empty prefix,
    stops with the level that prefix adds up to, and stops before the end
    only at level 0. *)
Lemma group_scan_spec rest : forall level c level' it',
  group_scan level c rest = (level', it') ->
  exists consumed,
    c :: rest = consumed ++ it' /\ consumed <> [] /\
    level' = level + depth consumed /\
    (it' <> [] -> level' = 0) /\
    returns_from level (c :: rest)
    = (if level' =? 0 then 1 else 0) + returns_from 0 it'.
Proof.
  induction rest as [|next rest IH]; intros level c level' it' H.
  - cbn in H. injection H as <- <-. exists [c].
    rewrite level_step_delta, depth_cons, depth_nil. cbn [returns_from].
    repeat split; try done. lia.
  - cbn [group_scan] in H. rewrite level_step_delta in H.
    destruct (level + delta c =? 0) eqn:Hz.
    + injection H as <- <-. exists [c].
      rewrite depth_cons, depth_nil. apply Z.eqb_eq in Hz.
      cbn [returns_from]. rewrite Hz. cbn.
      repeat split; try done; lia.
    + apply IH in H as (consumed & Heq & _ & Hl & Hstop & Hret).
      exists (c :: consumed). rewrite <- app_comm_cons, <- Heq, depth_cons.
      repeat split; try done; [lia|].
      change (returns_from level (c :: next :: rest))
        with ((if level + delta c =? 0 then 1 else 0)
              + returns_from (level + delta c) (next :: rest)).
      rewrite Hz, Hret. lia.
Qed.

Lemma count_undo_groups_loop_spec fuel : forall it groups,
  (length it <= fuel)%nat ->
  count_undo_groups_loop fuel it groups = groups + returns_from 0 it.
Proof.
  induction fuel as [|fuel IH]; intros it groups Hlen.
  - destruct it; [cbn; lia | cbn in Hlen; lia].
  - destruct it as [|chunk rest]; [cbn; lia|].
    cbn [count_undo_groups_loop].
    destruct (group_scan 0 chunk rest) as [level it'] eqn:Hscan.
    apply group_scan_spec in Hscan as (consumed & Heq & Hne & _ & _ & Hret).
    rewrite IH, Hret.
    + destruct (level =? 0); lia.
    + apply (f_equal length) in Heq. rewrite length_app in Heq. cbn in Heq, Hlen.
      destruct consumed; [done|]. cbn in Heq. lia.
Qed.

Lemma count_undo_groups_returns s :
  count_undo_groups s = returns_from 0 (chunks s).
Proof.
  unfold count_undo_groups. rewrite count_undo_groups_loop_spec; [lia | lia].
Qed.

Lemma out_of_group_loop_spec fuel : forall it level,
  (length it <= fuel)%nat ->
  out_of_group_loop fuel it level = 0
  <-> match it with [] => level = 0 | _ :: _ => depth it = 0 end.
Proof.
  induction fuel as [|fuel IH]; intros it level Hlen.
  - destruct it; [cbn; tauto | cbn in Hlen; lia].
  - destruct it as [|chunk rest]; [cbn; tauto|].
    cbn [out_of_group_loop].
    destruct (group_scan 0 chunk rest) as [level' it'] eqn:Hscan.
    apply group_scan_spec in Hscan as (consumed & Heq & Hne & Hl & Hstop & _).
    rewrite IH.
    + rewrite Heq, depth_app. destruct it' as [|c' it''].
      * rewrite depth_nil. lia.
      * rewrite Hstop in Hl by done. lia.
    + apply (f_equal length) in Heq. rewrite length_app in Heq. cbn in Heq, Hlen.
      destruct consumed; [done|]. cbn in Heq. lia.
Qed.

(** The one-pass count is the count of the specification: the number of
    non-empty prefixes of depth 0. *)
Lemma depth_returns_from cs : forall pre,
  Z.of_nat (length (filter (fun k => depth (take k (pre ++ cs)) = 0)
                           (seq (S (length pre)) (length cs))))
  = returns_from (depth pre) cs.
Proof.
  induction cs as [|c cs IH]; intros pre; [reflexivity|].
  cbn [length seq returns_from]. rewrite filter_cons.
  specialize (IH (pre ++ [c])).
  rewrite <- app_assoc, length_app, depth_app, depth_cons, depth_nil in IH.
  cbn [app length] in IH.
  replace (length pre + 1)%nat with (S (length pre)) in IH by lia.
  replace (depth pre + (delta c + 0)) with (depth pre + delta c) in IH by lia.
  rewrite <- IH.
  assert (Htake : take (S (length pre)) (pre ++ c :: cs) = pre ++ [c]).
  { rewrite (take_app_ge pre) by lia.
    replace (S (length pre) - length pre)%nat with 1%nat by lia. reflexivity. }
  rewrite Htake, depth_app, depth_cons, depth_nil.
  destruct (decide (depth pre + (delta c + 0) = 0)) as [Hz|Hz].
  - replace (depth pre + delta c =? 0) with true by (symmetry; apply Z.eqb_eq; lia).
    cbn [length]. lia.
  - replace (depth pre + delta c =? 0) with false by (symmetry; apply Z.eqb_neq; lia).
    lia.
Qed.

Lemma depth_returns_spec cs : depth_returns cs = returns_from 0 cs.
Proof. unfold depth_returns. apply (depth_returns_from cs []). Qed.

(** Prefix depths of a sequence with one more chunk in front. *)
Lemma depth_take_cons k c cs :
  depth (take (S k) (c :: cs)) = delta c + depth (take k cs).
Proof. rewrite firstn_cons. apply depth_cons. Qed.

Lemma depth_take_one c cs : depth (take 1 (c :: cs)) = delta c.
Proof. rewrite depth_take_cons, take_0, depth_nil. lia. Qed.

(** A walk that stays above the lowest point of the prefix depths never
    sees 0. *)
Lemma returns_from_above xs : forall base level,
  (forall k : nat, 0 <= base + depth (take k xs)) -> base < level ->
  returns_from level xs = 0.
Proof.
  induction xs as [|x xs IH]; intros base level Hpre Hlt; [reflexivity|].
  cbn [returns_from].
  assert (H1 := Hpre 1%nat). rewrite depth_take_one in H1.
  replace (level + delta x =? 0) with false by (symmetry; apply Z.eqb_neq; lia).
  rewrite (IH (base + delta x) (level + delta x)); [lia | | lia].
  intros k. specialize (Hpre (S k)). rewrite depth_take_cons in Hpre. lia.
Qed.

Lemma returns_from_positive cs level :
  0 < level -> (forall k : nat, 0 <= depth (take k cs)) ->
  returns_from level cs = 0.
Proof.
  intros Hpos Hpre. apply (returns_from_above cs 0); [|lia].
  intros k. specialize (Hpre k). lia.
Qed.

(** ** Top-level entries *)

Lemma depth_take_app k a b :
  depth (take k (a ++ b)) = depth (take k a) + depth (take (k - length a) b).
Proof. rewrite take_app, depth_app. reflexivity. Qed.

Lemma entries_well_formed cs n : entries cs n -> well_formed cs.
Proof.
  induction 1 as [|c cs n Ho Hc _ [IHp IHd]
                  |o inner k cl cs n Ho Hc _ [IHip IHid] _ [IHp IHd]].
  - split; [intros k; rewrite take_nil, depth_nil; lia | apply depth_nil].
  - split.
    + intros [|k]; [rewrite take_0, depth_nil; lia|].
      rewrite depth_take_cons, (delta_plain c Ho Hc). specialize (IHp k). lia.
    + rewrite depth_cons, (delta_plain c Ho Hc). lia.
  - split.
    + intros [|j]; [rewrite take_0, depth_nil; lia|].
      rewrite depth_take_cons, (delta_open o Ho), depth_take_app.
      destruct (j - length inner)%nat as [|i] eqn:Hj.
      * rewrite take_0, depth_nil. specialize (IHip j). lia.
      * rewrite (take_ge inner) by lia.
        rewrite depth_take_cons, (delta_close cl Hc). specialize (IHp i). lia.
    + rewrite depth_cons, depth_app, depth_cons, (delta_open o Ho), (delta_close cl Hc).
      lia.
Qed.

Lemma entries_returns cs n : entries cs n -> returns_from 0 cs = Z.of_nat n.
Proof.
  induction 1 as [|c cs n Ho Hc _ IH|o inner k cl cs n Ho Hc Hin _ _ IH].
  - reflexivity.
  - rewrite Nat2Z.inj_succ. cbn [returns_from]. rewrite (delta_plain c Ho Hc).
    change (0 + 0) with 0. change (0 =? 0) with true. lia.
  - rewrite Nat2Z.inj_succ. cbn [returns_from]. rewrite (delta_open o Ho).
    change (0 + 1) with 1. change (1 =? 0) with false.
    rewrite returns_from_app.
    apply entries_well_formed in Hin as [Hpre Hd].
    rewrite (returns_from_positive inner 1) by (lia || assumption).
    rewrite Hd. cbn [returns_from]. rewrite (delta_close cl Hc).
    change (1 + 0 + -1) with 0. change (0 =? 0) with true. lia.
Qed.

(** Below an OPEN the walk comes back to the level of the OPEN at a
    CLOSE; this cuts the sequence at the first such CLOSE. *)
Lemma first_close cs : forall level,
  1 <= level ->
  (forall k : nat, 0 <= level + depth (take k cs)) ->
  level + depth cs = 0 ->
  exists inner cl rest,
    cs = inner ++ cl :: rest /\ chunk_type cl = UNDO_TYPE_CLOSE /\
    level + depth inner = 1 /\
    (forall k : nat, 1 <= level + depth (take k inner)).
Proof.
  induction cs as [|c cs IH]; intros level Hl Hpre Htot.
  - rewrite depth_nil in Htot. lia.
  - rewrite depth_cons in Htot.
    assert (Hshift : forall k : nat, 0 <= level + delta c + depth (take k cs)).
    { intros k. specialize (Hpre (S k)). rewrite depth_take_cons in Hpre. lia. }
    destruct (decide (chunk_type c = UNDO_TYPE_CLOSE /\ level = 1)) as [[Hc H1]|Hno].
    + exists [], c, cs. repeat split; try done.
      * rewrite depth_nil. lia.
      * intros k. rewrite take_nil, depth_nil. lia.
    + assert (Hl' : 1 <= level + delta c).
      { destruct (delta_cases c) as [[_ Hd]|[[Hc Hd]|(_ & _ & Hd)]]; try lia.
        destruct (decide (level = 1)); [exfalso; apply Hno; done | lia]. }
      destruct (IH (level + delta c) Hl' Hshift) as (inner & cl & rest & -> & Hc & Hd & Hin);
        [lia|].
      exists (c :: inner), cl, rest. repeat split; try done.
      * rewrite depth_cons. lia.
      * intros [|k]; [rewrite take_0, depth_nil; lia|].
        rewrite depth_take_cons. specialize (Hin k). lia.
Qed.

Lemma well_formed_entries_aux n : forall cs,
  (length cs <= n)%nat -> well_formed cs -> exists m, entries cs m.
Proof.
  induction n as [|n IH]; intros cs Hlen [Hpre Htot].
  - destruct cs; [exists 0%nat; constructor | cbn in Hlen; lia].
  - destruct cs as [|c cs]; [exists 0%nat; constructor|].
    cbn in Hlen.
    assert (H1 := Hpre 1%nat). rewrite depth_take_one in H1.
    rewrite depth_cons in Htot.
    destruct (delta_cases c) as [[Ho Hd]|[[Hc Hd]|(Ho & Hc & Hd)]]; [| lia |].
    + destruct (first_close cs 1) as (inner & cl & rest & -> & Hcl & Hdi & Hin);
        [lia | | lia |].
      { intros k. specialize (Hpre (S k)). rewrite depth_take_cons in Hpre. lia. }
      rewrite length_app in Hlen. cbn in Hlen.
      rewrite depth_app, depth_cons, (delta_close cl Hcl) in Htot.
      destruct (IH inner) as [ki Hki]; [lia | |].
      { split; [intros k; specialize (Hin k); lia | lia]. }
      destruct (IH rest) as [kr Hkr]; [lia | |].
      { split; [|lia]. intros k.
        specialize (Hpre (S (length inner + S k))).
        rewrite depth_take_cons, depth_take_app in Hpre.
        rewrite (take_ge inner) in Hpre by lia.
        replace (length inner + S k - length inner)%nat with (S k) in Hpre by lia.
        rewrite depth_take_cons, (delta_close cl Hcl) in Hpre. lia. }
      exists (S kr). apply entries_group with (k := ki); assumption.
    + destruct (IH cs) as [m Hm]; [lia | |].
      { split; [|lia]. intros k. specialize (Hpre (S k)).
        rewrite depth_take_cons in Hpre. lia. }
      exists (S m). apply entries_single; assumption.
Qed.

Lemma well_formed_entries cs : well_formed cs -> exists m, entries cs m.
Proof. apply (well_formed_entries_aux (length cs)). lia. Qed.

(** C5. On a well-formed stream (running depth never negative, zero at
    the end) [count_undo_groups] returns the number of times the running
    depth is back at 0 walking head to tail, and the stream splits into
    top-level entries (single chunks and OPEN ... CLOSE groups) whose
    number is that count. *)
Theorem count_undo_groups_well_formed (s : UndoStream) :
  well_formed (chunks s) ->
  count_undo_groups s = depth_returns (chunks s) /\
  (exists n, entries (chunks s) n) /\
  (forall n, entries (chunks s) n -> count_undo_groups s = Z.of_nat n).
Proof.
  intros Hwf. rewrite count_undo_groups_returns, depth_returns_spec.
  split; [reflexivity|]. split; [apply well_formed_entries; assumption|].
  intros n Hn. apply entries_returns. assumption.
Qed.

Lemma out_of_group_depth (s : UndoStream) :
  out_of_group s = true <-> depth (chunks s) = 0.
Proof.
  unfold out_of_group. rewrite Z.eqb_eq, out_of_group_loop_spec by lia.
  destruct (chunks s); [rewrite depth_nil; tauto | tauto].
Qed.

(** C6. [out_of_group] answers true exactly when the number of OPEN
    chunks minus the number of CLOSE chunks of the whole stream is zero,
    whatever the stream. *)
Theorem out_of_group_iff_depth_zero (s : UndoStream) :
  out_of_group s = true <-> depth (chunks s) = 0.
Proof. exact (out_of_group_depth s). Qed.

Lemma count_undo_groups_well_formed_witness :
  well_formed (chunks sample_stream) /\
  count_undo_groups sample_stream = 2 /\
  depth_returns (chunks sample_stream) = 2.
Proof.
  assert (Hwf : well_formed (chunks sample_stream)).
  { apply (entries_well_formed _ 2). cbn [chunks sample_stream].
    apply entries_single; [discriminate | discriminate |].
    apply (entries_group sample_open [sample_set_size] 1 sample_close [] 0);
      [reflexivity | reflexivity | | constructor].
    apply entries_single; [discriminate | discriminate | constructor]. }
  split; [exact Hwf|].
  destruct (count_undo_groups_well_formed sample_stream Hwf) as (Hret & _ & _).
  split; [reflexivity|]. rewrite <- Hret. reflexivity.
Defined.

(** ** The tail group *)

Lemma popChunk_tail_nil s : chunks s = [] -> popChunk true s = None.
Proof. intros H. unfold popChunk. rewrite H. reflexivity. Qed.

Lemma popChunk_tail_snoc s init c :
  chunks s = init ++ [c] ->
  popChunk true s = Some (c, mkStream init (memSize s - chunk_size c)).
Proof.
  intros H. unfold popChunk. rewrite H, reverse_snoc, reverse_involutive. reflexivity.
Qed.

(** What [discardTail] removes: a suffix [gone] of the stream none of
    whose proper suffixes brings the level back to 0; it stops because
    [gone] does, or because the stream is used up. *)
Lemma discardTail_loop_spec fuel : forall level s,
  (length (chunks s) <= fuel)%nat ->
  exists gone,
    chunks s = chunks (discardTail_loop fuel level s) ++ gone /\
    (forall j : nat, (0 < j < length gone)%nat -> level + depth (drop j gone) <> 0) /\
    ((gone <> [] /\ level + depth gone = 0) \/
     (chunks (discardTail_loop fuel level s) = [] /\
      (gone <> [] -> level + depth gone <> 0))).
Proof.
  induction fuel as [|fuel IH]; intros level s Hlen.
  - exists []. cbn [discardTail_loop]. rewrite app_nil_r.
    split; [reflexivity|]. split; [cbn; lia|].
    right. split; [|done]. destruct (chunks s); [reflexivity | cbn in Hlen; lia].
  - cbn [discardTail_loop].
    destruct (chunks s) as [|c0 cs0] eqn:Hcs using rev_ind.
    + rewrite (popChunk_tail_nil s Hcs). exists []. rewrite Hcs.
      split; [reflexivity|]. split; [cbn; lia|]. right. done.
    + clear IHcs0. rename c0 into c, cs0 into init.
      rewrite (popChunk_tail_snoc s init c Hcs). rewrite level_step_delta.
      destruct (level + delta c =? 0) eqn:Hz.
      * apply Z.eqb_eq in Hz. exists [c]. cbn [chunks].
        split; [reflexivity|]. split; [cbn; lia|].
        left. split; [done|]. rewrite depth_cons, depth_nil. lia.
      * apply Z.eqb_neq in Hz.
        rewrite length_app in Hlen. cbn in Hlen.
        destruct (IH (level + delta c) (mkStream init (memSize s - chunk_size c)))
          as (gone & Heq & Hmin & Hstop); [cbn; lia|].
        cbn [chunks] in Heq.
        exists (gone ++ [c]). split; [|split].
        -- rewrite app_assoc, <- Heq. reflexivity.
        -- intros j Hj. rewrite length_app in Hj. cbn in Hj.
           destruct (decide (j < length gone)%nat) as [Hlt|Hge].
           ++ rewrite drop_app_le by lia. rewrite depth_app, depth_cons, depth_nil.
              specialize (Hmin j ltac:(lia)). lia.
           ++ rewrite drop_app_ge by lia.
              replace (j - length gone)%nat with 0%nat by lia.
              rewrite drop_0, depth_cons, depth_nil. lia.
        -- rewrite depth_app, depth_cons, depth_nil.
           destruct Hstop as [[Hne Hd]|[Hnil Hd]].
           ++ left. split; [destruct gone; done | lia].
           ++ right. split; [assumption|]. intros _.
              destruct gone as [|g gone']; [rewrite depth_nil; lia|].
              specialize (Hd ltac:(done)). lia.
Qed.

(** A sequence that comes back to the start level only at its end counts
    once. *)
Lemma returns_from_one g : forall level,
  g <> [] ->
  (forall k : nat, (0 < k < length g)%nat -> level + depth (take k g) <> 0) ->
  level + depth g = 0 ->
  returns_from level g = 1.
Proof.
  induction g as [|c g IH]; intros level Hne Hmin Htot; [done|].
  cbn [returns_from]. rewrite depth_cons in Htot.
  destruct g as [|c' g'].
  - rewrite depth_nil in Htot.
    replace (level + delta c =? 0) with true by (symmetry; apply Z.eqb_eq; lia).
    reflexivity.
  - assert (H1 := Hmin 1%nat ltac:(cbn; lia)). rewrite depth_take_one in H1.
    replace (level + delta c =? 0) with false by (symmetry; apply Z.eqb_neq; lia).
    rewrite IH; [lia | done | | lia].
    intros k Hk. specialize (Hmin (S k) ltac:(cbn in *; lia)).
    rewrite depth_take_cons in Hmin. lia.
Qed.

(** On a stream of total depth 0 the tail group is the last group that
    [count_undo_groups] counts. *)
Lemma discardTail_one_group s :
  chunks s <> [] -> depth (chunks s) = 0 ->
  exists gone,
    chunks s = chunks (discardTail_loop (length (chunks s)) 0 s) ++ gone /\
    gone <> [] /\ depth gone = 0 /\ returns_from 0 gone = 1 /\
    depth (chunks (discardTail_loop (length (chunks s)) 0 s)) = 0 /\
    returns_from 0 (chunks s)
    = returns_from 0 (chunks (discardTail_loop (length (chunks s)) 0 s)) + 1.
Proof.
  intros Hne Hd.
  destruct (discardTail_loop_spec (length (chunks s)) 0 s) as (gone & Heq & Hmin & Hstop);
    [lia|].
  set (kept := chunks (discardTail_loop (length (chunks s)) 0 s)) in *.
  assert (Hgone : gone <> [] /\ depth gone = 0).
  { destruct Hstop as [[Hg Hz]|[Hnil Hz]]; [split; [assumption | lia]|].
    rewrite Hnil in Heq. cbn [app] in Heq. rewrite <- Heq in Hz.
    specialize (Hz Hne). lia. }
  destruct Hgone as [Hg Hz].
  assert (Hk : depth kept = 0).
  { rewrite Heq, depth_app in Hd. lia. }
  assert (H1 : returns_from 0 gone = 1).
  { apply returns_from_one; [assumption | | lia].
    intros k Hk'. specialize (Hmin k Hk').
    rewrite <- (take_drop k gone), depth_app in Hz. lia. }
  exists gone. repeat split; try assumption.
  rewrite Heq at 1. rewrite returns_from_app, Hk, Z.add_0_l, H1. lia.
Qed.

Section EngineProperties.

Context {collab : Collaborators}.

(** ** Budget enforcement *)

Lemma same_frame_refl u : same_frame u u.
Proof. repeat split. Qed.

Lemma same_frame_trans u1 u2 u3 :
  same_frame u1 u2 -> same_frame u2 u3 -> same_frame u1 u3.
Proof.
  intros (A1 & A2 & A3 & A4 & A5 & A6) (B1 & B2 & B3 & B4 & B5 & B6).
  repeat split; congruence.
Qed.

Lemma discardTail_frame u : same_frame u (discardTail u).
Proof. repeat split. Qed.

Lemma updateUndo_loop_spec fuel : forall groups u,
  (Z.to_nat groups <= fuel)%nat ->
  depth (chunks (m_undoStream u)) = 0 ->
  groups = returns_from 0 (chunks (m_undoStream u)) ->
  let u' := updateUndo_loop fuel groups u in
  (returns_from 0 (chunks (m_undoStream u')) <= 1 \/
   getMemSize (m_undoStream u') <= undo_size_limit) /\
  same_frame u u' /\
  exists evicted,
    chunks (m_undoStream u) = chunks (m_undoStream u') ++ evicted /\
    depth evicted = 0 /\
    returns_from 0 (chunks (m_undoStream u))
    = returns_from 0 (chunks (m_undoStream u')) + returns_from 0 evicted.
Proof.
  induction fuel as [|fuel IH]; intros groups u Hfuel Hd Hg; cbn zeta.
  - cbn [updateUndo_loop]. split; [left; lia|]. split; [apply same_frame_refl|].
    exists []. rewrite app_nil_r. cbn [returns_from]. repeat split; lia.
  - cbn [updateUndo_loop].
    destruct ((1 <? groups) && (undo_size_limit <? getMemSize (m_undoStream u))) eqn:Hc.
    + apply andb_true_iff in Hc as [Hgt _]. apply Z.ltb_lt in Hgt.
      assert (Hne : chunks (m_undoStream u) <> []).
      { intros Hnil. rewrite Hnil in Hg. cbn in Hg. lia. }
      destruct (discardTail_one_group (m_undoStream u) Hne Hd)
        as (gone & Heq & Hgne & Hgd & Hg1 & Hkd & Hcount).
      specialize (IH (groups - 1) (discardTail u)).
      cbn zeta in IH.
      assert (Hu : m_undoStream (discardTail u)
                   = discardTail_loop (length (chunks (m_undoStream u))) 0 (m_undoStream u))
        by reflexivity.
      destruct IH as (Hpost & Hframe & evicted & Hev & Hevd & Hevc);
        [lia | rewrite Hu; assumption | rewrite Hu; lia |].
      rewrite Hu in Hev, Hevc.
      split; [exact Hpost|]. split.
      { eapply same_frame_trans; [apply (discardTail_frame u) | exact Hframe]. }
      exists (evicted ++ gone). split; [|split].
      * rewrite Heq at 1. rewrite Hev, app_assoc. reflexivity.
      * rewrite depth_app. lia.
      * rewrite Hcount, Hevc, returns_from_app, Hevd, Z.add_0_l, Hg1. lia.
    + split.
      * apply andb_false_iff in Hc as [Hc|Hc];
          [apply Z.ltb_ge in Hc; left; lia | apply Z.ltb_ge in Hc; right; lia].
      * split; [apply same_frame_refl|].
        exists []. rewrite app_nil_r. cbn [returns_from]. repeat split; lia.
Qed.

Lemma clearRedo_undoStream u : m_undoStream (clearRedo u) = m_undoStream u.
Proof. unfold clearRedo. destruct (negb (empty (m_redoStream u))); reflexivity. Qed.

Lemma clearRedo_empty u : chunks (m_redoStream (clearRedo u)) = [].
Proof.
  unfold clearRedo, empty.
  destruct (chunks (m_redoStream u)) eqn:H; cbn; [assumption | reflexivity].
Qed.

Lemma clearRedo_fields u :
  m_objects (clearRedo u) = m_objects u /\ m_diffCount (clearRedo u) = m_diffCount u /\
  m_diffSaved (clearRedo u) = m_diffSaved u /\ m_label (clearRedo u) = m_label u.
Proof. unfold clearRedo. destruct (negb (empty (m_redoStream u))); repeat split. Qed.

(** What [updateUndo] does to the history: the counter goes up by one,
    the redo stream is emptied, a suffix of the undo stream may go, and
    nothing else changes. *)
Lemma updateUndo_spec u :
  m_diffCount (updateUndo u) = m_diffCount u + 1 /\
  m_diffSaved (updateUndo u) = m_diffSaved u /\
  m_objects (updateUndo u) = m_objects u /\
  m_label (updateUndo u) = m_label u /\
  chunks (m_redoStream (updateUndo u)) = [] /\
  exists evicted,
    chunks (m_undoStream u) = chunks (m_undoStream (updateUndo u)) ++ evicted /\
    depth evicted = 0 /\
    returns_from 0 (chunks (m_undoStream u))
    = returns_from 0 (chunks (m_undoStream (updateUndo u))) + returns_from 0 evicted /\
    (depth (chunks (m_undoStream u)) = 0 ->
     returns_from 0 (chunks (m_undoStream (updateUndo u))) <= 1 \/
     getMemSize (m_undoStream (updateUndo u)) <= undo_size_limit).
Proof.
  unfold updateUndo.
  set (u1 := set_diffCount (m_diffCount u + 1) u).
  assert (Hundo : m_undoStream (clearRedo u1) = m_undoStream u)
    by (rewrite clearRedo_undoStream; reflexivity).
  destruct (clearRedo_fields u1) as (Ho & Hc & Hs & Hl).
  assert (Hredo := clearRedo_empty u1).
  destruct (out_of_group (m_undoStream (clearRedo u1))) eqn:Hout.
  - apply out_of_group_depth in Hout.
    destruct (updateUndo_loop_spec
                (Z.to_nat (count_undo_groups (m_undoStream (clearRedo u1))))
                (count_undo_groups (m_undoStream (clearRedo u1)))
                (clearRedo u1))
      as (Hpost & (F1 & F2 & F3 & F4 & F5 & F6) & evicted & Hev & Hevd & Hevc);
      [lia | assumption | apply count_undo_groups_returns |].
    rewrite F1, F2, F3, F4, F6, Ho, Hc, Hs, Hl, Hredo.
    repeat split; try reflexivity.
    exists evicted. rewrite <- Hundo. repeat split; try assumption.
    intros _. exact Hpost.
  - rewrite Ho, Hc, Hs, Hl, Hredo, Hundo. repeat split; try reflexivity.
    exists []. rewrite app_nil_r. cbn [returns_from]. repeat split; try lia.
    intros Hd. exfalso.
    assert (Ht : out_of_group (m_undoStream (clearRedo u1)) = true)
      by (apply out_of_group_depth; rewrite Hundo; exact Hd).
    congruence.
Qed.



(** ** Encoders and inverters only push *)

Lemma pushes_nil stream u : pushes stream u u [].
Proof. unfold pushes. rewrite app_nil_r. repeat split. Qed.

Lemma undo_chunk_new_pushes stream type size body u :
  exists c, chunk_type c = type /\ chunk_body c = body /\
            chunk_label c = default_label type u /\
            pushes stream u (undo_chunk_new stream type size body u) [c] /\
            m_objects (undo_chunk_new stream type size body u) = m_objects u.
Proof.
  eexists (mkChunk type size _ body).
  unfold pushes, undo_chunk_new. destruct stream; cbn; repeat split; reflexivity.
Qed.

Lemma pushes_set_objects stream u u1 new objects :
  pushes stream u u1 new -> pushes stream u (set_objects objects u1) new.
Proof. unfold pushes. destruct stream; cbn; tauto. Qed.

Lemma encoder_result_new stream type size body u :
  encoder_result type stream u (Ok (undo_chunk_new stream type size body u)).
Proof.
  destruct (undo_chunk_new_pushes stream type size body u) as (c & Ht & _ & Hl & Hp & Ho).
  exists c. split; [exact Ht|]. split; [exact Hl|]. split; [exact Hp | exact Ho].
Qed.

Ltac encoder_cases :=
  repeat match goal with
         | |- encoder_result _ _ _ (Ok (undo_chunk_new _ _ _ _ _)) =>
             apply encoder_result_new
         | |- encoder_result _ _ _ Violation => exact I
         | |- encoder_result _ _ _ (match ?x with _ => _ end) => destruct x
         | |- encoder_result _ _ _ (if ?x then _ else _) => destruct x
         end.

Lemma chunk_open_new_result stream u :
  encoder_result UNDO_TYPE_OPEN stream u (chunk_open_new stream u).
Proof. unfold chunk_open_new. encoder_cases. Qed.

Lemma chunk_close_new_result stream u :
  encoder_result UNDO_TYPE_CLOSE stream u (chunk_close_new stream u).
Proof. unfold chunk_close_new. encoder_cases. Qed.

Lemma chunk_image_new_result stream image x y w h u :
  encoder_result UNDO_TYPE_IMAGE stream u (chunk_image_new stream image x y w h u).
Proof. unfold chunk_image_new. encoder_cases. Qed.

Lemma chunk_remap_palette_new_result stream sprite ff ft mapping u :
  encoder_result UNDO_TYPE_REMAP_PALETTE stream u
    (chunk_remap_palette_new stream sprite ff ft mapping u).
Proof. unfold chunk_remap_palette_new. encoder_cases. Qed.

Lemma chunk_set_imgtype_new_result stream sprite u :
  encoder_result UNDO_TYPE_SET_IMGTYPE stream u (chunk_set_imgtype_new stream sprite u).
Proof. unfold chunk_set_imgtype_new. encoder_cases. Qed.

Lemma chunk_set_size_new_result stream sprite u :
  encoder_result UNDO_TYPE_SET_SIZE stream u (chunk_set_size_new stream sprite u).
Proof. unfold chunk_set_size_new. encoder_cases. Qed.

Lemma chunk_set_frame_new_result stream sprite u :
  encoder_result UNDO_TYPE_SET_FRAME stream u (chunk_set_frame_new stream sprite u).
Proof. unfold chunk_set_frame_new. encoder_cases. Qed.

Lemma chunk_set_frames_new_result stream sprite u :
  encoder_result UNDO_TYPE_SET_FRAMES stream u (chunk_set_frames_new stream sprite u).
Proof. unfold chunk_set_frames_new. encoder_cases. Qed.

Lemma chunk_foreign_new_result stream type args u :
  encoder_result type stream u (chunk_foreign_new stream type args u).
Proof. unfold chunk_foreign_new. encoder_cases. Qed.

Lemma inverter_result_skip type stream u :
  type <> UNDO_TYPE_OPEN -> type <> UNDO_TYPE_CLOSE ->
  inverter_result type stream u (Ok u).
Proof.
  intros Ho Hc. exists []. split; [apply pushes_nil|]. split; [cbn; lia|].
  split; [constructor|]. intros [H|H]; contradiction.
Qed.

Lemma inverter_result_encoder type stream u o objects :
  encoder_result (inverse_type type) stream u o ->
  inverter_result type stream u (o >>= fun u1 => Ok (set_objects (objects u1) u1)).
Proof.
  destruct o as [u1|msg u1|]; cbn; [|done|done].
  intros (c & Ht & Hl & Hp & _). exists [c].
  split; [apply pushes_set_objects; assumption|]. split; [cbn; lia|].
  split; [repeat constructor; assumption | reflexivity].
Qed.

Lemma inverter_result_plain type stream u o :
  encoder_result (inverse_type type) stream u o -> inverter_result type stream u o.
Proof.
  destruct o as [u1|msg u1|]; cbn; [|done|done].
  intros (c & Ht & Hl & Hp & _). exists [c].
  split; [assumption|]. split; [cbn; lia|].
  split; [repeat constructor; assumption | reflexivity].
Qed.

Lemma chunk_foreign_invert_result stream chunk u :
  chunk_type chunk <> UNDO_TYPE_OPEN -> chunk_type chunk <> UNDO_TYPE_CLOSE ->
  inverter_result (chunk_type chunk) stream u (chunk_foreign_invert stream chunk u).
Proof.
  intros Hno Hnc. unfold chunk_foreign_invert.
  destruct (foreign_invert chunk (m_objects u)) as [tail body objects'| | |];
    [|apply inverter_result_skip; assumption|reflexivity|exact I].
  destruct (undo_chunk_new_pushes stream (inverse_type (chunk_type chunk))
              (sizeof_chunk (inverse_type (chunk_type chunk)) + tail) body u)
    as (c & Ht & _ & Hl & Hp & _).
  exists [c]. split; [apply pushes_set_objects; assumption|]. split; [cbn; lia|].
  split; [repeat constructor; assumption | reflexivity].
Qed.

Lemma undo_actions_invert_result stream chunk u :
  inverter_result (chunk_type chunk) stream u
    (undo_actions_invert (chunk_type chunk) stream chunk u).
Proof.
  assert (Hforeign := chunk_foreign_invert_result stream chunk u).
  assert (Hskip := inverter_result_skip (chunk_type chunk) stream u).
  destruct (chunk_type chunk) eqn:Htype; cbn [undo_actions_invert];
    try (apply Hforeign; discriminate).
  - apply inverter_result_plain, chunk_close_new_result.
  - apply inverter_result_plain, chunk_open_new_result.
  - unfold chunk_image_invert.
    destruct (chunk_body chunk); try exact I.
    destruct (getObjectT_Image (m_objects u) image_id); [|exact I].
    destruct (decide (image_imgtype i <> imgtype)); [reflexivity|].
    apply (inverter_result_encoder UNDO_TYPE_IMAGE stream u _
             (fun u1 => <[image_id:=ObjImage (restore_rect i x y w h data)]> (m_objects u1))).
    apply chunk_image_new_result.
  - unfold chunk_remap_palette_invert.
    destruct (chunk_body chunk); try exact I.
    destruct (getObjectT_Sprite (m_objects u) sprite_id); [|exact I].
    apply (inverter_result_encoder UNDO_TYPE_REMAP_PALETTE stream u _
             (fun u1 => remapImages sprite_id frame_from frame_to
                          (inverse_mapping mapping) (m_objects u1))).
    apply chunk_remap_palette_new_result.
  - unfold chunk_set_imgtype_invert.
    destruct (chunk_body chunk); try exact I.
    destruct (getObjectT_Sprite (m_objects u) sprite_id); [|apply Hskip; discriminate].
    apply (inverter_result_encoder UNDO_TYPE_SET_IMGTYPE stream u _
             (fun u1 => <[sprite_id:=ObjSprite (setImgType imgtype s)]> (m_objects u1))).
    apply chunk_set_imgtype_new_result.
  - unfold chunk_set_size_invert.
    destruct (chunk_body chunk); try exact I.
    destruct (getObjectT_Sprite (m_objects u) sprite_id); [|apply Hskip; discriminate].
    apply (inverter_result_encoder UNDO_TYPE_SET_SIZE stream u _
             (fun u1 => <[sprite_id:=ObjSprite (setSize width height s)]> (m_objects u1))).
    apply chunk_set_size_new_result.
  - unfold chunk_set_frame_invert.
    destruct (chunk_body chunk); try exact I.
    destruct (getObjectT_Sprite (m_objects u) sprite_id); [|apply Hskip; discriminate].
    apply (inverter_result_encoder UNDO_TYPE_SET_FRAME stream u _
             (fun u1 => <[sprite_id:=ObjSprite (setCurrentFrame frame s)]> (m_objects u1))).
    apply chunk_set_frame_new_result.
  - unfold chunk_set_frames_invert.
    destruct (chunk_body chunk); try exact I.
    destruct (getObjectT_Sprite (m_objects u) sprite_id); [|apply Hskip; discriminate].
    apply (inverter_result_encoder UNDO_TYPE_SET_FRAMES stream u _
             (fun u1 => <[sprite_id:=ObjSprite (setTotalFrames frames s)]> (m_objects u1))).
    apply chunk_set_frames_new_result.
Qed.

(** ** The replay loop *)

Lemma other_target_source state : other_stream (target_of state) = source_of state.
Proof. destruct state; reflexivity. Qed.

Lemma popChunk_head_nil s : chunks s = [] -> popChunk false s = None.
Proof. intros H. unfold popChunk. rewrite H. reflexivity. Qed.

Lemma popChunk_head_cons s c rest :
  chunks s = c :: rest ->
  popChunk false s = Some (c, mkStream rest (memSize s - chunk_size c)).
Proof. intros H. unfold popChunk. rewrite H. reflexivity. Qed.

Lemma get_set_stream r s u : get_stream r (set_stream r s u) = s.
Proof. destruct r; reflexivity. Qed.

Lemma get_set_other_stream r s u :
  get_stream (other_stream r) (set_stream r s u) = get_stream (other_stream r) u.
Proof. destruct r; reflexivity. Qed.

Lemma get_target_set_source state s u :
  get_stream (target_of state) (set_stream (source_of state) s u)
  = get_stream (target_of state) u.
Proof. destruct state; reflexivity. Qed.

(** One turn: the level moves by the chunk, the source stream and
    [diffSaved] stay, the target stream gets what the inverter leaves,
    the counter moves by one.  A throw leaves all of them as they were. *)
Lemma runUndo_turn_result state level chunk u :
  match runUndo_turn state level chunk u with
  | Ok (level', u') =>
      level' = level + delta chunk /\
      get_stream (source_of state) u' = get_stream (source_of state) u /\
      m_diffCount u' = m_diffCount u + diff_step state /\
      m_diffSaved u' = m_diffSaved u /\
      exists new, chunks (get_stream (target_of state) u')
                  = chunks (get_stream (target_of state) u) ++ new /\
                  inverse_of chunk new
  | Raised _ (level', u') =>
      level' = level /\ u' = setLabel (Some (chunk_label chunk)) u
  | Violation => True
  end.
Proof.
  unfold runUndo_turn.
  assert (H := undo_actions_invert_result (target_of state) chunk
                 (setLabel (Some (chunk_label chunk)) u)).
  destruct (undo_actions_invert (chunk_type chunk) (target_of state) chunk
              (setLabel (Some (chunk_label chunk)) u)) as [u1|msg u1|]; cbn in H.
  - destruct H as (new & (Hc & Ho & Hd & Hs & _) & Hlen & Hall & Hone).
    rewrite other_target_source in Ho.
    split; [apply level_step_delta|].
    split; [destruct state; exact Ho|].
    split; [destruct state; cbn in *; lia|].
    split; [destruct state; exact Hs|].
    exists new. split; [destruct state; exact Hc|].
    split; [exact Hlen|]. split; [exact Hall | exact Hone].
  - split; [reflexivity | exact H].
  - exact I.
Qed.

(** The level handed to a turn only shifts the level it returns. *)
Lemma runUndo_turn_level state level chunk u :
  runUndo_turn state level chunk u
  = match runUndo_turn state 0 chunk u with
    | Ok (_, u') => Ok (level + delta chunk, u')
    | Raised msg (_, u') => Raised msg (level, u')
    | Violation => Violation
    end.
Proof.
  unfold runUndo_turn.
  destruct (undo_actions_invert (chunk_type chunk) (target_of state) chunk
              (setLabel (Some (chunk_label chunk)) u)); try reflexivity.
  rewrite level_step_delta. reflexivity.
Qed.

(** On a stream that starts with a complete entry [g] the loop of
    [runUndo] is [length g] turns. *)
Lemma runUndo_loop_replay state g : forall fuel level u rest,
  chunks (get_stream (source_of state) u) = g ++ rest ->
  g <> [] ->
  (forall k : nat, (0 < k < length g)%nat -> level + depth (take k g) <> 0) ->
  level + depth g = 0 ->
  (length g <= fuel)%nat ->
  runUndo_loop fuel state level u = replay state (length g) u.
Proof.
  induction g as [|c g IH]; intros fuel level u rest Hsrc Hne Hmin Htot Hfuel; [done|].
  destruct fuel as [|fuel]; [cbn in Hfuel; lia|].
  cbn [length runUndo_loop replay].
  rewrite (popChunk_head_cons _ c (g ++ rest)) by exact Hsrc.
  set (u0 := set_stream (source_of state)
               (mkStream (g ++ rest)
                  (memSize (get_stream (source_of state) u) - chunk_size c)) u).
  rewrite (runUndo_turn_level state level c u0).
  assert (Hturn := runUndo_turn_result state 0 c u0).
  destruct (runUndo_turn state 0 c u0) as [[l' u']|msg [l' u']|]; try reflexivity.
  destruct Hturn as (_ & Hs & _).
  rewrite depth_cons in Htot.
  destruct g as [|c' g'].
  - rewrite depth_nil in Htot.
    replace (level + delta c =? 0) with true by (symmetry; apply Z.eqb_eq; lia).
    reflexivity.
  - assert (H1 := Hmin 1%nat ltac:(cbn; lia)). rewrite depth_take_one in H1.
    replace (level + delta c =? 0) with false by (symmetry; apply Z.eqb_neq; lia).
    apply (IH fuel (level + delta c) u' rest).
    + rewrite Hs. unfold u0. rewrite get_set_stream. reflexivity.
    + done.
    + intros k Hk. specialize (Hmin (S k) ltac:(cbn in *; lia)).
      rewrite depth_take_cons in Hmin. lia.
    + lia.
    + cbn in *. lia.
Qed.

(** What [n] turns do to the history. *)
Lemma replay_result state n : forall u,
  (n <= length (chunks (get_stream (source_of state) u)))%nat ->
  match replay state n u with
  | Ok u' =>
      chunks (get_stream (source_of state) u')
      = drop n (chunks (get_stream (source_of state) u)) /\
      m_diffCount u' = m_diffCount u + diff_step state * Z.of_nat n /\
      m_diffSaved u' = m_diffSaved u /\
      exists news,
        chunks (get_stream (target_of state) u')
        = chunks (get_stream (target_of state) u) ++ concat news /\
        Forall2 inverse_of (take n (chunks (get_stream (source_of state) u))) news
  | Raised _ u' =>
      exists (k : nat) news,
        (k < n)%nat /\
        chunks (get_stream (source_of state) u')
        = drop (S k) (chunks (get_stream (source_of state) u)) /\
        m_diffCount u' = m_diffCount u + diff_step state * Z.of_nat k /\
        chunks (get_stream (target_of state) u')
        = chunks (get_stream (target_of state) u) ++ concat news /\
        Forall2 inverse_of (take k (chunks (get_stream (source_of state) u))) news
  | Violation => True
  end.
Proof.
  induction n as [|n IH]; intros u Hlen.
  - cbn [replay]. rewrite drop_0, take_0. repeat split; try lia.
    exists []. cbn [concat]. rewrite app_nil_r. split; [reflexivity | constructor].
  - cbn [replay].
    destruct (chunks (get_stream (source_of state) u)) as [|c rest] eqn:Hsrc;
      [cbn in Hlen; lia|].
    rewrite (popChunk_head_cons _ c rest) by exact Hsrc.
    set (u0 := set_stream (source_of state)
                 (mkStream rest (memSize (get_stream (source_of state) u) - chunk_size c)) u).
    assert (Hturn := runUndo_turn_result state 0 c u0).
    assert (Hsrc0 : chunks (get_stream (source_of state) u0) = rest)
      by (unfold u0; rewrite get_set_stream; reflexivity).
    assert (Htgt0 : get_stream (target_of state) u0 = get_stream (target_of state) u)
      by (unfold u0; apply get_target_set_source).
    assert (Hcnt0 : m_diffCount u0 = m_diffCount u /\ m_diffSaved u0 = m_diffSaved u)
      by (unfold u0; destruct state; split; reflexivity).
    destruct Hcnt0 as [Hd0 Hs0].
    destruct (runUndo_turn state 0 c u0) as [[l' u1]|msg [l' u1]|]; [| |exact I].
    + destruct Hturn as (_ & Hs & Hd & Hv & new & Hnew & Hinv1).
      specialize (IH u1). rewrite Hs, Hsrc0 in IH. cbn in Hlen.
      specialize (IH ltac:(lia)).
      destruct (replay state n u1) as [u'|msg u'|]; [| |exact I].
      * destruct IH as (Hr & Hdc & Hsv & news & Hinv & Hall).
        cbn [drop]. split; [exact Hr|]. split; [lia|]. split; [congruence|].
        exists (new :: news). split.
        -- cbn [concat]. rewrite Hinv, Hnew, Htgt0, app_assoc. reflexivity.
        -- rewrite firstn_cons. constructor; assumption.
      * destruct IH as (k & news & Hk & Hr & Hdc & Hinv & Hall).
        exists (S k), (new :: news). split; [lia|]. split; [exact Hr|]. split; [lia|].
        split.
        -- cbn [concat]. rewrite Hinv, Hnew, Htgt0, app_assoc. reflexivity.
        -- rewrite firstn_cons. constructor; assumption.
    + destruct Hturn as [_ ->].
      exists 0%nat, []. split; [lia|]. split.
      * change (get_stream (source_of state) (setLabel (Some (chunk_label c)) u0))
          with (get_stream (source_of state) u0).
        rewrite Hsrc0. reflexivity.
      * split; [cbn; lia|].
        change (get_stream (target_of state) (setLabel (Some (chunk_label c)) u0))
          with (get_stream (target_of state) u0).
        rewrite Htgt0, take_0. cbn [concat]. rewrite app_nil_r.
        split; [reflexivity | constructor].
Qed.

Lemma first_entry_single c : plain c -> first_entry [c].
Proof.
  intros [Ho Hc]. split; [done|]. split.
  - rewrite depth_cons, depth_nil, (delta_plain c Ho Hc). lia.
  - intros k Hk. cbn in Hk. lia.
Qed.

Lemma first_entry_group o inner k cl :
  chunk_type o = UNDO_TYPE_OPEN -> chunk_type cl = UNDO_TYPE_CLOSE ->
  entries inner k -> first_entry (o :: inner ++ [cl]).
Proof.
  intros Ho Hc Hin. apply entries_well_formed in Hin as [Hpre Hd].
  split; [done|]. split.
  - rewrite depth_cons, depth_app, depth_cons, depth_nil,
      (delta_open o Ho), (delta_close cl Hc). lia.
  - intros [|j] Hj; [lia|]. cbn [length] in Hj. rewrite length_app in Hj. cbn in Hj.
    rewrite depth_take_cons, (delta_open o Ho), take_app_le by lia.
    specialize (Hpre j). lia.
Qed.

(** The loop on a stream that starts with a complete entry. *)
Lemma runUndo_entry_replay state u g rest :
  chunks (get_stream (source_of state) u) = g ++ rest ->
  first_entry g ->
  runUndo state u = replay state (length g) u.
Proof.
  intros Hsrc (Hne & Hd & Hmin). unfold runUndo.
  apply (runUndo_loop_replay state g _ 0 u rest);
    [exact Hsrc | exact Hne | | lia | rewrite Hsrc, length_app; lia].
  intros k Hk. specialize (Hmin k Hk). lia.
Qed.

Lemma runUndo_entry_ok state u g rest u' :
  chunks (get_stream (source_of state) u) = g ++ rest ->
  first_entry g ->
  runUndo state u = Ok u' ->
  chunks (get_stream (source_of state) u') = rest /\
  m_diffCount u' = m_diffCount u + diff_step state * Z.of_nat (length g) /\
  m_diffSaved u' = m_diffSaved u /\
  exists news,
    chunks (get_stream (target_of state) u')
    = chunks (get_stream (target_of state) u) ++ concat news /\
    Forall2 inverse_of g news.
Proof.
  intros Hsrc Hg Hrun. rewrite (runUndo_entry_replay state u g rest Hsrc Hg) in Hrun.
  assert (H := replay_result state (length g) u). rewrite Hrun, Hsrc in H.
  rewrite drop_app_length, take_app_length in H. apply H. rewrite length_app. lia.
Qed.

(** The fuel of [runUndo] is enough: any amount above the length of the
    source stream gives the same run. *)
Lemma runUndo_loop_fuel state fuel1 : forall fuel2 level u,
  (length (chunks (get_stream (source_of state) u)) < fuel1)%nat ->
  (length (chunks (get_stream (source_of state) u)) < fuel2)%nat ->
  runUndo_loop fuel1 state level u = runUndo_loop fuel2 state level u.
Proof.
  induction fuel1 as [|fuel1 IH]; intros fuel2 level u H1 H2; [lia|].
  destruct fuel2 as [|fuel2]; [lia|].
  cbn [runUndo_loop].
  destruct (chunks (get_stream (source_of state) u)) as [|c rest] eqn:Hsrc.
  - rewrite (popChunk_head_nil _ Hsrc). reflexivity.
  - rewrite (popChunk_head_cons _ c rest Hsrc).
    set (u0 := set_stream (source_of state)
                 (mkStream rest (memSize (get_stream (source_of state) u) - chunk_size c)) u).
    assert (Hturn := runUndo_turn_result state level c u0).
    destruct (runUndo_turn state level c u0) as [[l' u']|msg [l' u']|]; try reflexivity.
    destruct Hturn as (_ & Hs & _).
    destruct (l' =? 0); [reflexivity|].
    cbn in H1, H2.
    apply IH; rewrite Hs; unfold u0; rewrite get_set_stream; cbn [chunks]; lia.
Qed.

(** A non-empty well-formed stream starts with a complete entry. *)
Lemma first_entry_of_well_formed cs :
  well_formed cs -> cs <> [] ->
  exists g rest, cs = g ++ rest /\ first_entry g.
Proof.
  intros Hwf Hne. destruct (well_formed_entries cs Hwf) as [n Hn].
  destruct Hn as [|c cs' n Ho Hc _|o inner k cl cs' n Ho Hc Hin _]; [done| |].
  - exists [c], cs'. split; [reflexivity|]. apply first_entry_single. split; assumption.
  - exists (o :: inner ++ [cl]), cs'. split.
    + rewrite <- app_comm_cons, <- app_assoc. reflexivity.
    + apply (first_entry_group o inner k cl Ho Hc Hin).
Qed.


Lemma runUndo_empty state u :
  chunks (get_stream (source_of state) u) = [] -> runUndo state u = Ok u.
Proof.
  intros H. unfold runUndo. rewrite H. cbn [length runUndo_loop].
  rewrite (popChunk_head_nil _ H). reflexivity.
Qed.

(** C10. [doUndo] on an empty undo stream and [doRedo] on an empty redo
    stream return the history they were given: counters, streams, label
    and objects are the same, so no inverter has run. *)
Theorem runUndo_empty_noop (u : UndoHistory) :
  (canUndo u = false -> doUndo u = Ok u) /\
  (canRedo u = false -> doRedo u = Ok u).
Proof.
  unfold canUndo, canRedo, empty, doUndo, doRedo.
  split; intros H; apply runUndo_empty.
  - change (get_stream (source_of DO_UNDO) u) with (m_undoStream u).
    destruct (chunks (m_undoStream u)); [reflexivity | discriminate].
  - change (get_stream (source_of DO_REDO) u) with (m_redoStream u).
    destruct (chunks (m_redoStream u)); [reflexivity | discriminate].
Qed.

(** ** Recording *)

Lemma recording_shape type o u u' :
  encoder_result type TheUndoStream u o ->
  (o >>= fun u1 => Ok (updateUndo u1)) = Ok u' ->
  exists u1 c, chunk_type c = type /\ pushes TheUndoStream u u1 [c] /\
               m_objects u1 = m_objects u /\ u' = updateUndo u1.
Proof.
  destruct o as [u1|msg u1|]; cbn; intros H Heq; [|done|done].
  destruct H as (c & Ht & _ & Hp & Ho). injection Heq as <-.
  exists u1, c. split; [exact Ht|]. split; [exact Hp|]. split; [exact Ho | reflexivity].
Qed.

(** Every recording entry point that completes has pushed one chunk on
    the undo stream and then run [updateUndo]. *)
Lemma record_result r u u' :
  record r u = Ok u' ->
  exists u1 c, pushes TheUndoStream u u1 [c] /\
               m_objects u1 = m_objects u /\ u' = updateUndo u1.
Proof.
  intros H.
  assert (Hgen : exists type o, encoder_result type TheUndoStream u o /\
                                record r u = (o >>= fun u1 => Ok (updateUndo u1))).
  { destruct r; cbn [record];
      first [ eexists _, _; split; [apply chunk_open_new_result | reflexivity]
            | eexists _, _; split; [apply chunk_close_new_result | reflexivity]
            | eexists _, _; split; [apply chunk_image_new_result | reflexivity]
            | eexists _, _; split; [apply chunk_remap_palette_new_result | reflexivity]
            | eexists _, _; split; [apply chunk_set_imgtype_new_result | reflexivity]
            | eexists _, _; split; [apply chunk_set_size_new_result | reflexivity]
            | eexists _, _; split; [apply chunk_set_frame_new_result | reflexivity]
            | eexists _, _; split; [apply chunk_set_frames_new_result | reflexivity]
            | eexists _, _; split; [apply chunk_foreign_new_result | reflexivity] ]. }
  destruct Hgen as (type & o & Henc & Heq). rewrite Heq in H.
  destruct (recording_shape type o u u' Henc H) as (u1 & c & _ & Hp & Ho & Hu).
  exists u1, c. split; [exact Hp|]. split; [exact Ho | exact Hu].
Qed.

(** C4. When a recording entry point ([undo_open], ..., [undo_set_frlen])
    completes, the redo stream is empty: [canRedo] answers false. *)
Theorem record_clears_redo (r : Recording) (u u' : UndoHistory) :
  record r u = Ok u' -> canRedo u' = false.
Proof.
  intros H. apply record_result in H as (u1 & c & _ & _ & ->).
  destruct (updateUndo_spec u1) as (_ & _ & _ & _ & Hredo & _).
  unfold canRedo, empty. rewrite Hredo. reflexivity.
Qed.

(** ** The saved state *)





End EngineProperties.

(** ** The inverse of a palette mapping *)

(** The loop of [inverse_mapping] over any list of positions. *)
Lemma inverse_fold_length (mapping : list Z) cs : forall init : list Z,
  length (foldl (fun inv c => <[Z.to_nat (mapping !!! c) := Z.of_nat c]> inv) init cs)
  = length init.
Proof.
  induction cs as [|c cs IH]; intros init; [reflexivity|].
  cbn [foldl]. rewrite IH, length_insert. reflexivity.
Qed.

Lemma inverse_fold_other (mapping : list Z) cs : forall (init : list Z) (k : nat),
  k ∉ (fun c => Z.to_nat (mapping !!! c)) <$> cs ->
  foldl (fun inv c => <[Z.to_nat (mapping !!! c) := Z.of_nat c]> inv) init cs !! k
  = init !! k.
Proof.
  induction cs as [|c cs IH]; intros init k Hk; [reflexivity|].
  cbn [foldl]. rewrite fmap_cons, not_elem_of_cons in Hk. destruct Hk as [Hne Hk].
  rewrite IH by exact Hk. apply list_lookup_insert_ne. congruence.
Qed.

Lemma inverse_fold_hit (mapping : list Z) cs : forall (init : list Z) (c : nat),
  NoDup ((fun c => Z.to_nat (mapping !!! c)) <$> cs) ->
  c ∈ cs ->
  (Z.to_nat (mapping !!! c) < length init)%nat ->
  foldl (fun inv c => <[Z.to_nat (mapping !!! c) := Z.of_nat c]> inv) init cs
    !! Z.to_nat (mapping !!! c)
  = Some (Z.of_nat c).
Proof.
  induction cs as [|a cs IH]; intros init c Hnd Hin Hlt; [by apply elem_of_nil in Hin|].
  cbn [foldl]. rewrite fmap_cons in Hnd. apply NoDup_cons in Hnd as [Hfresh Hnd].
  apply elem_of_cons in Hin as [->|Hin].
  - rewrite inverse_fold_other by exact Hfresh.
    apply list_lookup_insert_eq. exact Hlt.
  - apply IH; [exact Hnd | exact Hin | rewrite length_insert; exact Hlt].
Qed.

Lemma inverse_fold_range (mapping : list Z) cs : forall (init : list Z) (bound : Z),
  Forall (fun v => 0 <= v < bound) init ->
  Forall (fun c => Z.of_nat c < bound) cs ->
  Forall (fun v => 0 <= v < bound)
         (foldl (fun inv c => <[Z.to_nat (mapping !!! c) := Z.of_nat c]> inv) init cs).
Proof.
  induction cs as [|c cs IH]; intros init bound Hinit Hcs; [exact Hinit|].
  cbn [foldl]. apply Forall_cons in Hcs as [Hc Hcs].
  apply IH; [|exact Hcs]. apply Forall_insert; [exact Hinit | lia].
Qed.

Lemma inverse_mapping_length mapping : length (inverse_mapping mapping) = 256%nat.
Proof.
  unfold inverse_mapping. rewrite inverse_fold_length. apply length_replicate.
Qed.

Lemma inverse_mapping_range mapping :
  Forall (fun v => 0 <= v < 256) (inverse_mapping mapping).
Proof.
  unfold inverse_mapping. apply inverse_fold_range.
  - apply Forall_replicate. lia.
  - apply Forall_forall. intros c Hc. apply elem_of_seq in Hc. lia.
Qed.

(** The keys the loop writes are the entries of the table. *)
Lemma mapping_keys (mapping : list Z) :
  length mapping = 256%nat ->
  (fun c => Z.to_nat (mapping !!! c)) <$> seq 0 256 = Z.to_nat <$> mapping.
Proof.
  intros Hlen. apply list_eq. intros i.
  rewrite !list_lookup_fmap.
  destruct (decide (i < 256)%nat) as [Hi|Hi].
  - rewrite lookup_seq_lt by exact Hi. cbn.
    rewrite (list_lookup_lookup_total_lt mapping i) by lia. reflexivity.
  - rewrite lookup_seq_ge by lia. rewrite (lookup_ge_None_2 mapping) by lia. reflexivity.
Qed.

(** [inverse[mapping[i]] = i] for a table without repeated entries. *)
Lemma inverse_mapping_hit (mapping : list Z) (i : nat) :
  length mapping = 256%nat ->
  Forall (fun v => 0 <= v < 256) mapping ->
  NoDup mapping ->
  (i < 256)%nat ->
  inverse_mapping mapping !! Z.to_nat (mapping !!! i) = Some (Z.of_nat i).
Proof.
  intros Hlen Hrange Hnd Hi. unfold inverse_mapping.
  apply inverse_fold_hit.
  - rewrite (mapping_keys mapping Hlen).
    apply NoDup_fmap_2_strong; [|exact Hnd].
    intros a b Ha Hb Heq.
    rewrite Forall_forall in Hrange.
    assert (H1 := Hrange a Ha). assert (H2 := Hrange b Hb). lia.
  - apply elem_of_seq. lia.
  - rewrite length_replicate.
    assert (Hin : mapping !!! i ∈ mapping).
    { apply list_elem_of_lookup. exists i.
      apply list_lookup_lookup_total_lt. lia. }
    rewrite Forall_forall in Hrange. specialize (Hrange _ Hin). lia.
Qed.

Lemma is_permutation_facts mapping :
  is_permutation mapping ->
  length mapping = 256%nat /\ Forall (fun v => 0 <= v < 256) mapping /\ NoDup mapping /\
  (forall v, 0 <= v < 256 -> exists i : nat, mapping !! i = Some v).
Proof.
  unfold is_permutation. intros Hp.
  assert (Hmem : forall v, v ∈ mapping <-> 0 <= v < 256).
  { intros v. rewrite Hp, elem_of_seqZ. lia. }
  split; [rewrite Hp, length_seqZ; reflexivity|].
  split; [apply Forall_forall; intros v Hv; apply Hmem; exact Hv|].
  split; [rewrite Hp; apply NoDup_seqZ|].
  intros v Hv. apply list_elem_of_lookup, Hmem. exact Hv.
Qed.

(** The inverse of a permutation has no repeated entries either. *)
Lemma inverse_mapping_NoDup mapping :
  is_permutation mapping -> NoDup (inverse_mapping mapping).
Proof.
  intros Hp. destruct (is_permutation_facts mapping Hp) as (Hlen & Hrange & Hnd & Hsurj).
  apply NoDup_alt. intros p q x Hpx Hqx.
  assert (Hp256 : (p < 256)%nat)
    by (rewrite <- (inverse_mapping_length mapping); eapply lookup_lt_Some; exact Hpx).
  assert (Hq256 : (q < 256)%nat)
    by (rewrite <- (inverse_mapping_length mapping); eapply lookup_lt_Some; exact Hqx).
  destruct (Hsurj (Z.of_nat p)) as [i Hi]; [lia|].
  destruct (Hsurj (Z.of_nat q)) as [j Hj]; [lia|].
  assert (Hi256 : (i < 256)%nat) by (rewrite <- Hlen; eapply lookup_lt_Some; exact Hi).
  assert (Hj256 : (j < 256)%nat) by (rewrite <- Hlen; eapply lookup_lt_Some; exact Hj).
  assert (H1 := inverse_mapping_hit mapping i Hlen Hrange Hnd Hi256).
  assert (H2 := inverse_mapping_hit mapping j Hlen Hrange Hnd Hj256).
  rewrite (list_lookup_total_correct _ _ _ Hi), Nat2Z.id in H1.
  rewrite (list_lookup_total_correct _ _ _ Hj), Nat2Z.id in H2.
  assert (Hij : i = j).
  { rewrite H1 in Hpx. rewrite H2 in Hqx.
    assert (Z.of_nat i = Z.of_nat j) by congruence. lia. }
  subst j. rewrite Hi in Hj. injection Hj as Hj. lia.
Qed.

(** Inverting twice gives the permutation back. *)
Lemma inverse_mapping_involutive mapping :
  is_permutation mapping -> inverse_mapping (inverse_mapping mapping) = mapping.
Proof.
  intros Hp. destruct (is_permutation_facts mapping Hp) as (Hlen & Hrange & Hnd & Hsurj).
  apply list_eq. intros j.
  destruct (decide (j < 256)%nat) as [Hj|Hj].
  - assert (Hv : mapping !! j = Some (mapping !!! j))
      by (apply list_lookup_lookup_total_lt; lia).
    set (v := mapping !!! j) in *.
    assert (Hvr : 0 <= v < 256).
    { rewrite Forall_forall in Hrange. apply Hrange.
      apply list_elem_of_lookup. exists j. exact Hv. }
    assert (H1 := inverse_mapping_hit mapping j Hlen Hrange Hnd Hj). fold v in H1.
    assert (H2 := inverse_mapping_hit (inverse_mapping mapping) (Z.to_nat v)
                    (inverse_mapping_length mapping) (inverse_mapping_range mapping)
                    (inverse_mapping_NoDup mapping Hp) ltac:(lia)).
    rewrite (list_lookup_total_correct _ _ _ H1), Nat2Z.id, Z2Nat.id in H2 by lia.
    rewrite H2, Hv. reflexivity.
  - rewrite !lookup_ge_None_2; [reflexivity | lia |].
    rewrite inverse_mapping_length. lia.
Qed.

Lemma map_u8_range (l : list Z) :
  Forall (fun v => 0 <= v < 256) l -> map u8 l = l.
Proof.
  induction 1 as [|v l Hv _ IH]; [reflexivity|].
  cbn [map]. rewrite IH. unfold u8. rewrite Z.mod_small by lia. reflexivity.
Qed.

Section RemapPalette.

Context {collab : Collaborators}.

Lemma chunk_remap_palette_invert_ok stream c u id frame_from frame_to mapping :
  chunk_body c = BodyRemapPalette id frame_from frame_to mapping ->
  is_Some (getObjectT_Sprite (m_objects u) id) ->
  exists u1 c1,
    chunk_remap_palette_invert stream c u = Ok u1 /\
    chunks (get_stream stream u1) = chunks (get_stream stream u) ++ [c1] /\
    chunk_type c1 = UNDO_TYPE_REMAP_PALETTE /\
    chunk_body c1 = BodyRemapPalette id (u32 frame_from) (u32 frame_to)
                      (inverse_mapping mapping).
Proof.
  intros Hbody [sprite Hsprite]. unfold chunk_remap_palette_invert.
  rewrite Hbody, Hsprite. unfold chunk_remap_palette_new.
  destruct (decide (length (inverse_mapping mapping) = 256%nat)) as [_|Hne];
    [|destruct Hne; apply inverse_mapping_length].
  rewrite (map_u8_range _ (inverse_mapping_range mapping)). cbn [and_then].
  eexists _, (mkChunk UNDO_TYPE_REMAP_PALETTE _ _ _).
  split; [reflexivity|]. split; [|split; reflexivity].
  destruct stream; reflexivity.
Qed.

(** The objects after the inverter are what [remapImages] makes of
    them with the inverse table. *)
Lemma chunk_remap_palette_invert_objects stream c u u1 id frame_from frame_to mapping :
  chunk_body c = BodyRemapPalette id frame_from frame_to mapping ->
  chunk_remap_palette_invert stream c u = Ok u1 ->
  m_objects u1
  = remapImages id frame_from frame_to (inverse_mapping mapping) (m_objects u).
Proof.
  intros Hbody Hrun. unfold chunk_remap_palette_invert in Hrun. rewrite Hbody in Hrun.
  destruct (getObjectT_Sprite (m_objects u) id); [|discriminate].
  unfold chunk_remap_palette_new in Hrun.
  destruct (decide (length (inverse_mapping mapping) = 256%nat)); [|discriminate].
  cbn [and_then] in Hrun.
  assert (Hinj : forall a b : UndoHistory, Ok a = Ok b -> a = b)
    by (intros a b E; injection E; trivial).
  apply Hinj in Hrun. subst u1.
  destruct stream; reflexivity.
Qed.

(** C7. The inverter of a REMAP_PALETTE chunk stores the table
    [inverse] with [inverse[mapping[i]] = i] for every [i] in [0,256).
    When [mapping] is a permutation of [0,256), looking [mapping[i]] up
    in [inverse] gives [i] back, and inverting the chunk the inverter
    stored puts a chunk with the original mapping on the stream. *)
Theorem remap_palette_invert_twice (stream stream' : StreamRef) (c : UndoChunk)
    (u u' : UndoHistory) (id : ObjectId) (frame_from frame_to : Z) (mapping : list Z) :
  chunk_body c = BodyRemapPalette id frame_from frame_to mapping ->
  is_permutation mapping ->
  is_Some (getObjectT_Sprite (m_objects u) id) ->
  is_Some (getObjectT_Sprite (m_objects u') id) ->
  (forall i, 0 <= i < 256 ->
     inverse_mapping mapping !!! Z.to_nat (mapping !!! Z.to_nat i) = i) /\
  exists u1 c1,
    chunk_remap_palette_invert stream c u = Ok u1 /\
    chunks (get_stream stream u1) = chunks (get_stream stream u) ++ [c1] /\
    chunk_body c1 = BodyRemapPalette id (u32 frame_from) (u32 frame_to)
                      (inverse_mapping mapping) /\
    exists u2 c2,
      chunk_remap_palette_invert stream' c1 u' = Ok u2 /\
      chunks (get_stream stream' u2) = chunks (get_stream stream' u') ++ [c2] /\
      chunk_body c2 = BodyRemapPalette id (u32 frame_from) (u32 frame_to) mapping.
Proof.
  intros Hbody Hperm Hs Hs'.
  destruct (is_permutation_facts mapping Hperm) as (Hlen & Hrange & Hnd & _).
  split.
  - intros i Hi.
    assert (H := inverse_mapping_hit mapping (Z.to_nat i) Hlen Hrange Hnd ltac:(lia)).
    rewrite (list_lookup_total_correct _ _ _ H). lia.
  - destruct (chunk_remap_palette_invert_ok stream c u id frame_from frame_to mapping
                Hbody Hs) as (u1 & c1 & Hrun & Hpush & _ & Hb1).
    exists u1, c1. split; [exact Hrun|]. split; [exact Hpush|]. split; [exact Hb1|].
    destruct (chunk_remap_palette_invert_ok stream' c1 u' id (u32 frame_from)
                (u32 frame_to) (inverse_mapping mapping) Hb1 Hs')
      as (u2 & c2 & Hrun2 & Hpush2 & _ & Hb2).
    exists u2, c2. split; [exact Hrun2|]. split; [exact Hpush2|].
    rewrite Hb2, (inverse_mapping_involutive mapping Hperm).
    unfold u32. rewrite !Z.mod_mod by lia. reflexivity.
Qed.

End RemapPalette.

(** ** Pixel rectangles *)

Lemma image_line_size_imgtype (a b : Image) (width : Z) :
  image_imgtype a = image_imgtype b -> image_line_size a width = image_line_size b width.
Proof. unfold image_line_size. intros ->. reflexivity. Qed.

Lemma image_line_size_add image a b :
  image_line_size image (a + b) = image_line_size image a + image_line_size image b.
Proof. unfold image_line_size. destruct (image_imgtype image); lia. Qed.

Lemma image_line_size_mono image a b :
  a <= b -> image_line_size image a <= image_line_size image b.
Proof. unfold image_line_size. destruct (image_imgtype image); lia. Qed.

Lemma image_line_size_nonneg image a : 0 <= a -> 0 <= image_line_size image a.
Proof. unfold image_line_size. destruct (image_imgtype image); lia. Qed.

Lemma restore_lines_imgtype x y size vs : forall image ptr,
  image_imgtype (restore_lines image x y size ptr vs) = image_imgtype image.
Proof.
  induction vs as [|v vs IH]; intros image ptr; [reflexivity|].
  cbn [restore_lines]. rewrite IH. reflexivity.
Qed.

Lemma restore_lines_geometry x y size vs : forall image ptr,
  image_w (restore_lines image x y size ptr vs) = image_w image /\
  image_h (restore_lines image x y size ptr vs) = image_h image /\
  image_mask_color (restore_lines image x y size ptr vs) = image_mask_color image /\
  length (image_line (restore_lines image x y size ptr vs)) = length (image_line image).
Proof.
  induction vs as [|v vs IH]; intros image ptr; [repeat split|].
  cbn [restore_lines].
  destruct (IH (write_line image x (y + v) (take (Z.to_nat size) ptr))
               (drop (Z.to_nat size) ptr)) as (H1 & H2 & H3 & H4).
  rewrite H1, H2, H3, H4. cbn. rewrite length_insert. repeat split.
Qed.

(** Scan lines that the loop does not visit keep their bytes. *)
Lemma restore_lines_other x y size vs : forall image ptr (r : nat),
  (forall v, v ∈ vs -> Z.to_nat (y + v) <> r) ->
  image_line (restore_lines image x y size ptr vs) !! r = image_line image !! r.
Proof.
  induction vs as [|v vs IH]; intros image ptr r Hr; [reflexivity|].
  cbn [restore_lines]. rewrite IH.
  - cbn. apply list_lookup_insert_ne. apply Hr. left.
  - intros v' Hv'. apply Hr. right. exact Hv'.
Qed.

(** Reading the rectangle back after the restore loop gives the bytes
    the loop was fed. *)
Lemma copy_restore_lines x y size (L : nat) n : forall a image ptr,
  0 <= y -> 0 <= a -> 0 <= size ->
  (Z.to_nat (image_line_size image x) + Z.to_nat size <= L)%nat ->
  Forall (fun l => length l = L) (image_line image) ->
  (Z.to_nat (y + a) + n <= length (image_line image))%nat ->
  length ptr = (Z.to_nat size * n)%nat ->
  concat (map (fun v => read_line
                          (restore_lines image x y size ptr (seqZ a (Z.of_nat n)))
                          x (y + v) size)
              (seqZ a (Z.of_nat n)))
  = ptr.
Proof.
  induction n as [|n IH]; intros a image ptr Hy Ha Hsize Hfit Hrows Hin Hptr.
  - cbn. destruct ptr; [reflexivity | cbn in Hptr; lia].
  - rewrite (seqZ_cons a (Z.of_nat (S n))) by lia.
    replace (Z.pred (Z.of_nat (S n))) with (Z.of_nat n) by lia.
    cbn [restore_lines map concat].
    set (bytes := take (Z.to_nat size) ptr).
    set (image1 := write_line image x (y + a) bytes).
    set (ra := Z.to_nat (y + a)).
    set (off := Z.to_nat (image_line_size image x)) in *.
    assert (Hbytes : length bytes = Z.to_nat size)
      by (unfold bytes; rewrite length_take; lia).
    assert (Hra : (ra < length (image_line image))%nat) by (unfold ra; lia).
    destruct (lookup_lt_is_Some_2 _ _ Hra) as [row Hrow].
    assert (Hrowlen : length row = L).
    { rewrite Forall_forall in Hrows. apply Hrows.
      apply list_elem_of_lookup. exists ra. exact Hrow. }
    set (row1 := take off row ++ bytes ++ drop (off + length bytes) row).
    assert (Hlines1 : image_line image1 = <[ra := row1]> (image_line image)).
    { unfold image1, write_line, row1. cbn [image_line]. fold ra off.
      rewrite (list_lookup_total_correct _ _ _ Hrow). reflexivity. }
    assert (Hrow1len : length row1 = L).
    { unfold row1. rewrite !length_app, length_take, length_drop. lia. }
    assert (Htype1 : image_imgtype image1 = image_imgtype image) by reflexivity.
    (* the line written first is not visited again *)
    assert (Hfirst : read_line
                       (restore_lines image1 x y size (drop (Z.to_nat size) ptr)
                          (seqZ (Z.succ a) (Z.of_nat n)))
                       x (y + a) size = bytes).
    { unfold read_line.
      rewrite (image_line_size_imgtype _ image x)
        by (rewrite restore_lines_imgtype; exact Htype1).
      fold ra off.
      assert (Hl : image_line
                     (restore_lines image1 x y size (drop (Z.to_nat size) ptr)
                        (seqZ (Z.succ a) (Z.of_nat n))) !! ra = Some row1).
      { rewrite restore_lines_other.
        - rewrite Hlines1. apply list_lookup_insert_eq. exact Hra.
        - intros v Hv. apply elem_of_seqZ in Hv. unfold ra. lia. }
      rewrite (list_lookup_total_correct _ _ _ Hl). unfold row1.
      rewrite drop_app_length' by (rewrite length_take; lia).
      rewrite take_app_length' by lia. reflexivity. }
    rewrite Hfirst.
    rewrite (IH (Z.succ a) image1 (drop (Z.to_nat size) ptr)).
    + unfold bytes. apply take_drop.
    + exact Hy.
    + lia.
    + exact Hsize.
    + rewrite (image_line_size_imgtype image1 image x Htype1). exact Hfit.
    + rewrite Hlines1. apply Forall_insert; [exact Hrows | exact Hrow1len].
    + rewrite Hlines1, length_insert. fold ra in Hin. 
      replace (Z.to_nat (y + Z.succ a)) with (S ra) by (unfold ra; lia). lia.
    + rewrite length_drop, Hptr. lia.
Qed.

(** On a well-formed image, after the restore loop the rectangle holds
    the stored pixels. *)
Lemma copy_restore_rect image x y w h data :
  image_wf image -> rect_inside image x y w h ->
  Z.of_nat (length data) = image_line_size image w * h ->
  copy_rect (restore_rect image x y w h data) x y w h = data.
Proof.
  intros (Hw & Hh & Hlen & Hrows) (H1 & H2 & H3 & H4 & H5 & H6) Hdata.
  unfold copy_rect, restore_rect.
  rewrite (image_line_size_imgtype
             (restore_lines image x y (image_line_size image w) data (seqZ 0 h)) image w)
    by apply restore_lines_imgtype.
  assert (Hsz : 0 <= image_line_size image w) by (apply image_line_size_nonneg; lia).
  assert (Hoff : 0 <= image_line_size image x) by (apply image_line_size_nonneg; lia).
  assert (Hsum : image_line_size image x + image_line_size image w
                 <= image_line_size image (image_w image)).
  { rewrite <- image_line_size_add. apply image_line_size_mono. lia. }
  rewrite <- (Z2Nat.id h) by lia.
  apply (copy_restore_lines x y (image_line_size image w)
           (Z.to_nat (image_line_size image (image_w image))));
    try lia; exact Hrows.
Qed.

Section ImageChunk.

Context {collab : Collaborators}.

Lemma chunk_image_new_ok stream id image x y w h u :
  getObjectT_Image (m_objects u) id = Some image ->
  rect_inside image x y w h ->
  chunk_image_new stream id x y w h u
  = Ok (undo_chunk_new stream UNDO_TYPE_IMAGE
          (sizeof_chunk UNDO_TYPE_IMAGE + image_line_size image w * h)
          (BodyImage id (image_imgtype image) (u16 x) (u16 y) (u16 w) (u16 h)
                     (copy_rect image x y w h))
          u).
Proof.
  intros Himage (H1 & H2 & H3 & H4 & H5 & H6). unfold chunk_image_new. rewrite Himage.
  replace (1 <=? w) with true by (symmetry; apply Z.leb_le; lia).
  replace (1 <=? h) with true by (symmetry; apply Z.leb_le; lia).
  replace (0 <=? x) with true by (symmetry; apply Z.leb_le; lia).
  replace (0 <=? y) with true by (symmetry; apply Z.leb_le; lia).
  replace (x + w <=? image_w image) with true by (symmetry; apply Z.leb_le; lia).
  replace (y + h <=? image_h image) with true by (symmetry; apply Z.leb_le; lia).
  reflexivity.
Qed.

(** A stored rectangle that the [ASSERT]s of [chunk_image_new] reject
    takes the inverter out of the contract; it does not make it throw. *)
Lemma chunk_image_invert_outside stream chunk u id imgtype x y w h data image :
  chunk_body chunk = BodyImage id imgtype x y w h data ->
  getObjectT_Image (m_objects u) id = Some image ->
  image_imgtype image = imgtype -> ~ rect_inside image x y w h ->
  chunk_image_invert stream chunk u = Violation.
Proof.
  intros Hbody Himage Htype Hout. unfold chunk_image_invert. rewrite Hbody, Himage.
  destruct (decide (image_imgtype image <> imgtype)) as [Hne|_]; [contradiction|].
  unfold chunk_image_new. rewrite Himage.
  destruct ((1 <=? w) && (1 <=? h) && (0 <=? x) && (0 <=? y)
            && (x + w <=? image_w image) && (y + h <=? image_h image)) eqn:Hc;
    [|reflexivity].
  exfalso. apply Hout. unfold rect_inside.
  repeat (apply andb_true_iff in Hc as [Hc ?]).
  repeat split; apply Z.leb_le; assumption.
Qed.

(** C9. With the image id of an IMAGE chunk resolving to a live image,
    the inverter throws exactly when the imgtype of the live image
    differs from the one stored in the chunk.  When they agree (and the
    stored rectangle lies inside the image, as [chunk_image_new]
    asserts), the chunk it pushes holds the pixels of the rectangle as
    they were before the call, and the live image afterwards is the old
    one with the stored pixels written over the rectangle: reading the
    rectangle back gives the stored pixels. *)
Theorem chunk_image_invert_spec (stream : StreamRef) (chunk : UndoChunk)
    (u : UndoHistory) (id : ObjectId) (imgtype : ImgType) (x y w h : Z)
    (data : list Z) (image : Image) :
  chunk_body chunk = BodyImage id imgtype x y w h data ->
  getObjectT_Image (m_objects u) id = Some image ->
  ((exists msg u', chunk_image_invert stream chunk u = Raised msg u')
   <-> image_imgtype image <> imgtype) /\
  (image_imgtype image = imgtype -> rect_inside image x y w h ->
   exists backup u',
     chunk_image_invert stream chunk u = Ok u' /\
     chunks (get_stream stream u') = chunks (get_stream stream u) ++ [backup] /\
     chunk_type backup = UNDO_TYPE_IMAGE /\
     chunk_body backup
     = BodyImage id imgtype (u16 x) (u16 y) (u16 w) (u16 h) (copy_rect image x y w h) /\
     getObjectT_Image (m_objects u') id = Some (restore_rect image x y w h data) /\
     (image_wf image ->
      Z.of_nat (length data) = image_line_size image w * h ->
      copy_rect (restore_rect image x y w h data) x y w h = data)).
Proof.
  intros Hbody Himage. split.
  - unfold chunk_image_invert. rewrite Hbody, Himage.
    destruct (decide (image_imgtype image <> imgtype)) as [Hne|Heq].
    + split; [intros _; exact Hne | intros _; eauto].
    + split; [|contradiction].
      intros (msg & u' & Hr). exfalso.
      assert (Henc := chunk_image_new_result stream id x y w h u).
      destruct (chunk_image_new stream id x y w h u); cbn in Hr; try discriminate.
      exact Henc.
  - intros Htype Hrect. unfold chunk_image_invert. rewrite Hbody, Himage.
    destruct (decide (image_imgtype image <> imgtype)) as [Hne|_]; [contradiction|].
    rewrite (chunk_image_new_ok stream id image x y w h u Himage Hrect). cbn [and_then].
    eexists (mkChunk UNDO_TYPE_IMAGE _ _ _), _.
    split; [reflexivity|]. split; [destruct stream; reflexivity|].
    split; [reflexivity|]. split; [rewrite Htype; reflexivity|]. split.
    + unfold getObjectT_Image. cbn [set_objects m_objects].
      rewrite lookup_insert_eq. reflexivity.
    + intros Hwf Hlen. apply copy_restore_rect; assumption.
Qed.

End ImageChunk.

(** ** Raw layer data *)

Section RawDataProperties.

Variable GFXOBJ_LAYER_IMAGE GFXOBJ_LAYER_FOLDER : Z.
Variable imgtype_code : ImgType -> Z.

Lemma write_raw_image_length image_id image :
  image_wf image ->
  Z.of_nat (length (write_raw_image imgtype_code image_id image))
  = get_raw_image_size image.
Proof.
  intros (Hw & Hh & Hlen & Hrows). unfold write_raw_image, get_raw_image_size.
  rewrite !length_app. cbn [length write_raw_uint32 write_raw_uint16 write_raw_uint8].
  assert (Hsz : 0 <= image_line_size image (image_w image))
    by (apply image_line_size_nonneg; exact Hw).
  assert (Hbody : forall (n : nat) (a : Z),
            0 <= a -> (Z.to_nat a + n <= length (image_line image))%nat ->
            Z.of_nat (length (concat (map
              (fun c => write_raw_data (image_line image !!! Z.to_nat c)
                          (image_line_size image (image_w image)))
              (seqZ a (Z.of_nat n)))))
            = image_line_size image (image_w image) * Z.of_nat n).
  { induction n as [|n IH]; intros a Ha Hin;
      [change (Z.of_nat 0) with 0; rewrite Z.mul_0_r; reflexivity|].
    rewrite (seqZ_cons a (Z.of_nat (S n))) by lia.
    replace (Z.pred (Z.of_nat (S n))) with (Z.of_nat n) by lia.
    cbn [map concat]. rewrite length_app, Nat2Z.inj_add, IH by lia.
    unfold write_raw_data. rewrite length_take.
    destruct (lookup_lt_is_Some_2 (image_line image) (Z.to_nat a)) as [row Hrow]; [lia|].
    rewrite (list_lookup_total_correct _ _ _ Hrow).
    assert (Hrl : length row = Z.to_nat (image_line_size image (image_w image))).
    { rewrite Forall_forall in Hrows. apply Hrows.
      apply list_elem_of_lookup. exists (Z.to_nat a). exact Hrow. }
    lia. }
  specialize (Hbody (Z.to_nat (image_h image)) 0).
  rewrite Z2Nat.id in Hbody by lia. rewrite !Nat2Z.inj_add.
  rewrite Hbody by (cbn; lia). lia.
Qed.

Lemma write_raw_cel_length cel :
  Z.of_nat (length (write_raw_cel cel)) = get_raw_cel_size cel.
Proof. reflexivity. Qed.

Lemma getImage_wf sprite index image_id image :
  stock_wf sprite -> getImage sprite index = Some (image_id, image) -> image_wf image.
Proof.
  unfold stock_wf, getImage. intros Hwf Hget.
  destruct (index <? 0); [discriminate|].
  destruct (ls_stock sprite !! Z.to_nat index) as [slot|] eqn:Hslot; [|discriminate].
  rewrite Forall_forall in Hwf.
  assert (Hin : slot ∈ ls_stock sprite)
    by (apply list_elem_of_lookup; exists (Z.to_nat index); exact Hslot).
  specialize (Hwf slot Hin). rewrite Hget in Hwf. exact Hwf.
Qed.

Lemma write_raw_cels_length sprite cels : forall bytes,
  stock_wf sprite ->
  write_raw_cels imgtype_code sprite cels = Some bytes ->
  get_raw_cels_size sprite cels = Some (Z.of_nat (length bytes)).
Proof.
  induction cels as [|cel cels IH]; intros bytes Hwf Hw.
  - cbn in Hw. injection Hw as <-. reflexivity.
  - cbn [write_raw_cels get_raw_cels_size] in *.
    destruct (getImage sprite (cel_image cel)) as [[image_id image]|] eqn:Hget;
      [|discriminate].
    destruct (write_raw_cels imgtype_code sprite cels) as [rest|]; [|discriminate].
    assert (Hb : bytes = write_raw_cel cel ++ write_raw_uint8 1
                         ++ write_raw_image imgtype_code image_id image ++ rest)
      by congruence.
    rewrite Hb, (IH rest Hwf eq_refl). f_equal.
    rewrite !length_app, !Nat2Z.inj_add, write_raw_cel_length.
    rewrite (write_raw_image_length image_id image (getImage_wf _ _ _ _ Hwf Hget)).
    cbn [length write_raw_uint8]. lia.
Qed.

(** [get_raw_layer_size] exceeds what [write_raw_layer] stores by one
    byte per image layer of the tree. *)
Lemma get_raw_layer_size_excess : forall layer bytes,
  layer_stock_wf layer ->
  write_raw_layer GFXOBJ_LAYER_IMAGE GFXOBJ_LAYER_FOLDER imgtype_code layer = Some bytes ->
  get_raw_layer_size layer = Some (Z.of_nat (length bytes) + image_layers layer).
Proof.
  fix IH 1. intros layer bytes Hwf Hw.
  assert (Hhead : forall (name : list Z),
            length (if decide (name = []) then []
                    else write_raw_data name (Z.of_nat (length name)))
            = length name).
  { intros name. destruct (decide (name = [])) as [->|_]; [reflexivity|].
    unfold write_raw_data. rewrite length_take. lia. }
  destruct layer as [id name flags sprite cels|id name flags sprite layers].
  - cbn [write_raw_layer get_raw_layer_size getName flags_addr layer_id image_layers] in *.
    destruct (write_raw_cels imgtype_code sprite cels) as [body|] eqn:Hcels; [|discriminate].
    apply (inj Some) in Hw. rewrite <- Hw.
    rewrite (write_raw_cels_length sprite cels body Hwf Hcels). f_equal.
    rewrite !length_app, Hhead. cbn [length write_raw_uint32 write_raw_uint16 write_raw_uint8].
    lia.
  - cbn [write_raw_layer get_raw_layer_size getName flags_addr layer_id image_layers
         layer_stock_wf] in *.
    match type of Hw with
    | match ?wr layers with _ => _ end = _ =>
        assert (Hch : forall ls body,
                  (fix all (ls : list Layer) : Prop :=
                     match ls with
                     | [] => True
                     | l :: ls' => layer_stock_wf l /\ all ls'
                     end) ls ->
                  wr ls = Some body ->
                  (fix children (ls : list Layer) : option Z :=
                     match ls with
                     | [] => Some 0
                     | l :: ls' =>
                         match get_raw_layer_size l, children ls' with
                         | Some a, Some b => Some (a + b)
                         | _, _ => None
                         end
                     end) ls
                  = Some (Z.of_nat (length body)
                          + (fix sum (ls : list Layer) : Z :=
                               match ls with
                               | [] => 0
                               | l :: ls' => image_layers l + sum ls'
                               end) ls))
    end.
    { induction ls as [|l ls IHls]; intros body Hall Hb.
      - injection Hb as <-. reflexivity.
      - destruct Hall as [Hl Hall].
        destruct (write_raw_layer GFXOBJ_LAYER_IMAGE GFXOBJ_LAYER_FOLDER imgtype_code l)
          as [a|] eqn:Ha; [|discriminate].
        rewrite (IH l a Hl Ha).
        match type of Hb with
        | match ?e with _ => _ end = _ => destruct e as [b|] eqn:Hb'; [|discriminate]
        end.
        apply (inj Some) in Hb. rewrite <- Hb, (IHls b Hall eq_refl). f_equal.
        rewrite length_app. lia. }
    match type of Hw with
    | match ?e with _ => _ end = _ => destruct e as [body|] eqn:Hbody; [|discriminate]
    end.
    apply (inj Some) in Hw. rewrite <- Hw, (Hch layers body Hwf Hbody). f_equal.
    rewrite !length_app, Hhead. cbn [length write_raw_uint32 write_raw_uint16 write_raw_uint8].
    lia.
Qed.

(** X22. [get_raw_layer_size] never reserves too little: for a layer
    tree whose cels name well-formed images of the stock, it returns
    the number of bytes [write_raw_layer] stores plus one for every image
    layer of the tree. *)
Theorem get_raw_layer_size_overcounts (layer : Layer) (bytes : list Z) :
  layer_stock_wf layer ->
  write_raw_layer GFXOBJ_LAYER_IMAGE GFXOBJ_LAYER_FOLDER imgtype_code layer = Some bytes ->
  get_raw_layer_size layer = Some (Z.of_nat (length bytes) + image_layers layer).
Proof. apply get_raw_layer_size_excess. Qed.

(** C8 on the code.  For an image layer without cels and without a
    name [get_raw_layer_size] returns 16 while [write_raw_layer] stores
    15 bytes, so the size of its REMOVE_LAYER chunk is one more than the
    bytes of the chunk; for the folder with two image layers the sizes
    are 122 and 120. *)
Theorem get_raw_layer_size_not_written :
  get_raw_layer_size sample_image_layer = Some 16 /\
  length <$> write_raw_layer GFXOBJ_LAYER_IMAGE GFXOBJ_LAYER_FOLDER imgtype_code
               sample_image_layer = Some 15%nat /\
  get_raw_layer_size sample_folder_layer = Some 122 /\
  length <$> write_raw_layer GFXOBJ_LAYER_IMAGE GFXOBJ_LAYER_FOLDER imgtype_code
               sample_folder_layer = Some 120%nat /\
  (forall sizeof_UndoChunkRemoveLayer,
     remove_layer_chunk_size sizeof_UndoChunkRemoveLayer sample_image_layer
     = Some (sizeof_UndoChunkRemoveLayer + 16) /\
     remove_layer_chunk_bytes GFXOBJ_LAYER_IMAGE GFXOBJ_LAYER_FOLDER imgtype_code
       sizeof_UndoChunkRemoveLayer sample_image_layer
     = Some (sizeof_UndoChunkRemoveLayer + 15)).
Proof.
  repeat split; reflexivity.
Qed.

End RawDataProperties.

(** * Further properties of the engine *)

Section ReplayProperties.

Context {collab : Collaborators}.

(** ** Any source stream *)

(** Whatever the source stream holds, the loop of [runUndo] is some
    number of turns in a row, at least one when there is a chunk. *)
Lemma runUndo_loop_turns state fuel : forall level u,
  exists k : nat,
    (k <= length (chunks (get_stream (source_of state) u)))%nat /\
    (k <= fuel)%nat /\
    (chunks (get_stream (source_of state) u) <> [] -> (0 < fuel)%nat -> (1 <= k)%nat) /\
    runUndo_loop fuel state level u = replay state k u.
Proof.
  induction fuel as [|fuel IH]; intros level u.
  - exists 0%nat. split; [lia|]. split; [lia|]. split; [intros _ H; lia | reflexivity].
  - destruct (chunks (get_stream (source_of state) u)) as [|c rest] eqn:Hsrc.
    + exists 0%nat. cbn [runUndo_loop replay]. rewrite (popChunk_head_nil _ Hsrc).
      split; [cbn; lia|]. split; [lia|]. split; [intros H; done | reflexivity].
    + cbn [runUndo_loop].
      rewrite (popChunk_head_cons _ c rest Hsrc).
      set (u0 := set_stream (source_of state)
                   (mkStream rest (memSize (get_stream (source_of state) u) - chunk_size c))
                   u).
      assert (Hone : forall k, replay state (S k) u
                = match runUndo_turn state 0 c u0 with
                  | Ok (_, u') => replay state k u'
                  | Raised msg (_, u') => Raised msg u'
                  | Violation => Violation
                  end).
      { intros k. cbn [replay]. rewrite (popChunk_head_cons _ c rest Hsrc). reflexivity. }
      rewrite (runUndo_turn_level state level c u0).
      assert (Hturn := runUndo_turn_result state 0 c u0).
      destruct (runUndo_turn state 0 c u0) as [[l' u1]|msg [l' u1]|] eqn:Ht.
      * destruct Hturn as (_ & Hs & _).
        destruct (level + delta c =? 0).
        -- exists 1%nat. rewrite Hone. cbn [replay length].
           split; [lia|]. split; [lia|]. split; [intros; lia | reflexivity].
        -- destruct (IH (level + delta c) u1) as (k & Hk & Hkf & _ & Heq).
           rewrite Hs in Hk. unfold u0 in Hk. rewrite get_set_stream in Hk.
           cbn [chunks] in Hk.
           exists (S k). rewrite Hone. cbn [length].
           split; [lia|]. split; [lia|]. split; [intros; lia | exact Heq].
      * exists 1%nat. rewrite Hone. cbn [length].
        split; [lia|]. split; [lia|]. split; [intros; lia | reflexivity].
      * exists 1%nat. rewrite Hone. cbn [length].
        split; [lia|]. split; [lia|]. split; [intros; lia | reflexivity].
Qed.

(** X1. A [doUndo] or [doRedo] that completes has removed a prefix of
    the source stream, not empty when the stream was not, and moved
    [diffCount] by one per chunk removed; [diffSaved] is as before, and
    the target stream has received what the inverters of the removed
    chunks left, in their order. *)
Theorem runUndo_accounting (state : UndoState) (u u' : UndoHistory) :
  runUndo state u = Ok u' ->
  exists (k : nat) news,
    (chunks (get_stream (source_of state) u) <> [] -> (1 <= k)%nat) /\
    (k <= length (chunks (get_stream (source_of state) u)))%nat /\
    chunks (get_stream (source_of state) u')
    = drop k (chunks (get_stream (source_of state) u)) /\
    m_diffCount u' = m_diffCount u + diff_step state * Z.of_nat k /\
    m_diffSaved u' = m_diffSaved u /\
    chunks (get_stream (target_of state) u')
    = chunks (get_stream (target_of state) u) ++ concat news /\
    Forall2 inverse_of (take k (chunks (get_stream (source_of state) u))) news.
Proof.
  intros Hrun. unfold runUndo in Hrun.
  destruct (runUndo_loop_turns state
              (S (length (chunks (get_stream (source_of state) u)))) 0 u)
    as (k & Hk & _ & Hpos & Heq).
  rewrite Heq in Hrun.
  assert (H := replay_result state k u Hk). rewrite Hrun in H.
  destruct H as (Hs & Hd & Hv & news & Ht & Hall).
  exists k, news. split; [intros Hne; apply Hpos; [exact Hne | lia]|].
  split; [exact Hk|]. split; [exact Hs|]. split; [exact Hd|]. split; [exact Hv|].
  split; [exact Ht | exact Hall].
Qed.

(** On a source stream none of whose non-empty prefixes has depth 0 the
    loop goes on until the stream is used up. *)
Lemma runUndo_loop_exhausts state cs : forall fuel level u,
  chunks (get_stream (source_of state) u) = cs ->
  (forall k : nat, (0 < k <= length cs)%nat -> level + depth (take k cs) <> 0) ->
  (length cs < fuel)%nat ->
  runUndo_loop fuel state level u = replay state (length cs) u.
Proof.
  induction cs as [|c cs IH]; intros fuel level u Hsrc Hmin Hfuel.
  - destruct fuel as [|fuel]; [cbn in Hfuel; lia|].
    cbn [runUndo_loop replay length]. rewrite (popChunk_head_nil _ Hsrc). reflexivity.
  - destruct fuel as [|fuel]; [cbn in Hfuel; lia|].
    cbn [length runUndo_loop replay].
    rewrite (popChunk_head_cons _ c cs Hsrc).
    set (u0 := set_stream (source_of state)
                 (mkStream cs (memSize (get_stream (source_of state) u) - chunk_size c)) u).
    rewrite (runUndo_turn_level state level c u0).
    assert (Hturn := runUndo_turn_result state 0 c u0).
    destruct (runUndo_turn state 0 c u0) as [[l' u']|msg [l' u']|]; try reflexivity.
    destruct Hturn as (_ & Hs & _).
    assert (H1 := Hmin 1%nat ltac:(cbn; lia)). rewrite depth_take_one in H1.
    replace (level + delta c =? 0) with false by (symmetry; apply Z.eqb_neq; lia).
    apply (IH fuel (level + delta c) u').
    + rewrite Hs. unfold u0. rewrite get_set_stream. reflexivity.
    + intros k Hk. specialize (Hmin (S k) ltac:(cbn; lia)).
      rewrite depth_take_cons in Hmin. lia.
    + cbn in Hfuel. lia.
Qed.

(** X2. When no non-empty prefix of the source stream brings the depth
    back to zero (an OPEN without its CLOSE, say), a [doUndo] or
    [doRedo] that completes has used up the whole stream: it stops at
    the [break], with every chunk inverted and counted. *)
Theorem runUndo_unmatched (state : UndoState) (u u' : UndoHistory) :
  (forall k : nat,
     (0 < k <= length (chunks (get_stream (source_of state) u)))%nat ->
     depth (take k (chunks (get_stream (source_of state) u))) <> 0) ->
  runUndo state u = Ok u' ->
  chunks (get_stream (source_of state) u') = [] /\
  m_diffCount u'
  = m_diffCount u
    + diff_step state * Z.of_nat (length (chunks (get_stream (source_of state) u))) /\
  exists news,
    chunks (get_stream (target_of state) u')
    = chunks (get_stream (target_of state) u) ++ concat news /\
    Forall2 inverse_of (chunks (get_stream (source_of state) u)) news.
Proof.
  intros Hmin Hrun. unfold runUndo in Hrun.
  rewrite (runUndo_loop_exhausts state (chunks (get_stream (source_of state) u))
             _ 0 u eq_refl) in Hrun; [| |lia].
  - assert (H := replay_result state _ u (le_n _)). rewrite Hrun in H.
    destruct H as (Hs & Hd & _ & news & Ht & Hall).
    rewrite drop_all in Hs. rewrite firstn_all in Hall.
    split; [exact Hs|]. split; [exact Hd|]. exists news. split; assumption.
  - intros k Hk. specialize (Hmin k Hk). lia.
Qed.

(** ** The label and a throw *)

Lemma runUndo_turn_label state level chunk u :
  match runUndo_turn state level chunk u with
  | Ok (_, u') => m_label u' = Some (chunk_label chunk)
  | Raised _ (_, u') => m_label u' = Some (chunk_label chunk) /\
                        m_diffSaved u' = m_diffSaved u
  | Violation => True
  end.
Proof.
  unfold runUndo_turn.
  assert (H := undo_actions_invert_result (target_of state) chunk
                 (setLabel (Some (chunk_label chunk)) u)).
  destruct (undo_actions_invert (chunk_type chunk) (target_of state) chunk
              (setLabel (Some (chunk_label chunk)) u)) as [u1|msg u1|]; cbn in H.
  - destruct H as (new & (_ & _ & _ & _ & Hl) & _). destruct state; exact Hl.
  - rewrite H. split; reflexivity.
  - exact I.
Qed.

(** The label after [n] turns is the label of the last chunk popped. *)
Lemma replay_label state n : forall u,
  (n <= length (chunks (get_stream (source_of state) u)))%nat ->
  match replay state n u with
  | Ok u' =>
      match n with
      | O => m_label u' = m_label u
      | S k => exists c, chunks (get_stream (source_of state) u) !! k = Some c /\
                         m_label u' = Some (chunk_label c)
      end
  | Raised _ u' =>
      m_diffSaved u' = m_diffSaved u /\
      exists (k : nat) c,
        chunks (get_stream (source_of state) u) !! k = Some c /\
        chunks (get_stream (source_of state) u')
        = drop (S k) (chunks (get_stream (source_of state) u)) /\
        m_label u' = Some (chunk_label c)
  | Violation => True
  end.
Proof.
  induction n as [|n IH]; intros u Hlen; [reflexivity|].
  cbn [replay].
  destruct (chunks (get_stream (source_of state) u)) as [|c rest] eqn:Hsrc;
    [cbn in Hlen; lia|].
  rewrite (popChunk_head_cons _ c rest) by exact Hsrc.
  set (u0 := set_stream (source_of state)
               (mkStream rest (memSize (get_stream (source_of state) u) - chunk_size c))
               u).
  assert (Hturn := runUndo_turn_result state 0 c u0).
  assert (Hlab := runUndo_turn_label state 0 c u0).
  assert (Hsrc0 : chunks (get_stream (source_of state) u0) = rest)
    by (unfold u0; rewrite get_set_stream; reflexivity).
  assert (Hs0 : m_diffSaved u0 = m_diffSaved u)
    by (unfold u0; destruct state; reflexivity).
  destruct (runUndo_turn state 0 c u0) as [[l' u1]|msg [l' u1]|]; [| |exact I].
  - destruct Hturn as (_ & Hs & _ & Hv & _).
    assert (Hsrc1 : chunks (get_stream (source_of state) u1) = rest)
      by (rewrite Hs; exact Hsrc0).
    specialize (IH u1). rewrite Hsrc1 in IH. cbn [length] in Hlen.
    specialize (IH ltac:(lia)).
    destruct (replay state n u1) as [u'|msg u'|]; [| |exact I].
    + destruct n as [|k].
      * exists c. split; [reflexivity | congruence].
      * destruct IH as (c' & Hc' & Hl'). exists c'. split; [exact Hc' | exact Hl'].
    + destruct IH as (Hv' & k & c' & Hc' & Hk & Hl').
      split; [congruence|].
      exists (S k), c'. split; [exact Hc'|]. split; [exact Hk | exact Hl'].
  - destruct Hlab as [Hl Hv]. destruct Hturn as [_ Hu1].
    split; [congruence|].
    exists 0%nat, c. split; [reflexivity|]. split; [|exact Hl].
    rewrite Hu1.
    change (get_stream (source_of state) (setLabel (Some (chunk_label c)) u0))
      with (get_stream (source_of state) u0).
    rewrite Hsrc0. reflexivity.
Qed.

(** X10. [runUndo] leaves the label of the history changed: after a
    [doUndo] or [doRedo] that completes on a stream that was not empty,
    [getLabel] gives the label of the last chunk it removed. *)
Theorem runUndo_label (state : UndoState) (u u' : UndoHistory) :
  chunks (get_stream (source_of state) u) <> [] ->
  runUndo state u = Ok u' ->
  exists (k : nat) c,
    chunks (get_stream (source_of state) u) !! k = Some c /\
    chunks (get_stream (source_of state) u')
    = drop (S k) (chunks (get_stream (source_of state) u)) /\
    getLabel u' = Some (chunk_label c).
Proof.
  intros Hne Hrun. unfold runUndo in Hrun.
  destruct (runUndo_loop_turns state
              (S (length (chunks (get_stream (source_of state) u)))) 0 u)
    as (n & Hn & _ & Hpos & Heq).
  rewrite Heq in Hrun.
  assert (Hres := replay_result state n u Hn).
  assert (Hlab := replay_label state n u Hn).
  rewrite Hrun in Hres, Hlab.
  destruct Hres as (Hs & _).
  destruct n as [|k]; [specialize (Hpos Hne); lia|].
  destruct Hlab as (c & Hc & Hl).
  exists k, c. split; [exact Hc|]. split; [exact Hs | exact Hl].
Qed.

(** X11. A [doUndo] or [doRedo] that ends in a throw has removed the
    chunk whose inverter threw from the source stream without counting
    it: with [k] chunks inverted before it, [k + 1] chunks are gone and
    [diffCount] has moved by [k].  The inverses of the [k] chunks are on
    the target stream, [diffSaved] is as before and the label is the
    label of the chunk that threw. *)
Theorem runUndo_throw (state : UndoState) (u u' : UndoHistory) (msg : string) :
  runUndo state u = Raised msg u' ->
  exists (k : nat) c news,
    chunks (get_stream (source_of state) u) !! k = Some c /\
    chunks (get_stream (source_of state) u')
    = drop (S k) (chunks (get_stream (source_of state) u)) /\
    m_diffCount u' = m_diffCount u + diff_step state * Z.of_nat k /\
    m_diffSaved u' = m_diffSaved u /\
    getLabel u' = Some (chunk_label c) /\
    chunks (get_stream (target_of state) u')
    = chunks (get_stream (target_of state) u) ++ concat news /\
    Forall2 inverse_of (take k (chunks (get_stream (source_of state) u))) news.
Proof.
  intros Hrun. unfold runUndo in Hrun.
  destruct (runUndo_loop_turns state
              (S (length (chunks (get_stream (source_of state) u)))) 0 u)
    as (n & Hn & _ & _ & Heq).
  rewrite Heq in Hrun.
  assert (Hres := replay_result state n u Hn).
  assert (Hlab := replay_label state n u Hn).
  rewrite Hrun in Hres, Hlab.
  destruct Hres as (k & news & Hk & Hs & Hd & Ht & Hall).
  destruct Hlab as (Hv & k' & c & Hc & Hs' & Hl).
  assert (Hkk : k' = k).
  { apply lookup_lt_Some in Hc.
    assert (Hlen := f_equal length Hs). rewrite Hs', !length_drop in Hlen. lia. }
  subst k'. exists k, c, news.
  split; [exact Hc|]. split; [exact Hs|]. split; [exact Hd|]. split; [exact Hv|].
  split; [exact Hl|]. split; [exact Ht | exact Hall].
Qed.

(** ** The inverses of an entry *)

Lemma inverse_type_plain t :
  t <> UNDO_TYPE_OPEN -> t <> UNDO_TYPE_CLOSE ->
  inverse_type t <> UNDO_TYPE_OPEN /\ inverse_type t <> UNDO_TYPE_CLOSE.
Proof. destruct t; intros Ho Hc; split; cbn; congruence. Qed.

Lemma inverse_of_depth c new : inverse_of c new -> depth new = - delta c.
Proof.
  intros (Hlen & Hall & Hone).
  destruct new as [|c' [|c'' new]]; [| |cbn in Hlen; lia].
  - rewrite depth_nil.
    destruct (delta_cases c) as [[Ho _]|[[Hc _]|(_ & _ & Hd)]]; [| |lia].
    + specialize (Hone (or_introl Ho)). discriminate.
    + specialize (Hone (or_intror Hc)). discriminate.
  - apply Forall_cons in Hall as [[Ht _] _].
    rewrite depth_cons, depth_nil.
    destruct (delta_cases c) as [[Ho Hd]|[[Hc Hd]|(Ho & Hc & Hd)]].
    + rewrite Ho in Ht. cbn in Ht. rewrite (delta_close c' Ht). lia.
    + rewrite Hc in Ht. cbn in Ht. rewrite (delta_open c' Ht). lia.
    + destruct (inverse_type_plain _ Ho Hc) as [Ho' Hc'].
      rewrite <- Ht in Ho', Hc'. rewrite (delta_plain c' Ho' Hc'). lia.
Qed.

Lemma inverses_depth g news :
  Forall2 inverse_of g news -> depth (concat news) = - depth g.
Proof.
  induction 1 as [|c new g news Hc _ IH]; [reflexivity|].
  cbn [concat]. rewrite depth_app, depth_cons, IH, (inverse_of_depth c new Hc). lia.
Qed.

(** A prefix of what the inverters left is what the inverters of a
    prefix left. *)
Lemma inverses_prefix g news : forall m : nat,
  Forall2 inverse_of g news ->
  (m <= length (concat news))%nat ->
  exists j : nat,
    (j <= length g)%nat /\ take m (concat news) = concat (take j news) /\
    (m < length (concat news) -> j < length g)%nat /\
    (0 < m -> 0 < j)%nat.
Proof.
  intros m H. revert m.
  induction H as [|c new g news Hc _ IH]; intros m Hm.
  - exists 0%nat. cbn [concat length] in *. rewrite !take_nil.
    split; [lia|]. split; [reflexivity|]. split; lia.
  - cbn [concat] in Hm. rewrite length_app in Hm.
    destruct Hc as (Hlen & _).
    destruct m as [|m].
    + exists 0%nat. rewrite !take_0. cbn [concat length].
      split; [lia|]. split; [reflexivity|]. split; lia.
    + destruct new as [|c' [|c'' new]]; [| |cbn in Hlen; lia].
      * cbn [length app] in *. destruct (IH (S m)) as (j & Hj & Heq & Hlt & Hpos); [lia|].
        exists (S j). rewrite firstn_cons. cbn [concat app length].
        split; [lia|]. split; [exact Heq|]. split; [lia | lia].
      * cbn [length] in Hm. destruct (IH m) as (j & Hj & Heq & Hlt & Hpos); [lia|].
        exists (S j). cbn [concat]. rewrite firstn_cons. cbn [concat app].
        rewrite firstn_cons, Heq.
        split; [cbn; lia|]. split; [reflexivity|]. cbn [length].
        split; lia.
Qed.

Lemma inverses_form_entry (g : list UndoChunk) (news : list (list UndoChunk)) :
  first_entry g -> Forall2 inverse_of g news -> concat news <> [] ->
  first_entry (concat news).
Proof.
  intros (Hne & Hd & Hmin) Hall Hnew. split; [exact Hnew|]. split.
  - rewrite (inverses_depth g news Hall). lia.
  - intros m Hm.
    destruct (inverses_prefix g news m Hall ltac:(lia)) as (j & Hj & Heq & Hlt & Hpos).
    rewrite Heq.
    assert (Hall' : Forall2 inverse_of (take j g) (take j news))
      by (apply Forall2_take; exact Hall).
    rewrite (inverses_depth _ _ Hall').
    specialize (Hmin j ltac:(lia)). lia.
Qed.

(** X3. What the inverters of a complete entry leave on the target
    stream is, when it is not empty, a complete entry again: its depth
    returns to zero at its end and not before.  So the replay in the
    other direction takes it as one unit. *)
Theorem inverses_first_entry (g : list UndoChunk) (news : list (list UndoChunk)) :
  first_entry g -> Forall2 inverse_of g news -> concat news <> [] ->
  first_entry (concat news).
Proof. apply inverses_form_entry. Qed.

(** X4. [doUndo] then [doRedo].  With an empty redo stream and an undo
    stream that starts with a complete entry [g], a [doUndo] and a
    [doRedo] that complete leave the redo stream empty again: the
    [doRedo] consumes exactly the chunks the [doUndo] produced.  The rest
    of the undo stream is kept, with the inverses of those chunks pushed
    on it, and [diffCount] is back where it was, less one for every chunk
    of [g] whose inverter left nothing. *)
Theorem doUndo_then_doRedo (u u1 u2 : UndoHistory) (g rest : list UndoChunk) :
  chunks (m_undoStream u) = g ++ rest ->
  first_entry g ->
  chunks (m_redoStream u) = [] ->
  doUndo u = Ok u1 ->
  doRedo u1 = Ok u2 ->
  exists news backs,
    Forall2 inverse_of g news /\
    chunks (m_redoStream u1) = concat news /\
    Forall2 inverse_of (concat news) backs /\
    chunks (m_undoStream u2) = rest ++ concat backs /\
    chunks (m_redoStream u2) = [] /\
    m_diffCount u2
    = m_diffCount u - Z.of_nat (length g) + Z.of_nat (length (concat news)) /\
    m_diffSaved u2 = m_diffSaved u.
Proof.
  intros Hsrc Hg Hredo Hundo Hre.
  destruct (runUndo_entry_ok DO_UNDO u g rest u1 Hsrc Hg Hundo)
    as (Hs1 & Hd1 & Hv1 & news & Ht1 & Hall1).
  change (get_stream (source_of DO_UNDO) u1) with (m_undoStream u1) in Hs1.
  change (get_stream (target_of DO_UNDO) u1) with (m_redoStream u1) in Ht1.
  change (get_stream (target_of DO_UNDO) u) with (m_redoStream u) in Ht1.
  rewrite Hredo in Ht1. cbn [app] in Ht1. cbn [diff_step] in Hd1.
  destruct (decide (concat news = [])) as [Hnil|Hne].
  - rewrite Hnil in Ht1.
    assert (Hu2 : u2 = u1).
    { unfold doRedo in Hre. rewrite (runUndo_empty DO_REDO u1 Ht1) in Hre.
      congruence. }
    subst u2. exists news, []. rewrite Hnil. cbn [concat length].
    split; [exact Hall1|]. split; [exact Ht1|]. split; [constructor|].
    split; [rewrite app_nil_r; exact Hs1|]. split; [exact Ht1|]. split; [lia | exact Hv1].
  - assert (Hg' := inverses_form_entry g news Hg Hall1 Hne).
    assert (Hsrc' : chunks (get_stream (source_of DO_REDO) u1) = concat news ++ [])
      by (rewrite app_nil_r; exact Ht1).
    destruct (runUndo_entry_ok DO_REDO u1 (concat news) [] u2 Hsrc' Hg' Hre)
      as (Hs2 & Hd2 & Hv2 & backs & Ht2 & Hall2).
    change (get_stream (source_of DO_REDO) u2) with (m_redoStream u2) in Hs2.
    change (get_stream (target_of DO_REDO) u2) with (m_undoStream u2) in Ht2.
    change (get_stream (target_of DO_REDO) u1) with (m_undoStream u1) in Ht2.
    cbn [diff_step] in Hd2.
    exists news, backs.
    split; [exact Hall1|]. split; [exact Ht1|]. split; [exact Hall2|].
    split; [rewrite Ht2, Hs1; reflexivity|]. split; [exact Hs2|].
    split; [lia | congruence].
Qed.

End ReplayProperties.

(** * Further properties of the budget *)

Section BudgetProperties.

Context {collab : Collaborators}.

Lemma returns_from_le_length cs : forall level,
  returns_from level cs <= Z.of_nat (length cs).
Proof.
  induction cs as [|c cs IH]; intros level; cbn [returns_from length]; [lia|].
  specialize (IH (level + delta c)). rewrite Nat2Z.inj_succ.
  destruct (level + delta c =? 0); lia.
Qed.

(** X5. [count_undo_groups] is additive over a cut of the stream at a
    point where the depth is zero, and it never counts more groups than
    there are chunks. *)
Theorem count_undo_groups_app (a b : list UndoChunk) (m ma mb : Z) :
  depth a = 0 ->
  count_undo_groups (mkStream (a ++ b) m)
  = count_undo_groups (mkStream a ma) + count_undo_groups (mkStream b mb) /\
  0 <= count_undo_groups (mkStream (a ++ b) m) <= Z.of_nat (length (a ++ b)).
Proof.
  intros Hd. rewrite !count_undo_groups_returns. cbn [chunks].
  split.
  - rewrite returns_from_app, Hd. reflexivity.
  - split; [apply returns_from_nonneg | apply returns_from_le_length].
Qed.

(** X6. On an undo stream that is not empty and out of group,
    [discardTail] removes one whole top-level group from the tail end and
    nothing else: what is left is out of group again and
    [count_undo_groups] counts one group less. *)
Theorem discardTail_drops_one_group (u : UndoHistory) :
  chunks (m_undoStream u) <> [] ->
  out_of_group (m_undoStream u) = true ->
  same_frame u (discardTail u) /\
  out_of_group (m_undoStream (discardTail u)) = true /\
  count_undo_groups (m_undoStream (discardTail u))
  = count_undo_groups (m_undoStream u) - 1 /\
  exists gone,
    gone <> [] /\
    chunks (m_undoStream u) = chunks (m_undoStream (discardTail u)) ++ gone /\
    count_undo_groups (mkStream gone 0) = 1.
Proof.
  intros Hne Hout. apply out_of_group_depth in Hout.
  destruct (discardTail_one_group (m_undoStream u) Hne Hout)
    as (gone & Heq & Hg & Hgd & Hg1 & Hkd & Hcount).
  assert (Hu : m_undoStream (discardTail u)
               = discardTail_loop (length (chunks (m_undoStream u))) 0 (m_undoStream u))
    by reflexivity.
  rewrite <- Hu in Heq, Hkd, Hcount.
  split; [apply discardTail_frame|].
  split; [apply out_of_group_depth; exact Hkd|].
  split; [rewrite !count_undo_groups_returns; lia|].
  exists gone. split; [exact Hg|]. split; [exact Heq|].
  rewrite count_undo_groups_returns. exact Hg1.
Qed.

(** X7. When no suffix of the undo stream has depth zero (a CLOSE is
    missing its OPEN, or the other way round), [discardTail] does not
    stop before the stream is empty. *)
Theorem discardTail_unbalanced (u : UndoHistory) :
  (forall j : nat, (j < length (chunks (m_undoStream u)))%nat ->
                   depth (drop j (chunks (m_undoStream u))) <> 0) ->
  chunks (m_undoStream (discardTail u)) = [].
Proof.
  intros Hmin.
  destruct (discardTail_loop_spec (length (chunks (m_undoStream u))) 0 (m_undoStream u))
    as (gone & Heq & _ & Hstop); [lia|].
  change (discardTail_loop (length (chunks (m_undoStream u))) 0 (m_undoStream u))
    with (m_undoStream (discardTail u)) in Heq, Hstop.
  destruct Hstop as [[Hg Hz]|[Hnil _]]; [|exact Hnil].
  exfalso.
  apply (Hmin (length (chunks (m_undoStream (discardTail u))))).
  - assert (Hl := f_equal length Heq). rewrite length_app in Hl.
    destruct gone; [done | cbn [length] in Hl; lia].
  - rewrite Heq, drop_app_length. lia.
Qed.

(** While the stream is inside a group, or within the size limit,
    [updateUndo] leaves the undo stream alone. *)
Lemma updateUndo_loop_within fuel groups u :
  getMemSize (m_undoStream u) <= undo_size_limit ->
  updateUndo_loop fuel groups u = u.
Proof.
  intros Hm. destruct fuel as [|fuel]; [reflexivity|]. cbn [updateUndo_loop].
  replace (undo_size_limit <? getMemSize (m_undoStream u)) with false
    by (symmetry; apply Z.ltb_ge; exact Hm).
  rewrite andb_false_r. reflexivity.
Qed.

(** X8. [updateUndo] discards nothing while the undo stream is inside a
    group or its size is within the limit. *)
Theorem updateUndo_no_eviction (u : UndoHistory) :
  depth (chunks (m_undoStream u)) <> 0 \/
  getMemSize (m_undoStream u) <= undo_size_limit ->
  m_undoStream (updateUndo u) = m_undoStream u.
Proof.
  intros H. unfold updateUndo.
  set (u2 := clearRedo (set_diffCount (m_diffCount u + 1) u)).
  assert (Hundo : m_undoStream u2 = m_undoStream u)
    by (unfold u2; rewrite clearRedo_undoStream; reflexivity).
  destruct (out_of_group (m_undoStream u2)) eqn:Hout; [|exact Hundo].
  apply out_of_group_depth in Hout. rewrite Hundo in Hout.
  destruct H as [H|H]; [done|].
  rewrite updateUndo_loop_within by (rewrite Hundo; exact H). exact Hundo.
Qed.

(** The eviction loop stops with a group left. *)
Lemma updateUndo_loop_keeps fuel : forall groups u,
  depth (chunks (m_undoStream u)) = 0 ->
  groups = returns_from 0 (chunks (m_undoStream u)) ->
  chunks (m_undoStream u) <> [] ->
  chunks (m_undoStream (updateUndo_loop fuel groups u)) <> [].
Proof.
  induction fuel as [|fuel IH]; intros groups u Hd Hg Hne; [exact Hne|].
  cbn [updateUndo_loop].
  destruct ((1 <? groups) && (undo_size_limit <? getMemSize (m_undoStream u))) eqn:Hc;
    [|exact Hne].
  apply andb_true_iff in Hc as [Hgt _]. apply Z.ltb_lt in Hgt.
  destruct (discardTail_one_group (m_undoStream u) Hne Hd)
    as (gone & Heq & Hgne & Hgd & Hg1 & Hkd & Hcount).
  assert (Hu : m_undoStream (discardTail u)
               = discardTail_loop (length (chunks (m_undoStream u))) 0 (m_undoStream u))
    by reflexivity.
  rewrite <- Hu in Hkd, Hcount.
  apply IH; [exact Hkd | lia |].
  intros Hnil. rewrite Hnil in Hcount. cbn [returns_from] in Hcount. lia.
Qed.

Lemma updateUndo_keeps u :
  chunks (m_undoStream u) <> [] -> chunks (m_undoStream (updateUndo u)) <> [].
Proof.
  intros Hne. unfold updateUndo.
  set (u2 := clearRedo (set_diffCount (m_diffCount u + 1) u)).
  assert (Hundo : m_undoStream u2 = m_undoStream u)
    by (unfold u2; rewrite clearRedo_undoStream; reflexivity).
  destruct (out_of_group (m_undoStream u2)) eqn:Hout; [|rewrite Hundo; exact Hne].
  apply out_of_group_depth in Hout.
  apply updateUndo_loop_keeps;
    [exact Hout | apply count_undo_groups_returns | rewrite Hundo; exact Hne].
Qed.

(** X9. The size limit never costs the last group: after a recording
    entry point that completes there is something to undo, whatever the
    limit and the sizes of the chunks; and [updateUndo] alone never
    empties an undo stream that holds a chunk. *)
Theorem record_can_undo (r : Recording) (u u' : UndoHistory) :
  record r u = Ok u' ->
  canUndo u' = true /\
  (forall v, canUndo v = true -> canUndo (updateUndo v) = true).
Proof.
  intros H.
  assert (Hkeep : forall v, canUndo v = true -> canUndo (updateUndo v) = true).
  { intros v Hv. unfold canUndo, empty in *.
    assert (Hne : chunks (m_undoStream v) <> [])
      by (destruct (chunks (m_undoStream v)); [discriminate | done]).
    apply updateUndo_keeps in Hne.
    destruct (chunks (m_undoStream (updateUndo v))); [done | reflexivity]. }
  split; [|exact Hkeep].
  apply record_result in H as (u1 & c & (Hp & _) & _ & ->).
  apply Hkeep. unfold canUndo, empty. cbn [get_stream] in Hp. rewrite Hp.
  destruct (chunks (m_undoStream u)); reflexivity.
Qed.

End BudgetProperties.

(** * The plain setters of the sprite *)

Section SetterProperties.

Context {collab : Collaborators}.

Lemma setter_plain c id : setter_id c = Some id -> plain c.
Proof.
  unfold setter_id, plain. intros H.
  destruct (chunk_type c); try discriminate H; split; discriminate.
Qed.

(** The inverter of a setter chunk whose sprite is registered. *)
Lemma setter_invert_ok stream c u id s :
  setter_id c = Some id ->
  getObjectT_Sprite (m_objects u) id = Some s ->
  undo_actions_invert (chunk_type c) stream c u
  = Ok (set_objects
          (<[id := ObjSprite (setter_apply (chunk_body c) s)]> (m_objects u))
          (undo_chunk_new stream (chunk_type c) (sizeof_chunk (chunk_type c))
             (setter_backup (chunk_body c) s) u)).
Proof.
  unfold setter_id. intros Hid Hs.
  destruct c as [t size label body]. cbn [chunk_type chunk_body] in *.
  destruct t; try discriminate Hid; destruct body; try discriminate Hid;
    injection Hid as ->; cbn [undo_actions_invert];
    unfold chunk_set_imgtype_invert, chunk_set_imgtype_new,
           chunk_set_size_invert, chunk_set_size_new,
           chunk_set_frame_invert, chunk_set_frame_new,
           chunk_set_frames_invert, chunk_set_frames_new;
    cbn [chunk_body]; rewrite Hs; destruct stream; reflexivity.
Qed.

(** The inverter of a setter chunk whose sprite is gone. *)
Lemma setter_invert_gone stream c u id :
  setter_id c = Some id ->
  getObjectT_Sprite (m_objects u) id = None ->
  undo_actions_invert (chunk_type c) stream c u = Ok u.
Proof.
  unfold setter_id. intros Hid Hs.
  destruct c as [t size label body]. cbn [chunk_type chunk_body] in *.
  destruct t; try discriminate Hid; destruct body; try discriminate Hid;
    injection Hid as ->; cbn [undo_actions_invert];
    unfold chunk_set_imgtype_invert, chunk_set_size_invert,
           chunk_set_frame_invert, chunk_set_frames_invert;
    cbn [chunk_body]; rewrite Hs; reflexivity.
Qed.

(** [runUndo] on a stream that starts with a plain chunk is one turn. *)
Lemma runUndo_plain_head state u c rest :
  chunks (get_stream (source_of state) u) = c :: rest ->
  plain c ->
  runUndo state u
  = match runUndo_turn state 0 c
            (set_stream (source_of state)
               (mkStream rest (memSize (get_stream (source_of state) u) - chunk_size c)) u)
    with
    | Ok (_, u') => Ok u'
    | Raised msg (_, u') => Raised msg u'
    | Violation => Violation
    end.
Proof.
  intros Hsrc Hplain.
  rewrite (runUndo_entry_replay state u [c] rest Hsrc (first_entry_single c Hplain)).
  cbn [length replay]. rewrite (popChunk_head_cons _ c rest Hsrc).
  destruct (runUndo_turn _ _ _ _) as [[l u']|msg [l u']|]; reflexivity.
Qed.

(** X12. When the sprite a setter chunk names is no longer registered,
    [doUndo] or [doRedo] removes the chunk, counts it and does nothing
    else: no sprite changes and nothing is pushed on the other stream,
    so the step cannot be replayed back. *)
Theorem runUndo_setter_sprite_gone (state : UndoState) (u : UndoHistory)
    (c : UndoChunk) (rest : list UndoChunk) (id : ObjectId) :
  chunks (get_stream (source_of state) u) = c :: rest ->
  setter_id c = Some id ->
  getObjectT_Sprite (m_objects u) id = None ->
  exists u',
    runUndo state u = Ok u' /\
    chunks (get_stream (source_of state) u') = rest /\
    get_stream (target_of state) u' = get_stream (target_of state) u /\
    m_objects u' = m_objects u /\
    m_diffCount u' = m_diffCount u + diff_step state.
Proof.
  intros Hsrc Hid Hgone.
  rewrite (runUndo_plain_head state u c rest Hsrc (setter_plain c id Hid)).
  unfold runUndo_turn.
  rewrite (setter_invert_gone (target_of state) c _ id Hid)
    by (destruct state; exact Hgone).
  eexists. split; [reflexivity|].
  destruct state; cbn; repeat split; lia.
Qed.

Lemma setter_apply_backup body s :
  sprite_fits s ->
  setter_apply (setter_backup body s) (setter_apply body s) = s.
Proof.
  intros (Hw & Hh & Hf & Hn). destruct s as [t w h f n]. cbn in *.
  destruct body; cbn; unfold setImgType, setSize, setCurrentFrame, setTotalFrames, u32;
    cbn; rewrite ?Z.mod_small by lia; reflexivity.
Qed.

Lemma setter_id_backup t size label body s id :
  setter_id (mkChunk t size label body) = Some id ->
  forall size' label',
    setter_id (mkChunk t size' label' (setter_backup body s)) = Some id.
Proof.
  unfold setter_id. cbn [chunk_type chunk_body]. intros H size' label'.
  destruct t; try discriminate H; destruct body; try discriminate H; exact H.
Qed.

(** X13. [doUndo] on a setter chunk whose sprite is registered makes the
    setter call with the stored values and leaves on the redo stream one
    chunk of the same kind, under the same label, holding the values the
    sprite had.  When these are values of a [uint32_t], a [doRedo] right
    after it gives the objects back as they were before the [doUndo],
    with [diffCount] where it was and the redo stream empty again. *)
Theorem setter_doUndo_doRedo (u : UndoHistory) (c : UndoChunk)
    (rest : list UndoChunk) (id : ObjectId) (s : Sprite) :
  chunks (m_undoStream u) = c :: rest ->
  chunks (m_redoStream u) = [] ->
  setter_id c = Some id ->
  m_objects u !! id = Some (ObjSprite s) ->
  sprite_fits s ->
  exists u1 u2 c1 c2,
    doUndo u = Ok u1 /\
    getObjectT_Sprite (m_objects u1) id = Some (setter_apply (chunk_body c) s) /\
    chunks (m_redoStream u1) = [c1] /\
    chunk_type c1 = chunk_type c /\ chunk_label c1 = chunk_label c /\
    chunk_body c1 = setter_backup (chunk_body c) s /\
    doRedo u1 = Ok u2 /\
    m_objects u2 = m_objects u /\
    chunks (m_redoStream u2) = [] /\
    chunks (m_undoStream u2) = rest ++ [c2] /\
    chunk_type c2 = chunk_type c /\ chunk_label c2 = chunk_label c /\
    m_diffCount u2 = m_diffCount u.
Proof.
  intros Hsrc Hredo Hid Hobj Hfits.
  assert (Hs : getObjectT_Sprite (m_objects u) id = Some s)
    by (unfold getObjectT_Sprite; rewrite Hobj; reflexivity).
  destruct c as [t size label body].
  set (c1 := mkChunk t (sizeof_chunk t) label (setter_backup body s)).
  set (u1 := set_diffCount (m_diffCount u - 1)
               (set_objects (<[id := ObjSprite (setter_apply body s)]> (m_objects u))
                  (mkHistory (m_objects u)
                     (mkStream rest (memSize (m_undoStream u) - size))
                     (pushChunk c1 (m_redoStream u))
                     (m_diffCount u) (m_diffSaved u) (m_enabled u) (Some label)))).
  assert (Hundo : doUndo u = Ok u1).
  { unfold doUndo.
    rewrite (runUndo_plain_head DO_UNDO u _ rest Hsrc (setter_plain _ id Hid)).
    unfold runUndo_turn.
    rewrite (setter_invert_ok (target_of DO_UNDO) _ _ id s Hid) by exact Hs.
    reflexivity. }
  assert (Hid1 : setter_id c1 = Some id)
    by (apply (setter_id_backup t size label body s id Hid)).
  assert (Hs1 : getObjectT_Sprite (m_objects u1) id = Some (setter_apply body s)).
  { unfold getObjectT_Sprite, u1. cbn [m_objects set_diffCount set_objects].
    rewrite lookup_insert_eq. reflexivity. }
  assert (Hsrc1 : chunks (get_stream (source_of DO_REDO) u1) = c1 :: []).
  { change (get_stream (source_of DO_REDO) u1) with (m_redoStream u1).
    unfold u1, pushChunk. cbn [m_redoStream set_diffCount set_objects chunks].
    rewrite Hredo. reflexivity. }
  set (c2 := mkChunk t (sizeof_chunk t) label
               (setter_backup (setter_backup body s) (setter_apply body s))).
  set (u2 := set_diffCount (m_diffCount u1 + 1)
               (set_objects
                  (<[id := ObjSprite (setter_apply (setter_backup body s)
                                        (setter_apply body s))]> (m_objects u1))
                  (mkHistory (m_objects u1)
                     (pushChunk c2 (m_undoStream u1))
                     (mkStream [] (memSize (m_redoStream u1) - chunk_size c1))
                     (m_diffCount u1) (m_diffSaved u1) (m_enabled u1) (Some label)))).
  assert (Hre : doRedo u1 = Ok u2).
  { unfold doRedo.
    rewrite (runUndo_plain_head DO_REDO u1 c1 [] Hsrc1 (setter_plain _ id Hid1)).
    unfold runUndo_turn.
    rewrite (setter_invert_ok (target_of DO_REDO) c1 _ id (setter_apply body s) Hid1)
      by exact Hs1.
    reflexivity. }
  exists u1, u2, c1, c2.
  split; [exact Hundo|]. split; [exact Hs1|].
  split; [unfold u1, pushChunk; cbn [m_redoStream set_diffCount set_objects chunks];
          rewrite Hredo; reflexivity|].
  split; [reflexivity|]. split; [reflexivity|]. split; [reflexivity|].
  split; [exact Hre|].
  split.
  { unfold u2, u1. cbn [m_objects set_diffCount set_objects].
    rewrite insert_insert_eq, (setter_apply_backup body s Hfits).
    apply insert_id. exact Hobj. }
  split; [reflexivity|]. split; [reflexivity|].
  split; [reflexivity|]. split; [reflexivity|].
  unfold u2, u1. cbn. lia.
Qed.

End SetterProperties.

(** * The IMAGE chunk, there and back *)

Lemma image_ext (a b : Image) :
  image_imgtype a = image_imgtype b -> image_w a = image_w b ->
  image_h a = image_h b -> image_mask_color a = image_mask_color b ->
  image_line a = image_line b -> a = b.
Proof. destruct a, b; cbn; congruence. Qed.

(** The restore loop changes a scan line only between the first byte of
    pixel [x] and [size] bytes further on. *)
Lemma restore_lines_outside x y size vs : forall image ptr (r : nat) row',
  0 <= size ->
  (Z.to_nat size * length vs <= length ptr)%nat ->
  Forall (fun l => (Z.to_nat (image_line_size image x) + Z.to_nat size <= length l)%nat)
         (image_line image) ->
  image_line (restore_lines image x y size ptr vs) !! r = Some row' ->
  exists row,
    image_line image !! r = Some row /\
    take (Z.to_nat (image_line_size image x)) row'
    = take (Z.to_nat (image_line_size image x)) row /\
    drop (Z.to_nat (image_line_size image x) + Z.to_nat size) row'
    = drop (Z.to_nat (image_line_size image x) + Z.to_nat size) row /\
    length row' = length row.
Proof.
  induction vs as [|v vs IH]; intros image ptr r row' Hsize Hptr Hfit Hrow'.
  - exists row'. split; [exact Hrow'|]. split; [reflexivity|]. split; reflexivity.
  - cbn [restore_lines] in Hrow'. cbn [length] in Hptr.
    set (bytes := take (Z.to_nat size) ptr) in *.
    set (image1 := write_line image x (y + v) bytes) in *.
    set (ra := Z.to_nat (y + v)).
    set (off := Z.to_nat (image_line_size image x)) in *.
    assert (Hoff1 : Z.to_nat (image_line_size image1 x) = off) by reflexivity.
    assert (Hbytes : length bytes = Z.to_nat size)
      by (unfold bytes; rewrite length_take; lia).
    set (row1 := take off (image_line image !!! ra) ++ bytes ++
                 drop (off + length bytes) (image_line image !!! ra)).
    assert (Hlines1 : image_line image1 = <[ra := row1]> (image_line image))
      by reflexivity.
    assert (Hstep : forall (i : nat) rowm, image_line image1 !! i = Some rowm ->
              exists row, image_line image !! i = Some row /\
                          take off rowm = take off row /\
                          drop (off + Z.to_nat size) rowm = drop (off + Z.to_nat size) row /\
                          length rowm = length row).
    { intros i rowm Hm. rewrite Hlines1 in Hm.
      destruct (decide (i = ra)) as [->|Hne].
      - assert (Hra : (ra < length (image_line image))%nat).
        { apply lookup_lt_Some in Hm. rewrite length_insert in Hm. exact Hm. }
        rewrite list_lookup_insert_eq in Hm by exact Hra.
        apply (inj Some) in Hm. subst rowm.
        destruct (lookup_lt_is_Some_2 _ _ Hra) as [row Hrow].
        exists row. split; [exact Hrow|].
        assert (Hlen : (off + Z.to_nat size <= length row)%nat).
        { rewrite Forall_forall in Hfit. apply Hfit.
          apply list_elem_of_lookup. exists ra. exact Hrow. }
        unfold row1. rewrite (list_lookup_total_correct _ _ _ Hrow), Hbytes.
        split; [apply take_app_length'; rewrite length_take; lia|].
        split.
        + rewrite app_assoc. apply drop_app_length'.
          rewrite length_app, length_take. lia.
        + rewrite !length_app, length_take, length_drop. lia.
      - rewrite list_lookup_insert_ne in Hm by congruence.
        exists rowm. split; [exact Hm|]. split; [reflexivity|]. split; reflexivity. }
    assert (Hfit1 : Forall (fun l => (Z.to_nat (image_line_size image1 x)
                                      + Z.to_nat size <= length l)%nat)
                           (image_line image1)).
    { rewrite Hoff1. apply Forall_forall. intros l Hl.
      apply list_elem_of_lookup in Hl as [i Hi].
      destruct (Hstep i l Hi) as (row & Hrow & _ & _ & Hlen).
      rewrite Hlen. rewrite Forall_forall in Hfit. apply Hfit.
      apply list_elem_of_lookup. exists i. exact Hrow. }
    destruct (IH image1 (drop (Z.to_nat size) ptr) r row' Hsize
                ltac:(rewrite length_drop; lia) Hfit1 Hrow')
      as (rowm & Hm & Ht & Hd & Hl).
    rewrite Hoff1 in Ht, Hd.
    destruct (Hstep r rowm Hm) as (row & Hrow & Ht' & Hd' & Hl').
    exists row. split; [exact Hrow|].
    split; [congruence|]. split; congruence.
Qed.

(** Fed with one block of [size] bytes per line, the restore loop puts
    block [j] into line [j] of the rectangle. *)
Lemma restore_lines_chunks x y size (g : Z -> list Z) n : forall a image (j : nat) row,
  0 <= y -> 0 <= a -> 0 <= size ->
  (forall v, a <= v < a + Z.of_nat n -> length (g v) = Z.to_nat size) ->
  (j < n)%nat ->
  image_line image !! (Z.to_nat (y + a) + j)%nat = Some row ->
  image_line (restore_lines image x y size
                (concat (map g (seqZ a (Z.of_nat n)))) (seqZ a (Z.of_nat n)))
    !! (Z.to_nat (y + a) + j)%nat
  = Some (take (Z.to_nat (image_line_size image x)) row ++ g (a + Z.of_nat j) ++
          drop (Z.to_nat (image_line_size image x) + Z.to_nat size) row).
Proof.
  induction n as [|n IH]; intros a image j row Hy Ha Hsize Hg Hj Hrow; [lia|].
  rewrite (seqZ_cons a (Z.of_nat (S n))) by lia.
  replace (Z.pred (Z.of_nat (S n))) with (Z.of_nat n) by lia.
  cbn [map concat restore_lines].
  assert (Hga : length (g a) = Z.to_nat size) by (apply Hg; lia).
  rewrite (take_app_length' (g a)) by lia.
  rewrite (drop_app_length' (g a)) by lia.
  set (image1 := write_line image x (y + a) (g a)).
  set (ra := Z.to_nat (y + a)) in *.
  set (off := Z.to_nat (image_line_size image x)).
  assert (Hlines1 : image_line image1
                    = <[ra := take off (image_line image !!! ra) ++ g a ++
                              drop (off + length (g a)) (image_line image !!! ra)]>
                        (image_line image)) by reflexivity.
  destruct j as [|j].
  - rewrite Nat.add_0_r in Hrow |- *.
    rewrite restore_lines_other
      by (intros v Hv; apply elem_of_seqZ in Hv; unfold ra; lia).
    rewrite Hlines1, list_lookup_insert_eq by (apply lookup_lt_Some in Hrow; exact Hrow).
    rewrite (list_lookup_total_correct _ _ _ Hrow), Hga.
    replace (a + Z.of_nat 0) with a by lia. reflexivity.
  - replace (ra + S j)%nat with (Z.to_nat (y + Z.succ a) + j)%nat in Hrow |- *
      by (unfold ra; lia).
    replace (a + Z.of_nat (S j)) with (Z.succ a + Z.of_nat j) by lia.
    apply (IH (Z.succ a) image1 j row); try lia.
    + intros v Hv. apply Hg. lia.
    + rewrite Hlines1, list_lookup_insert_ne by (unfold ra; lia). exact Hrow.
Qed.

(** Restoring a rectangle and then restoring what it held before gives
    the image back. *)
Lemma restore_copy_rect image x y w h data :
  image_wf image -> rect_inside image x y w h ->
  Z.of_nat (length data) = image_line_size image w * h ->
  restore_rect (restore_rect image x y w h data) x y w h (copy_rect image x y w h)
  = image.
Proof.
  intros (Hw & Hh & Hlen & Hrows) (H1 & H2 & H3 & H4 & H5 & H6) Hdata.
  unfold restore_rect, copy_rect.
  set (size := image_line_size image w).
  set (image1 := restore_lines image x y size data (seqZ 0 h)).
  assert (Htype1 : image_imgtype image1 = image_imgtype image)
    by apply restore_lines_imgtype.
  rewrite (image_line_size_imgtype image1 image w Htype1). fold size.
  set (g := fun v => read_line image x (y + v) size).
  set (off := Z.to_nat (image_line_size image x)).
  assert (Hsz : 0 <= size) by (apply image_line_size_nonneg; lia).
  assert (Hoff : 0 <= image_line_size image x) by (apply image_line_size_nonneg; lia).
  assert (Hsum : image_line_size image x + size
                 <= image_line_size image (image_w image)).
  { unfold size. rewrite <- image_line_size_add. apply image_line_size_mono. lia. }
  assert (Hfit : Forall (fun l => (off + Z.to_nat size <= length l)%nat)
                        (image_line image)).
  { eapply Forall_impl; [exact Hrows|]. intros l Hl. cbn in Hl. unfold off. lia. }
  assert (Hlen1 : length (seqZ 0 h) = Z.to_nat h) by apply length_seqZ.
  assert (Hout : forall (r : nat) row', image_line image1 !! r = Some row' ->
            exists row, image_line image !! r = Some row /\
                        take off row' = take off row /\
                        drop (off + Z.to_nat size) row' = drop (off + Z.to_nat size) row /\
                        length row' = length row).
  { intros r row' Hr.
    apply (restore_lines_outside x y size (seqZ 0 h) image data r row' Hsz);
      [rewrite Hlen1; nia | exact Hfit | exact Hr]. }
  destruct (restore_lines_geometry x y size (seqZ 0 h) image data)
    as (Gw & Gh & Gm & Gl). fold image1 in Gw, Gh, Gm, Gl.
  set (image2 := restore_lines image1 x y size (concat (map g (seqZ 0 h))) (seqZ 0 h)).
  destruct (restore_lines_geometry x y size (seqZ 0 h) image1 (concat (map g (seqZ 0 h))))
    as (Gw2 & Gh2 & Gm2 & Gl2). fold image2 in Gw2, Gh2, Gm2, Gl2.
  apply image_ext; [unfold image2; rewrite restore_lines_imgtype; exact Htype1
                   | congruence | congruence | congruence |].
  apply list_eq. intros r.
  destruct (decide (Z.to_nat y <= r < Z.to_nat y + Z.to_nat h)%nat) as [Hin|Hnot].
  - assert (Hr : (r < length (image_line image))%nat) by lia.
    destruct (lookup_lt_is_Some_2 _ _ Hr) as [row Hrow].
    assert (Hr1 : (r < length (image_line image1))%nat) by lia.
    destruct (lookup_lt_is_Some_2 _ _ Hr1) as [row1 Hrow1].
    destruct (Hout r row1 Hrow1) as (row0 & Hrow0 & Ht & Hd & Hl).
    assert (row0 = row) by congruence. subst row0.
    assert (Hrowlen : length row = Z.to_nat (image_line_size image (image_w image))).
    { rewrite Forall_forall in Hrows. apply Hrows.
      apply list_elem_of_lookup. exists r. exact Hrow. }
    set (j := (r - Z.to_nat y)%nat).
    assert (Hrj : r = (Z.to_nat (y + 0) + j)%nat) by (unfold j; lia).
    unfold image2. rewrite <- (Z2Nat.id h) by lia. rewrite Hrj.
    rewrite (restore_lines_chunks x y size g (Z.to_nat h) 0 image1 j row1);
      try lia.
    + rewrite <- Hrj, Hrow.
      rewrite (image_line_size_imgtype image1 image x Htype1). fold off.
      rewrite Ht, Hd. f_equal.
      unfold g, read_line. fold off.
      replace (Z.to_nat (y + (0 + Z.of_nat j))) with r by (unfold j; lia).
      rewrite (list_lookup_total_correct _ _ _ Hrow).
      rewrite <- (take_drop off row) at 4.
      f_equal.
      rewrite <- (take_drop (Z.to_nat size) (drop off row)) at 2.
      f_equal. rewrite drop_drop. reflexivity.
    + intros v Hv. unfold g, read_line. fold off.
      assert (Hrv : (Z.to_nat (y + v) < length (image_line image))%nat) by lia.
      destruct (lookup_lt_is_Some_2 _ _ Hrv) as [rowv Hrowv].
      rewrite (list_lookup_total_correct _ _ _ Hrowv).
      assert (Hvl : length rowv = Z.to_nat (image_line_size image (image_w image))).
      { rewrite Forall_forall in Hrows. apply Hrows.
        apply list_elem_of_lookup. exists (Z.to_nat (y + v)). exact Hrowv. }
      rewrite length_take, length_drop. unfold off. lia.
    + rewrite <- Hrj. exact Hrow1.
  - unfold image2.
    rewrite restore_lines_other
      by (intros v Hv; apply elem_of_seqZ in Hv; lia).
    unfold image1.
    rewrite restore_lines_other
      by (intros v Hv; apply elem_of_seqZ in Hv; lia).
    reflexivity.
Qed.

Section ImageRoundTrip.

Context {collab : Collaborators}.

Lemma m_objects_undo_chunk_new stream type size body u :
  m_objects (undo_chunk_new stream type size body u) = m_objects u.
Proof. destruct stream; reflexivity. Qed.

Lemma chunks_undo_chunk_new stream type size body u :
  exists c,
    chunks (get_stream stream (undo_chunk_new stream type size body u))
    = chunks (get_stream stream u) ++ [c] /\
    chunk_type c = type /\ chunk_body c = body.
Proof. eexists (mkChunk _ _ _ _). destruct stream; repeat split. Qed.

(** X14. Inverting an IMAGE chunk and then the chunk this leaves gives
    the image back byte for byte, and the second chunk left holds what
    the first one held: on a well-formed image of the stored type, with
    the stored rectangle inside it and as many stored bytes as the
    rectangle has, undo followed by redo changes no pixel. *)
Theorem chunk_image_invert_twice (s1 s2 : StreamRef) (c : UndoChunk) (u : UndoHistory)
    (id : ObjectId) (x y w h : Z) (data : list Z) (image : Image) :
  chunk_body c = BodyImage id (image_imgtype image) x y w h data ->
  m_objects u !! id = Some (ObjImage image) ->
  image_wf image ->
  rect_inside image x y w h ->
  x < 65536 -> y < 65536 -> w < 65536 -> h < 65536 ->
  Z.of_nat (length data) = image_line_size image w * h ->
  exists u1 c1 u2 c2,
    chunk_image_invert s1 c u = Ok u1 /\
    chunks (get_stream s1 u1) = chunks (get_stream s1 u) ++ [c1] /\
    getObjectT_Image (m_objects u1) id = Some (restore_rect image x y w h data) /\
    chunk_image_invert s2 c1 u1 = Ok u2 /\
    chunks (get_stream s2 u2) = chunks (get_stream s2 u1) ++ [c2] /\
    chunk_body c2 = chunk_body c /\
    m_objects u2 = m_objects u.
Proof.
  intros Hbody Hobj Hwf Hrect Hx Hy Hw Hh Hdata.
  assert (Himage : getObjectT_Image (m_objects u) id = Some image)
    by (unfold getObjectT_Image; rewrite Hobj; reflexivity).
  assert (Hr := Hrect). destruct Hr as (R1 & R2 & R3 & R4 & R5 & R6).
  assert (Hu16 : u16 x = x /\ u16 y = y /\ u16 w = w /\ u16 h = h)
    by (unfold u16; rewrite !Z.mod_small by lia; repeat split).
  destruct Hu16 as (Ux & Uy & Uw & Uh).
  set (image1 := restore_rect image x y w h data).
  assert (Htype1 : image_imgtype image1 = image_imgtype image)
    by apply restore_lines_imgtype.
  assert (Hrect1 : rect_inside image1 x y w h).
  { destruct (restore_lines_geometry x y (image_line_size image w) (seqZ 0 h) image data)
      as (Gw & Gh & _).
    unfold rect_inside, image1, restore_rect. rewrite Gw, Gh. exact Hrect. }
  (* the first inversion *)
  set (v1 := undo_chunk_new s1 UNDO_TYPE_IMAGE
               (sizeof_chunk UNDO_TYPE_IMAGE + image_line_size image w * h)
               (BodyImage id (image_imgtype image) x y w h (copy_rect image x y w h)) u).
  set (u1 := set_objects (<[id := ObjImage image1]> (m_objects v1)) v1).
  assert (Hrun1 : chunk_image_invert s1 c u = Ok u1).
  { unfold chunk_image_invert. rewrite Hbody, Himage.
    destruct (decide (image_imgtype image <> image_imgtype image)) as [Hne|_]; [done|].
    rewrite (chunk_image_new_ok s1 id image x y w h u Himage Hrect).
    rewrite Ux, Uy, Uw, Uh. reflexivity. }
  destruct (chunks_undo_chunk_new s1 UNDO_TYPE_IMAGE
              (sizeof_chunk UNDO_TYPE_IMAGE + image_line_size image w * h)
              (BodyImage id (image_imgtype image) x y w h (copy_rect image x y w h)) u)
    as (c1 & Hpush1 & _ & Hbody1).
  fold v1 in Hpush1.
  assert (Hobj1 : m_objects u1 = <[id := ObjImage image1]> (m_objects u)).
  { unfold u1. cbn [m_objects set_objects]. unfold v1.
    rewrite m_objects_undo_chunk_new. reflexivity. }
  assert (Himage1 : getObjectT_Image (m_objects u1) id = Some image1).
  { unfold getObjectT_Image. rewrite Hobj1, lookup_insert_eq. reflexivity. }
  (* the second inversion *)
  set (v2 := undo_chunk_new s2 UNDO_TYPE_IMAGE
               (sizeof_chunk UNDO_TYPE_IMAGE + image_line_size image1 w * h)
               (BodyImage id (image_imgtype image1) x y w h (copy_rect image1 x y w h))
               u1).
  set (u2 := set_objects
               (<[id := ObjImage (restore_rect image1 x y w h (copy_rect image x y w h))]>
                  (m_objects v2)) v2).
  assert (Hrun2 : chunk_image_invert s2 c1 u1 = Ok u2).
  { unfold chunk_image_invert. rewrite Hbody1, Himage1.
    destruct (decide (image_imgtype image1 <> image_imgtype image)) as [Hne|_]; [done|].
    rewrite (chunk_image_new_ok s2 id image1 x y w h u1 Himage1 Hrect1).
    rewrite Ux, Uy, Uw, Uh. reflexivity. }
  destruct (chunks_undo_chunk_new s2 UNDO_TYPE_IMAGE
              (sizeof_chunk UNDO_TYPE_IMAGE + image_line_size image1 w * h)
              (BodyImage id (image_imgtype image1) x y w h (copy_rect image1 x y w h)) u1)
    as (c2 & Hpush2 & _ & Hbody2).
  fold v2 in Hpush2.
  exists u1, c1, u2, c2.
  split; [exact Hrun1|].
  split; [unfold u1; destruct s1; exact Hpush1|].
  split; [exact Himage1|].
  split; [exact Hrun2|].
  split; [unfold u2; destruct s2; exact Hpush2|].
  split.
  - rewrite Hbody2, Hbody, Htype1. unfold image1.
    rewrite (copy_restore_rect image x y w h data Hwf Hrect Hdata). reflexivity.
  - unfold u2. cbn [m_objects set_objects]. unfold v2.
    rewrite m_objects_undo_chunk_new, Hobj1, insert_insert_eq.
    unfold image1. rewrite (restore_copy_rect image x y w h data Hwf Hrect Hdata).
    apply insert_id. exact Hobj.
Qed.

End ImageRoundTrip.

(** * Raw data, written and read back *)

Lemma read_write_uint8 v rest :
  read_raw_uint8 (write_raw_uint8 v ++ rest) = Some (u8 v, rest).
Proof. reflexivity. Qed.

Lemma land_255 a : Z.land a 255 = a mod 256.
Proof. change 255 with (Z.ones 8). rewrite Z.land_ones by lia. reflexivity. Qed.

Lemma read_write_uint16 v rest :
  read_raw_uint16 (write_raw_uint16 v ++ rest) = Some (u16 v, rest).
Proof.
  unfold write_raw_uint16, read_raw_uint16. cbn [app].
  rewrite !land_255, Z.shiftr_div_pow2 by lia.
  assert (H : 0 <= u16 v < 65536) by (unfold u16; apply Z.mod_pos_bound; lia).
  do 2 f_equal. change (2 ^ 8) with 256.
  generalize dependent (u16 v). intros a Ha.
  Z.to_euclidean_division_equations. lia.
Qed.

Lemma read_write_uint32 v rest :
  read_raw_uint32 (write_raw_uint32 v ++ rest) = Some (u32 v, rest).
Proof.
  unfold write_raw_uint32, read_raw_uint32. cbn [app].
  rewrite !land_255, !Z.shiftr_div_pow2 by lia.
  assert (H : 0 <= u32 v < 4294967296) by (unfold u32; apply Z.mod_pos_bound; lia).
  do 2 f_equal.
  change (2 ^ 8) with 256. change (2 ^ 16) with 65536. change (2 ^ 24) with 16777216.
  generalize dependent (u32 v). intros a Ha.
  Z.to_euclidean_division_equations. lia.
Qed.

Lemma read_write_int16 v rest :
  -32768 <= v < 32768 ->
  read_raw_int16 (write_raw_int16 v ++ rest) = Some (v, rest).
Proof.
  intros Hv. unfold read_raw_int16, write_raw_int16.
  rewrite read_write_uint16. cbn [mbind option_bind].
  do 2 f_equal. unfold u16.
  destruct (v mod 65536 <? 32768) eqn:Hlt;
    [apply Z.ltb_lt in Hlt | apply Z.ltb_ge in Hlt];
    Z.to_euclidean_division_equations; lia.
Qed.

Lemma read_write_data (data rest : list Z) :
  read_raw_data (Z.of_nat (length data))
    (write_raw_data data (Z.of_nat (length data)) ++ rest)
  = Some (data, rest).
Proof.
  unfold read_raw_data, write_raw_data. rewrite Nat2Z.id, firstn_all.
  destruct (decide (length data <= length (data ++ rest))%nat) as [_|Hn];
    [|rewrite length_app in Hn; lia].
  rewrite take_app_length, drop_app_length. reflexivity.
Qed.

(** X15. What the [write_raw_*] macros store, the [read_raw_*] macros
    read back, with the cursor behind it: an unsigned value comes back
    reduced modulo its width, a value of an [int16_t] comes back with
    its sign, and a block of bytes comes back as it is. *)
Theorem raw_macros_round_trip (v s : Z) (data rest : list Z) :
  -32768 <= s < 32768 ->
  read_raw_uint8 (write_raw_uint8 v ++ rest) = Some (u8 v, rest) /\
  read_raw_uint16 (write_raw_uint16 v ++ rest) = Some (u16 v, rest) /\
  read_raw_uint32 (write_raw_uint32 v ++ rest) = Some (u32 v, rest) /\
  read_raw_int16 (write_raw_int16 s ++ rest) = Some (s, rest) /\
  read_raw_data (Z.of_nat (length data))
    (write_raw_data data (Z.of_nat (length data)) ++ rest)
  = Some (data, rest).
Proof.
  intros Hs.
  split; [apply read_write_uint8|]. split; [apply read_write_uint16|].
  split; [apply read_write_uint32|]. split; [apply read_write_int16; exact Hs|].
  apply read_write_data.
Qed.

Lemma u16_small v : 0 <= v < 65536 -> u16 v = v.
Proof. intros H. unfold u16. apply Z.mod_small. lia. Qed.

Lemma u32_small v : 0 <= v < 4294967296 -> u32 v = v.
Proof. intros H. unfold u32. apply Z.mod_small. lia. Qed.

(** X16. A cel whose fields are values of the types they are stored in
    is read back as it was written, under the same id, and
    [write_raw_cel] stores [get_raw_cel_size] bytes. *)
Theorem raw_cel_round_trip (cel : Cel) (rest : list Z) :
  cel_fits cel ->
  read_raw_cel (write_raw_cel cel ++ rest) = Some cel /\
  Z.of_nat (length (write_raw_cel cel)) = get_raw_cel_size cel.
Proof.
  intros (Hid & Hf & Hi & Hx & Hy & Ho). split; [|reflexivity].
  unfold write_raw_cel, read_raw_cel. rewrite <- !app_assoc.
  rewrite read_write_uint32. cbn [mbind option_bind].
  rewrite read_write_uint16. cbn [mbind option_bind].
  rewrite read_write_uint16. cbn [mbind option_bind].
  rewrite read_write_int16 by exact Hx. cbn [mbind option_bind].
  rewrite read_write_int16 by exact Hy. cbn [mbind option_bind].
  rewrite read_write_uint16. cbn [mbind option_bind].
  rewrite (u32_small _ Hid), (u16_small _ Hf), (u16_small _ Hi), (u16_small _ Ho).
  destruct cel; reflexivity.
Qed.

Section RawReadProperties.

Variable imgtype_code : ImgType -> Z.
Variable imgtype_of_code : Z -> ImgType.

(** [image_new] and [Dirty] make of the byte stored for a type that
    type again. *)
Hypothesis imgtype_of_code_code :
  forall t, imgtype_of_code (u8 (imgtype_code t)) = t.

Lemma read_raw_lines_concat size (lines : list (list Z)) rest :
  Forall (fun l => length l = Z.to_nat size) lines ->
  read_raw_lines (length lines) size (concat lines ++ rest) = Some lines.
Proof.
  induction lines as [|l lines IH]; intros Hall; [reflexivity|].
  apply Forall_cons in Hall as [Hl Hall].
  cbn [length read_raw_lines concat]. rewrite <- app_assoc.
  unfold read_raw_data.
  destruct (decide (Z.to_nat size <= length (l ++ concat lines ++ rest))%nat) as [_|Hn];
    [|rewrite length_app in Hn; lia].
  rewrite take_app_length', drop_app_length' by lia.
  cbn [mbind option_bind]. rewrite (IH Hall). reflexivity.
Qed.

(** The lines [write_raw_image] stores are the lines of the image. *)
Lemma written_lines (line : list (list Z)) size h :
  length line = Z.to_nat h -> 0 <= h ->
  Forall (fun l => length l = Z.to_nat size) line ->
  map (fun c => write_raw_data (line !!! Z.to_nat c) size) (seqZ 0 h) = line.
Proof.
  intros Hlen Hh Hall. apply list_eq. intros i.
  rewrite list_lookup_fmap.
  destruct (decide (i < length line)%nat) as [Hi|Hi].
  - rewrite lookup_seqZ_lt by lia. cbn [fmap option_fmap option_map].
    rewrite Z.add_0_l, Nat2Z.id.
    destruct (lookup_lt_is_Some_2 _ _ Hi) as [l Hl].
    rewrite (list_lookup_total_correct _ _ _ Hl), Hl.
    unfold write_raw_data. rewrite take_ge; [reflexivity|].
    rewrite Forall_forall in Hall.
    rewrite (Hall l); [lia|]. apply list_elem_of_lookup. exists i. exact Hl.
  - rewrite lookup_seqZ_ge by lia. rewrite lookup_ge_None_2 by lia. reflexivity.
Qed.

(** X17. A well-formed image written under an id that is not 0 is read
    back as it was, pixel for pixel and under the same id, when its
    width, height and mask colour are values of the types they are
    stored in; and [write_raw_image] stores [get_raw_image_size] bytes,
    the number the caller moves its cursor by. *)
Theorem raw_image_round_trip (image_id : ObjectId) (image : Image) (rest : list Z) :
  0 < image_id < 4294967296 ->
  image_wf image ->
  image_fits image ->
  read_raw_image imgtype_of_code (write_raw_image imgtype_code image_id image ++ rest)
  = Some (Some (image_id, image)) /\
  Z.of_nat (length (write_raw_image imgtype_code image_id image))
  = get_raw_image_size image.
Proof.
  intros Hid Hwf Hfits.
  split; [|apply write_raw_image_length; exact Hwf].
  destruct Hwf as (Hw & Hh & Hlen & Hrows). destruct Hfits as (Fw & Fh & Fm).
  unfold write_raw_image, read_raw_image. rewrite <- !app_assoc.
  rewrite read_write_uint32. cbn [mbind option_bind].
  rewrite (u32_small image_id) by lia.
  rewrite read_write_uint8. cbn [mbind option_bind].
  rewrite read_write_uint16. cbn [mbind option_bind].
  rewrite read_write_uint16. cbn [mbind option_bind].
  rewrite read_write_uint32. cbn [mbind option_bind].
  rewrite imgtype_of_code_code, (u16_small (image_w image)), (u16_small (image_h image)),
    (u32_small (image_mask_color image)) by lia.
  cbn [image_w image_h].
  replace (image_line_size (mkImage (image_imgtype image) (image_w image)
                              (image_h image) 0 []) (image_w image))
    with (image_line_size image (image_w image)) by reflexivity.
  rewrite (written_lines (image_line image) _ (image_h image) Hlen Hh Hrows).
  rewrite <- Hlen.
  rewrite (read_raw_lines_concat _ (image_line image) rest Hrows).
  cbn [mbind option_bind]. case_decide; [lia|]. destruct image; reflexivity.
Qed.


Lemma read_raw_entries_concat (entries : list Z) rest :
  Forall (fun color => 0 <= color < 4294967296) entries ->
  read_raw_entries (length entries) (concat (map write_raw_uint32 entries) ++ rest)
  = Some entries.
Proof.
  induction entries as [|color entries IH]; intros Hall; [reflexivity|].
  apply Forall_cons in Hall as [Hc Hall].
  cbn [length read_raw_entries map concat]. rewrite <- app_assoc.
  rewrite read_write_uint32. cbn [mbind option_bind].
  rewrite (IH Hall), (u32_small color Hc). reflexivity.
Qed.

Lemma length_concat_uint32 (entries : list Z) :
  length (concat (map write_raw_uint32 entries)) = (4 * length entries)%nat.
Proof.
  induction entries as [|color entries IH]; [reflexivity|].
  cbn [map concat]. rewrite length_app, IH. cbn [length write_raw_uint32]. lia.
Qed.

(** X19. [write_raw_palette] stores [get_raw_palette_size] bytes for
    every palette, and a palette whose frame, size and entries are values
    of the types they are stored in is read back as it was. *)
Theorem raw_palette_round_trip (palette : Palette) (rest : list Z) :
  palette_fits palette ->
  read_raw_palette (write_raw_palette palette ++ rest) = Some palette /\
  Z.of_nat (length (write_raw_palette palette)) = get_raw_palette_size palette.
Proof.
  intros (Hf & Hn & Hall). split.
  - unfold write_raw_palette, read_raw_palette. rewrite <- !app_assoc.
    rewrite read_write_uint16. cbn [mbind option_bind].
    rewrite read_write_uint16. cbn [mbind option_bind].
    rewrite (u16_small (palette_frame palette) Hf), u16_small, Nat2Z.id by lia.
    rewrite (read_raw_entries_concat _ rest Hall). cbn [mbind option_bind].
    destruct palette; reflexivity.
  - unfold write_raw_palette, get_raw_palette_size.
    rewrite !length_app, length_concat_uint32.
    cbn [length write_raw_uint16]. lia.
Qed.

Lemma read_raw_data_app size (data rest : list Z) :
  length data = Z.to_nat size ->
  read_raw_data size (data ++ rest) = Some (data, rest).
Proof.
  intros Hlen. unfold read_raw_data.
  destruct (decide (Z.to_nat size <= length (data ++ rest))%nat) as [_|Hn];
    [|rewrite length_app in Hn; lia].
  rewrite take_app_length', drop_app_length' by lia. reflexivity.
Qed.

Lemma write_raw_col_fits t col :
  col_fits t col ->
  write_raw_col t col
  = write_raw_uint16 (col_x col) ++ write_raw_uint16 (col_w col) ++ col_data col.
Proof.
  intros (_ & _ & _ & Hd). unfold write_raw_col, write_raw_data.
  rewrite take_ge by lia. reflexivity.
Qed.

Lemma read_raw_cols_concat t (cols : list DirtyCol) rest :
  Forall (col_fits t) cols ->
  read_raw_cols t (length cols) (concat (map (write_raw_col t) cols) ++ rest)
  = Some (cols, rest).
Proof.
  induction cols as [|col cols IH]; intros Hall; [reflexivity|].
  apply Forall_cons in Hall as [Hc Hall].
  cbn [length read_raw_cols map concat].
  rewrite (write_raw_col_fits t col Hc), <- !app_assoc.
  destruct Hc as (Hx & Hw & Hs & Hd).
  rewrite read_write_uint16. cbn [mbind option_bind].
  rewrite read_write_uint16. cbn [mbind option_bind].
  rewrite (u16_small _ Hx), (u16_small _ Hw).
  replace (0 <? getLineSize t (col_w col)) with true by (symmetry; apply Z.ltb_lt; lia).
  rewrite (read_raw_data_app _ (col_data col)) by exact Hd. cbn [mbind option_bind].
  rewrite (IH Hall). cbn [mbind option_bind]. destruct col; reflexivity.
Qed.

Lemma read_raw_rows_concat t (rows : list DirtyRow) rest :
  Forall (row_fits t) rows ->
  read_raw_rows t (length rows) (concat (map (write_raw_row t) rows) ++ rest)
  = Some (rows, rest).
Proof.
  induction rows as [|row rows IH]; intros Hall; [reflexivity|].
  apply Forall_cons in Hall as [(Hy & Hn & Hcols) Hall].
  cbn [length read_raw_rows map concat].
  unfold write_raw_row at 1. rewrite <- !app_assoc.
  rewrite read_write_uint16. cbn [mbind option_bind].
  rewrite read_write_uint16. cbn [mbind option_bind].
  rewrite (u16_small _ Hy), u16_small, Nat2Z.id by lia.
  rewrite (read_raw_cols_concat t _ _ Hcols). cbn [mbind option_bind].
  rewrite (IH Hall). cbn [mbind option_bind]. destruct row; reflexivity.
Qed.

Lemma cols_size t (cols : list DirtyCol) : forall size,
  Forall (col_fits t) cols ->
  foldl (fun size col => size + 4 + getLineSize t (col_w col)) size cols
  = size + Z.of_nat (length (concat (map (write_raw_col t) cols))).
Proof.
  induction cols as [|col cols IH]; intros size Hall; [cbn; lia|].
  apply Forall_cons in Hall as [Hc Hall].
  cbn [foldl map concat]. rewrite (IH _ Hall), length_app, Nat2Z.inj_add.
  rewrite (write_raw_col_fits t col Hc). destruct Hc as (_ & _ & Hs & Hd).
  rewrite !length_app, Hd. cbn [length write_raw_uint16]. lia.
Qed.

Lemma rows_size t (rows : list DirtyRow) : forall size,
  Forall (row_fits t) rows ->
  foldl (fun size row =>
           foldl (fun size col => size + 4 + getLineSize t (col_w col))
                 (size + 4) (row_cols row))
        size rows
  = size + Z.of_nat (length (concat (map (write_raw_row t) rows))).
Proof.
  induction rows as [|row rows IH]; intros size Hall; [cbn; lia|].
  apply Forall_cons in Hall as [(_ & _ & Hcols) Hall].
  cbn [foldl map concat]. rewrite (IH _ Hall), (cols_size t _ _ Hcols).
  rewrite length_app, Nat2Z.inj_add. unfold write_raw_row at 2.
  rewrite !length_app. cbn [length write_raw_uint16]. lia.
Qed.

(** X20. A dirty whose fields are values of the types they are stored
    in, and whose columns hold the bytes of their pixels, is read back
    as it was written; and [write_raw_dirty] stores
    [get_raw_dirty_size] bytes. *)
Theorem raw_dirty_round_trip (dirty : Dirty) (rest : list Z) :
  dirty_fits dirty ->
  read_raw_dirty imgtype_of_code (write_raw_dirty imgtype_code dirty ++ rest)
  = Some dirty /\
  Z.of_nat (length (write_raw_dirty imgtype_code dirty)) = get_raw_dirty_size dirty.
Proof.
  intros (H1 & H2 & H3 & H4 & Hn & Hrows). split.
  - unfold write_raw_dirty, read_raw_dirty. rewrite <- !app_assoc.
    rewrite read_write_uint8. cbn [mbind option_bind].
    do 5 (rewrite read_write_uint16; cbn [mbind option_bind]).
    rewrite imgtype_of_code_code.
    rewrite (u16_small _ H1), (u16_small _ H2), (u16_small _ H3), (u16_small _ H4).
    rewrite u16_small, Nat2Z.id by lia.
    destruct (dirty_rows dirty) as [|row rows] eqn:Hr.
    + cbn. destruct dirty; cbn in *; subst; reflexivity.
    + replace (0 <? Z.of_nat (length (row :: rows))) with true
        by (symmetry; apply Z.ltb_lt; cbn [length]; lia).
      rewrite (read_raw_rows_concat _ (row :: rows) rest Hrows).
      cbn [mbind option_bind]. destruct dirty; cbn in *; subst; reflexivity.
  - unfold write_raw_dirty, get_raw_dirty_size.
    rewrite (rows_size _ _ _ Hrows), !length_app.
    cbn [length write_raw_uint8 write_raw_uint16]. lia.
Qed.

Lemma length_written_lines (line : list (list Z)) size (n : nat) : forall a,
  0 <= a -> 0 <= size ->
  (Z.to_nat a + n <= length line)%nat ->
  Forall (fun l => (Z.to_nat size <= length l)%nat) line ->
  Z.of_nat (length (concat (map (fun c => write_raw_data (line !!! Z.to_nat c) size)
                                (seqZ a (Z.of_nat n)))))
  = size * Z.of_nat n.
Proof.
  induction n as [|n IH]; intros a Ha Hsize Hin Hall;
    [change (Z.of_nat 0) with 0; rewrite Z.mul_0_r; reflexivity|].
  rewrite (seqZ_cons a (Z.of_nat (S n))) by lia.
  replace (Z.pred (Z.of_nat (S n))) with (Z.of_nat n) by lia.
  cbn [map concat]. rewrite length_app, Nat2Z.inj_add, IH by (try assumption; lia).
  unfold write_raw_data. rewrite length_take.
  destruct (lookup_lt_is_Some_2 line (Z.to_nat a)) as [row Hrow]; [lia|].
  rewrite (list_lookup_total_correct _ _ _ Hrow).
  assert (Hrl : (Z.to_nat size <= length row)%nat).
  { rewrite Forall_forall in Hall. apply Hall.
    apply list_elem_of_lookup. exists (Z.to_nat a). exact Hrow. }
  lia.
Qed.

(** X21. [write_raw_mask] stores [get_raw_mask_size] bytes: eight for
    a mask without a bitmap, and [(w+7)/8] more per line for a mask
    whose bitmap matches its rectangle. *)
Theorem raw_mask_size (mask : Mask) :
  mask_wf mask ->
  Z.of_nat (length (write_raw_mask mask)) = get_raw_mask_size mask.
Proof.
  intros [Hw Hb]. unfold write_raw_mask, get_raw_mask_size.
  rewrite !length_app. cbn [length write_raw_uint16].
  destruct (mask_bitmap mask) as [line|]; [|cbn; lia].
  destruct Hb as (Hh & Hlen & Hall).
  assert (Hsize : 0 <= Z.quot (mask_w mask + 7) 8) by (apply Z.quot_pos; lia).
  rewrite <- (Z2Nat.id (mask_h mask)) at 1 by lia.
  rewrite !Nat2Z.inj_add.
  rewrite (length_written_lines line _ (Z.to_nat (mask_h mask)) 0)
    by (try assumption; lia).
  rewrite Z2Nat.id by lia. cbn. lia.
Qed.

End RawReadProperties.

(** * The properties on the sample data *)

#[local] Existing Instance sample_collaborators.






Lemma record_clears_redo_witness :
  canRedo sample_redo_history = true /\
  exists u', record rec_open sample_redo_history = Ok u' /\ canRedo u' = false.
Proof.
  split; [reflexivity|].
  destruct (record rec_open sample_redo_history) as [u'|msg u'|] eqn:Hrec;
    [|vm_compute in Hrec; discriminate|vm_compute in Hrec; discriminate].
  exists u'. split; [reflexivity|].
  apply (record_clears_redo rec_open sample_redo_history u' Hrec).
Defined.

Lemma runUndo_empty_noop_witness :
  canUndo (new_UndoHistory sample_objects) = false /\
  doUndo (new_UndoHistory sample_objects) = Ok (new_UndoHistory sample_objects) /\
  canRedo sample_history = false /\
  doRedo sample_history = Ok sample_history.
Proof.
  split; [reflexivity|]. split.
  - apply (proj1 (runUndo_empty_noop (new_UndoHistory sample_objects))). reflexivity.
  - split; [reflexivity|].
    apply (proj2 (runUndo_empty_noop sample_history)). reflexivity.
Defined.

Lemma sample_mapping_permutation : is_permutation sample_mapping.
Proof.
  unfold is_permutation, sample_mapping.
  change (seqZ 0 256) with (0 :: 1 :: seqZ 2 254). apply perm_swap.
Qed.

Lemma remap_palette_invert_twice_witness :
  is_permutation sample_mapping /\
  exists u1 c1 u2 c2,
    chunk_remap_palette_invert TheRedoStream sample_remap_chunk sample_history = Ok u1 /\
    chunks (m_redoStream u1) = [c1] /\
    chunk_remap_palette_invert TheUndoStream c1 u1 = Ok u2 /\
    chunks (m_undoStream u2) = chunks (m_undoStream u1) ++ [c2] /\
    chunk_body c2 = BodyRemapPalette 7 0 1 sample_mapping.
Proof.
  split; [exact sample_mapping_permutation|].
  assert (Hs : is_Some (getObjectT_Sprite (m_objects sample_history) 7))
    by (eexists; reflexivity).
  destruct (remap_palette_invert_twice TheRedoStream TheUndoStream sample_remap_chunk
              sample_history sample_history 7 0 1 sample_mapping eq_refl
              sample_mapping_permutation Hs Hs)
    as (_ & u1 & c1 & Hrun1 & Hpush1 & Hb1 & _).
  assert (Hs1 : is_Some (getObjectT_Sprite (m_objects u1) 7)).
  { rewrite (chunk_remap_palette_invert_objects TheRedoStream sample_remap_chunk
               sample_history u1 7 0 1 sample_mapping eq_refl Hrun1).
    change (remapImages 7 0 1 (inverse_mapping sample_mapping)
              (m_objects sample_history))
      with (m_objects sample_history).
    exact Hs. }
  destruct (remap_palette_invert_twice TheUndoStream TheUndoStream
              (mkChunk UNDO_TYPE_REMAP_PALETTE 16 "remap"
                 (BodyRemapPalette 7 0 1 sample_mapping))
              u1 u1 7 0 1 sample_mapping eq_refl sample_mapping_permutation Hs1 Hs1)
    as (_ & _ & c1' & _ & _ & Hb1' & u2 & c2 & Hrun2 & Hpush2 & Hb2).
  assert (Hrun2' : chunk_remap_palette_invert TheUndoStream c1 u1 = Ok u2).
  { unfold chunk_remap_palette_invert in *. rewrite Hb1. rewrite Hb1' in Hrun2.
    exact Hrun2. }
  exists u1, c1, u2, c2.
  split; [exact Hrun1|]. split; [exact Hpush1|]. split; [exact Hrun2'|].
  split; [exact Hpush2 | exact Hb2].
Defined.

Lemma chunk_image_invert_spec_witness :
  getObjectT_Image (m_objects sample_history) 9 = Some sample_image /\
  rect_inside sample_image 1 0 2 2 /\
  exists backup u',
    chunk_image_invert TheRedoStream sample_image_chunk sample_history = Ok u' /\
    chunks (m_redoStream u') = [backup] /\
    chunk_body backup = BodyImage 9 IMAGE_INDEXED 1 0 2 2 [2; 3; 6; 7] /\
    getObjectT_Image (m_objects u') 9
    = Some (mkImage IMAGE_INDEXED 4 2 0 [[1; 9; 9; 4]; [5; 9; 9; 8]]).
Proof.
  assert (Himg : getObjectT_Image (m_objects sample_history) 9 = Some sample_image)
    by reflexivity.
  assert (Hrect : rect_inside sample_image 1 0 2 2)
    by (unfold rect_inside; cbn; lia).
  split; [exact Himg|]. split; [exact Hrect|].
  destruct (chunk_image_invert_spec TheRedoStream sample_image_chunk sample_history
              9 IMAGE_INDEXED 1 0 2 2 [9; 9; 9; 9] sample_image eq_refl Himg)
    as (_ & Hok).
  destruct (Hok eq_refl Hrect) as (backup & u' & Hrun & Hpush & _ & Hbody & Hlive & _).
  exists backup, u'. split; [exact Hrun|]. split; [exact Hpush|].
  split; [exact Hbody | exact Hlive].
Defined.

Lemma sample_group_entry : first_entry [sample_open; sample_set_size; sample_close].
Proof.
  apply (first_entry_group sample_open [sample_set_size] 1 sample_close);
    [reflexivity | reflexivity |].
  apply entries_single; [discriminate | discriminate | constructor].
Qed.

Lemma runUndo_accounting_witness :
  exists u',
    runUndo DO_UNDO sample_history = Ok u' /\
    m_diffSaved u' = m_diffSaved sample_history /\
    exists k : nat,
      (1 <= k <= 4)%nat /\
      chunks (m_undoStream u') = drop k (chunks (m_undoStream sample_history)) /\
      m_diffCount u' = 4 - Z.of_nat k.
Proof.
  destruct (runUndo DO_UNDO sample_history) as [u'|msg u'|] eqn:Hrun;
    [|vm_compute in Hrun; discriminate|vm_compute in Hrun; discriminate].
  exists u'. split; [reflexivity|].
  destruct (runUndo_accounting DO_UNDO sample_history u' Hrun)
    as (k & news & Hpos & Hk & Hs & Hd & Hv & _).
  split; [exact Hv|]. exists k.
  split; [split; [apply Hpos; discriminate | exact Hk]|].
  split; [exact Hs|]. rewrite Hd. cbn [diff_step sample_history m_diffCount]. lia.
Defined.

Lemma runUndo_unmatched_witness :
  exists u',
    doUndo sample_unclosed_history = Ok u' /\
    chunks (m_undoStream u') = [] /\ m_diffCount u' = 0.
Proof.
  destruct (doUndo sample_unclosed_history) as [u'|msg u'|] eqn:Hrun;
    [|vm_compute in Hrun; discriminate|vm_compute in Hrun; discriminate].
  exists u'. split; [reflexivity|].
  assert (Hmin : forall k : nat,
            (0 < k <= length (chunks (get_stream (source_of DO_UNDO)
                                        sample_unclosed_history)))%nat ->
            depth (take k (chunks (get_stream (source_of DO_UNDO)
                                     sample_unclosed_history))) <> 0).
  { intros k Hk.
    change (length _) with 2%nat in Hk.
    destruct k as [|[|[|k]]]; [lia | | | lia]; vm_compute; discriminate. }
  destruct (runUndo_unmatched DO_UNDO sample_unclosed_history u' Hmin Hrun)
    as (Hs & Hd & _).
  split; [exact Hs|]. rewrite Hd. reflexivity.
Defined.

Lemma inverses_first_entry_witness : first_entry [sample_close; sample_open].
Proof.
  apply (inverses_first_entry [sample_open; sample_set_size; sample_close]
           [[sample_close]; []; [sample_open]]).
  - exact sample_group_entry.
  - constructor; [|constructor; [|constructor; [|constructor]]];
      (split; [cbn; lia|]);
      (split; [repeat constructor | intros [H|H]; try discriminate H; reflexivity]).
  - discriminate.
Defined.

Lemma doUndo_then_doRedo_witness :
  exists u1 u2,
    doUndo sample_history = Ok u1 /\ doRedo u1 = Ok u2 /\
    chunks (m_redoStream u2) = [] /\
    m_diffSaved u2 = 0 /\
    exists backs, chunks (m_undoStream u2) = sample_set_frame :: concat backs.
Proof.
  destruct (doUndo sample_history) as [u1|msg u1|] eqn:Hundo;
    [|vm_compute in Hundo; discriminate|vm_compute in Hundo; discriminate].
  destruct (doRedo u1) as [u2|msg u2|] eqn:Hredo;
    [|vm_compute in Hundo; injection Hundo as <-; vm_compute in Hredo; discriminate
     |vm_compute in Hundo; injection Hundo as <-; vm_compute in Hredo; discriminate].
  exists u1, u2. split; [reflexivity|]. split; [exact Hredo|].
  destruct (doUndo_then_doRedo sample_history u1 u2
              [sample_open; sample_set_size; sample_close] [sample_set_frame]
              eq_refl sample_group_entry eq_refl Hundo Hredo)
    as (news & backs & _ & _ & _ & Hu & Hr & _ & Hv).
  split; [exact Hr|]. split; [exact Hv|]. exists backs. exact Hu.
Defined.

Lemma runUndo_label_witness :
  exists u', doUndo sample_history = Ok u' /\ getLabel u' = Some "paint"%string.
Proof.
  destruct (doUndo sample_history) as [u'|msg u'|] eqn:Hrun;
    [|vm_compute in Hrun; discriminate|vm_compute in Hrun; discriminate].
  exists u'. split; [reflexivity|].
  assert (Hne : chunks (get_stream (source_of DO_UNDO) sample_history) <> [])
    by discriminate.
  destruct (runUndo_label DO_UNDO sample_history u' Hne Hrun) as (k & c & _ & _ & _).
  vm_compute in Hrun. injection Hrun as <-. reflexivity.
Defined.

Lemma runUndo_throw_witness :
  exists msg u',
    doUndo sample_mismatch_history = Raised msg u' /\
    chunks (m_undoStream u') = [sample_close] /\
    m_diffCount u' = 2 /\ m_diffSaved u' = 0 /\
    getLabel u' = Some "paint"%string.
Proof.
  destruct (doUndo sample_mismatch_history) as [u'|msg u'|] eqn:Hrun;
    [vm_compute in Hrun; discriminate| |vm_compute in Hrun; discriminate].
  exists msg, u'. split; [reflexivity|].
  destruct (runUndo_throw DO_UNDO sample_mismatch_history u' msg Hrun)
    as (k & c & news & _ & _ & _ & Hv & _).
  vm_compute in Hrun. injection Hrun as <- <-.
  split; [reflexivity|]. split; [reflexivity|]. split; [exact Hv | reflexivity].
Defined.

Lemma count_undo_groups_app_witness :
  depth [sample_set_frame] = 0 /\
  count_undo_groups (mkStream ([sample_set_frame] ++ [sample_open; sample_close]) 48) = 2.
Proof.
  assert (Hd : depth [sample_set_frame] = 0) by reflexivity.
  split; [exact Hd|].
  destruct (count_undo_groups_app [sample_set_frame] [sample_open; sample_close]
              48 16 32 Hd) as [Heq _].
  rewrite Heq. reflexivity.
Defined.

Lemma discardTail_drops_one_group_witness :
  count_undo_groups (m_undoStream sample_history) = 2 /\
  count_undo_groups (m_undoStream (discardTail sample_history)) = 1.
Proof.
  assert (Hne : chunks (m_undoStream sample_history) <> []) by discriminate.
  assert (Hout : out_of_group (m_undoStream sample_history) = true) by reflexivity.
  destruct (discardTail_drops_one_group sample_history Hne Hout)
    as (_ & _ & Hcount & _).
  split; [reflexivity|]. rewrite Hcount. reflexivity.
Defined.

Lemma discardTail_unbalanced_witness :
  chunks (m_undoStream sample_unopened_history) = [sample_set_size; sample_close] /\
  chunks (m_undoStream (discardTail sample_unopened_history)) = [].
Proof.
  split; [reflexivity|].
  apply (discardTail_unbalanced sample_unopened_history).
  intros j Hj. change (length _) with 2%nat in Hj.
  destruct j as [|[|j]]; [| |lia]; vm_compute; discriminate.
Defined.

Lemma updateUndo_no_eviction_witness :
  m_undoStream (updateUndo sample_history) = m_undoStream sample_history.
Proof.
  apply (updateUndo_no_eviction sample_history).
  right. vm_compute. discriminate.
Defined.

Lemma record_can_undo_witness :
  exists u', record rec_open sample_big_history = Ok u' /\ canUndo u' = true.
Proof.
  destruct (record rec_open sample_big_history) as [u'|msg u'|] eqn:Hrec;
    [|vm_compute in Hrec; discriminate|vm_compute in Hrec; discriminate].
  exists u'. split; [reflexivity|].
  apply (proj1 (record_can_undo rec_open sample_big_history u' Hrec)).
Defined.

Lemma runUndo_setter_sprite_gone_witness :
  exists u',
    doUndo sample_gone_history = Ok u' /\
    chunks (m_undoStream u') = [sample_set_frame] /\
    m_redoStream u' = empty_stream /\ m_diffCount u' = 1.
Proof.
  destruct (runUndo_setter_sprite_gone DO_UNDO sample_gone_history sample_set_size
              [sample_set_frame] 7 eq_refl eq_refl eq_refl)
    as (u' & Hrun & Hs & Ht & _ & Hd).
  exists u'. split; [exact Hrun|]. split; [exact Hs|]. split; [exact Ht | exact Hd].
Defined.

Lemma setter_doUndo_doRedo_witness :
  exists u1 u2,
    doUndo sample_setter_history = Ok u1 /\
    getObjectT_Sprite (m_objects u1) 7 = Some (setSize 100 100 sample_sprite) /\
    doRedo u1 = Ok u2 /\
    m_objects u2 = sample_objects /\ m_diffCount u2 = 2.
Proof.
  assert (Hfits : sprite_fits sample_sprite) by (unfold sprite_fits; cbn; lia).
  destruct (setter_doUndo_doRedo sample_setter_history sample_set_size
              [sample_set_frame] 7 sample_sprite eq_refl eq_refl eq_refl eq_refl Hfits)
    as (u1 & u2 & c1 & c2 & Hundo & Hs1 & _ & _ & _ & _ & Hredo & Hobj & _ & _ & _ & _ & Hd).
  exists u1, u2. split; [exact Hundo|]. split; [exact Hs1|]. split; [exact Hredo|].
  split; [exact Hobj | exact Hd].
Defined.

Lemma sample_image_wf : image_wf sample_image.
Proof.
  unfold image_wf. cbn. split; [lia|]. split; [lia|]. split; [reflexivity|].
  repeat constructor.
Qed.

Lemma chunk_image_invert_twice_witness :
  exists u1 c1 u2 c2,
    chunk_image_invert TheRedoStream sample_image_chunk sample_history = Ok u1 /\
    chunks (m_redoStream u1) = [c1] /\
    getObjectT_Image (m_objects u1) 9
    = Some (mkImage IMAGE_INDEXED 4 2 0 [[1; 9; 9; 4]; [5; 9; 9; 8]]) /\
    chunk_image_invert TheUndoStream c1 u1 = Ok u2 /\
    chunks (m_undoStream u2) = chunks (m_undoStream u1) ++ [c2] /\
    chunk_body c2 = chunk_body sample_image_chunk /\
    m_objects u2 = sample_objects.
Proof.
  assert (Hrect : rect_inside sample_image 1 0 2 2) by (unfold rect_inside; cbn; lia).
  destruct (chunk_image_invert_twice TheRedoStream TheUndoStream sample_image_chunk
              sample_history 9 1 0 2 2 [9; 9; 9; 9] sample_image
              eq_refl eq_refl sample_image_wf Hrect
              ltac:(lia) ltac:(lia) ltac:(lia) ltac:(lia) eq_refl)
    as (u1 & c1 & u2 & c2 & H1 & H2 & H3 & H4 & H5 & H6 & H7).
  exists u1, c1, u2, c2.
  split; [exact H1|]. split; [exact H2|]. split; [exact H3|]. split; [exact H4|].
  split; [exact H5|]. split; [exact H6 | exact H7].
Defined.

Lemma raw_macros_round_trip_witness :
  read_raw_uint16 (write_raw_uint16 70000 ++ [7]) = Some (4464, [7]) /\
  read_raw_int16 (write_raw_int16 (-3) ++ [7]) = Some (-3, [7]).
Proof.
  destruct (raw_macros_round_trip 70000 (-3) [] [7] ltac:(lia))
    as (_ & H16 & _ & Hs & _).
  split; [exact H16 | exact Hs].
Defined.

Lemma raw_cel_round_trip_witness :
  read_raw_cel (write_raw_cel sample_cel ++ [7]) = Some sample_cel.
Proof.
  apply (raw_cel_round_trip sample_cel [7]).
  unfold cel_fits. cbn. lia.
Defined.

Lemma sample_imgtype_decodes t :
  sample_imgtype_of_code (u8 (sample_imgtype_code t)) = t.
Proof. destruct t; reflexivity. Qed.

Lemma raw_image_round_trip_witness :
  read_raw_image sample_imgtype_of_code
    (write_raw_image sample_imgtype_code 9 sample_image ++ [7])
  = Some (Some (9, sample_image)) /\
  length (write_raw_image sample_imgtype_code 9 sample_image) = 21%nat.
Proof.
  destruct (raw_image_round_trip sample_imgtype_code sample_imgtype_of_code
              sample_imgtype_decodes 9 sample_image [7]
              ltac:(lia) sample_image_wf ltac:(unfold image_fits; cbn; lia))
    as [Hread Hlen].
  split; [exact Hread|]. apply Nat2Z.inj. rewrite Hlen. reflexivity.
Defined.


Lemma raw_palette_round_trip_witness :
  read_raw_palette (write_raw_palette sample_palette ++ [7]) = Some sample_palette /\
  length (write_raw_palette sample_palette) = 12%nat.
Proof.
  assert (Hfits : palette_fits sample_palette).
  { unfold palette_fits. cbn. split; [lia|]. split; [lia|].
    repeat constructor; lia. }
  destruct (raw_palette_round_trip sample_palette [7] Hfits) as [Hread Hlen].
  split; [exact Hread|]. apply Nat2Z.inj. rewrite Hlen. reflexivity.
Defined.

Lemma raw_dirty_round_trip_witness :
  read_raw_dirty sample_imgtype_of_code
    (write_raw_dirty sample_imgtype_code sample_dirty ++ [7])
  = Some sample_dirty /\
  get_raw_dirty_size sample_dirty = 21.
Proof.
  assert (Hfits : dirty_fits sample_dirty).
  { unfold dirty_fits. cbn. repeat (split; [lia|]).
    constructor; [|constructor].
    unfold row_fits. cbn. repeat (split; [lia|]).
    constructor; [|constructor].
    unfold col_fits. cbn. repeat (split; [lia|]). reflexivity. }
  destruct (raw_dirty_round_trip sample_imgtype_code sample_imgtype_of_code
              sample_imgtype_decodes sample_dirty [7] Hfits) as [Hread _].
  split; [exact Hread | reflexivity].
Defined.

Lemma raw_mask_size_witness :
  length (write_raw_mask sample_mask) = 12%nat /\ get_raw_mask_size sample_mask = 12.
Proof.
  assert (Hwf : mask_wf sample_mask).
  { unfold mask_wf. cbn. split; [lia|]. split; [lia|]. split; [reflexivity|].
    repeat constructor. }
  assert (Hsize := raw_mask_size sample_mask Hwf).
  split; [apply Nat2Z.inj; rewrite Hsize; reflexivity | reflexivity].
Defined.

Lemma get_raw_layer_size_overcounts_witness :
  exists bytes,
    write_raw_layer 1 2 sample_imgtype_code sample_folder_layer = Some bytes /\
    get_raw_layer_size sample_folder_layer = Some (Z.of_nat (length bytes) + 2).
Proof.
  destruct (write_raw_layer 1 2 sample_imgtype_code sample_folder_layer)
    as [bytes|] eqn:Hw; [|vm_compute in Hw; discriminate].
  exists bytes. split; [reflexivity|].
  assert (Hstock : stock_wf sample_layer_sprite).
  { unfold stock_wf. cbn. constructor; [|constructor]. exact sample_image_wf. }
  assert (Hwf : layer_stock_wf sample_folder_layer).
  { cbn. split; [exact Hstock|]. split; [exact Hstock | exact I]. }
  apply (get_raw_layer_size_overcounts 1 2 sample_imgtype_code
           sample_folder_layer bytes Hwf Hw).
Defined.
